(** * LibreDesk: the conversation messaging pipeline and the automation engine

  A shallow embedding of [internal/automation/automation.go] (package
  [automation]) and of the message half of package [conversation]
  (the second file of the same listing), followed by the properties of
  the specification that were checked against it.

  Conventions of the embedding.
  - A Go [int] is a 64-bit two's complement integer: it is a [Z] and the
    one multiplication that can overflow is wrapped explicitly.
  - A Go [(value, error)] result is a pair whose second component is an
    [option error]; [None] is [nil].
  - A buffered channel is its buffer, its capacity and its closed flag.
  - The database is the list of rows of each table; every prepared
    statement may fail, which an environment decides per statement.
  - External collaborators (contact store, inbox store, template, media
    store) are fields of an environment record. *)

From Stdlib Require Import Ascii.
From stdpp Require Import base numbers list strings gmap pretty.

Open Scope Z_scope.
Open Scope string_scope.
Open Scope list_scope.

(** ** Go runtime notions *)

Inductive error : Type :=
| ErrConversationNotFound          (* conversation.ErrConversationNotFound *)
| ErrNew (msg : string)            (* errors.New, fmt.Errorf, envelope.NewError *)
| ErrDep (who : string).           (* an error returned by a collaborator or the database *)

(** [err != nil && err != ErrConversationNotFound] *)
Definition fatal (err : option error) : bool :=
match err with
| None => false
| Some ErrConversationNotFound => false
| Some _ => true
end.

(** The result of running one statement that returns at most one row. *)
Inductive QueryRow (A : Type) : Type :=
| Row (a : A)
| NoRows                           (* sql.ErrNoRows *)
| QueryErr (e : error).
Arguments Row {A} a.
Arguments NoRows {A}.
Arguments QueryErr {A} e.

Module GoInt.
(** Two's complement wrap-around of a 64-bit [int]. *)
Definition wrap (z : Z) : Z := (z + 2 ^ 63) `mod` 2 ^ 64 - 2 ^ 63.
Definition mul (a b : Z) : Z := wrap (a * b).
Definition sub (a b : Z) : Z := wrap (a - b).
Definition in_range (z : Z) : Prop := - 2 ^ 63 <= z < 2 ^ 63.
End GoInt.

Module Chan.
(** A buffered Go channel. *)
Record t (A : Type) : Type := Make { buf : list A; cap : nat; closed : bool }.
Arguments Make {A} buf cap closed.
Arguments buf {A}.
Arguments cap {A}.
Arguments closed {A}.

Inductive send_result (A : Type) : Type :=
  | Sent (c : t A)
  | WouldBlock
  | SendOnClosed.                  (* a run-time panic *)
Arguments Sent {A} c.
Arguments WouldBlock {A}.
Arguments SendOnClosed {A}.

Definition make {A} (n : nat) : t A := Make [] n false.

Definition full {A} (c : t A) : bool := (cap c <=? length (buf c))%nat.

(** [ch <- x]: the outcome when the sender does not wait.  It is the
    whole of a [select { case ch <- x: ... default: ... }], and for a
    plain [ch <- x] the outcome [WouldBlock] means the sender is
    suspended until a receiver frees a slot. *)
Definition send {A} (x : A) (c : t A) : send_result A :=
  if closed c then SendOnClosed
  else if full c then WouldBlock
  else Sent (Make (buf c ++ [x]) (cap c) false).

(** [x, ok := <-ch] when a value is buffered. *)
Definition recv {A} (c : t A) : option (A * t A) :=
  match buf c with
  | [] => None
  | x :: rest => Some (x, Make rest (cap c) (closed c))
  end.

Definition close {A} (c : t A) : t A := Make (buf c) (cap c) true.
End Chan.

(** ** Package automation *)

Module Automation.

Definition MaxQueueSize : nat := 5000.

(** [models.Rule]: the type tag, and the rest of the rule (groups and
    actions), which the engine code under study never inspects. *)
Record Rule : Type := { Type_ : string; Body : string }.

(** A row of the rule table ([models.RuleRecord] plus the enabled flag). *)
Record RuleRecord : Type := {
  ID : Z;
  Name : string;
  Description : string;
  RType : string;
  Rules : string;                  (* the serialized rule list *)
  Disabled : bool
}.

Inductive RWMutex : Type :=
  | MuFree
  | MuWrite
  | MuRead (readers : nat).        (* [S readers] readers hold the lock *)

Definition Lock (mu : RWMutex) : option RWMutex :=
  match mu with MuFree => Some MuWrite | _ => None end.
Definition Unlock (mu : RWMutex) : RWMutex := MuFree.
Definition RLock (mu : RWMutex) : option RWMutex :=
  match mu with
  | MuFree => Some (MuRead 0)
  | MuRead n => Some (MuRead (S n))
  | MuWrite => None
  end.
Definition RUnlock (mu : RWMutex) : RWMutex :=
  match mu with
  | MuRead (S n) => MuRead n
  | _ => MuFree
  end.

(** The engine.  [q] is the rule table behind the prepared statements.
    [rulesWrites] is a history variable: the state of [rulesMu] at each
    assignment to [rules], oldest first. *)
Record Engine : Type := {
  rules : list Rule;
  rulesMu : RWMutex;
  q : list RuleRecord;
  newConversationQ : Chan.t string;
  updateConversationQ : Chan.t string;
  closed : bool;
  rulesWrites : list RWMutex
}.

Definition with_rulesMu (mu : RWMutex) (e : Engine) : Engine :=
  {| rules := rules e; rulesMu := mu; q := q e;
     newConversationQ := newConversationQ e;
     updateConversationQ := updateConversationQ e;
     closed := closed e; rulesWrites := rulesWrites e |}.

(** [e.rules = rs] *)
Definition assign_rules (rs : list Rule) (e : Engine) : Engine :=
  {| rules := rs; rulesMu := rulesMu e; q := q e;
     newConversationQ := newConversationQ e;
     updateConversationQ := updateConversationQ e;
     closed := closed e; rulesWrites := rulesWrites e ++ [rulesMu e] |}.

Definition with_q (t : list RuleRecord) (e : Engine) : Engine :=
  {| rules := rules e; rulesMu := rulesMu e; q := t;
     newConversationQ := newConversationQ e;
     updateConversationQ := updateConversationQ e;
     closed := closed e; rulesWrites := rulesWrites e |}.

Definition with_newConversationQ (c : Chan.t string) (e : Engine) : Engine :=
  {| rules := rules e; rulesMu := rulesMu e; q := q e;
     newConversationQ := c;
     updateConversationQ := updateConversationQ e;
     closed := closed e; rulesWrites := rulesWrites e |}.

Definition with_updateConversationQ (c : Chan.t string) (e : Engine) : Engine :=
  {| rules := rules e; rulesMu := rulesMu e; q := q e;
     newConversationQ := newConversationQ e;
     updateConversationQ := c;
     closed := closed e; rulesWrites := rulesWrites e |}.

(** What the engine does not own: the JSON decoder and the failures of
    the database, decided per statement name. *)
Record Env : Type := {
  json_Unmarshal : string -> option (list Rule);
  stmt_fails : string -> bool
}.

(** *** The prepared statements of queries.sql *)

(** Modelled from the spec: queries.sql is not part of the sources; the
    rule persistence interface is "CRUD + toggle + get all enabled,
    grouped by type, returning raw serialized rule-action lists".
    [get-enabled-rules] returns type and rules of the rows that are not
    disabled, in storage order. *)
Definition GetEnabledRules (t : list RuleRecord) : list (string * string) :=
  map (fun r => (RType r, Rules r)) (filter (fun r => Disabled r = false) t).

(** Modelled from the spec: [toggle-rule] flips the enabled flag of the
    row with the given id. *)
Definition toggle_row (id : Z) (r : RuleRecord) : RuleRecord :=
  if bool_decide (ID r = id)
  then {| ID := ID r; Name := Name r; Description := Description r;
          RType := RType r; Rules := Rules r; Disabled := negb (Disabled r) |}
  else r.
Definition ExecToggleRule (id : Z) (t : list RuleRecord) : list RuleRecord :=
  map (toggle_row id) t.

(** Modelled from the spec: [update-rule] rewrites name, description,
    type and rules of the row with the given id. *)
Definition update_row (id : Z) (n d ty rs : string) (r : RuleRecord) : RuleRecord :=
  if bool_decide (ID r = id)
  then {| ID := ID r; Name := n; Description := d;
          RType := ty; Rules := rs; Disabled := Disabled r |}
  else r.
Definition ExecUpdateRule (id : Z) (n d ty rs : string) (t : list RuleRecord)
  : list RuleRecord :=
  map (update_row id n d ty rs) t.

Definition fresh_id (t : list RuleRecord) : Z :=
  1 + foldr (fun r acc => Z.max (ID r) acc) 0 t.

(** Modelled from the spec: [insert-rule] adds an enabled row under a
    fresh id. *)
Definition ExecInsertRule (n d ty rs : string) (t : list RuleRecord)
  : list RuleRecord :=
  t ++ [ {| ID := fresh_id t; Name := n; Description := d;
            RType := ty; Rules := rs; Disabled := false |} ].

(** Modelled from the spec: [delete-rule] removes the row with the
    given id. *)
Definition ExecDeleteRule (id : Z) (t : list RuleRecord) : list RuleRecord :=
  filter (fun r => ID r <> id) t.

(** *** The engine's code *)

Definition set_type (ty : string) (r : Rule) : Rule :=
  {| Type_ := ty; Body := Body r |}.

(** The loop of [queryRules] over the selected rows. *)
Fixpoint collect_rules (env : Env) (rows : list (string * string)) : list Rule :=
  match rows with
  | [] => []
  | (ty, js) :: rest =>
      match json_Unmarshal env js with
      | None => collect_rules env rest                     (* continue *)
      | Some rulesBatch => map (set_type ty) rulesBatch ++ collect_rules env rest
      end
  end.

Definition queryRules (env : Env) (e : Engine) : list Rule :=
  if stmt_fails env "get-enabled-rules" then []
  else collect_rules env (GetEnabledRules (q e)).

(** [ReloadRules]; [None] when the caller has to wait for the lock. *)
Definition ReloadRules (env : Env) (e : Engine) : option Engine :=
  match Lock (rulesMu e) with
  | None => None
  | Some mu =>
      let e1 := with_rulesMu mu e in
      let e2 := assign_rules (queryRules env e1) e1 in
      Some (with_rulesMu (Unlock (rulesMu e2)) e2)         (* deferred *)
  end.

(** The shape shared by the four mutators: run the statement, on
    success reload. *)
Definition exec_then_reload (env : Env) (stmt msg : string)
    (run : list RuleRecord -> list RuleRecord) (e : Engine)
  : option (option error * Engine) :=
  if stmt_fails env stmt then Some (Some (ErrNew msg), e)
  else
    match ReloadRules env (with_q (run (q e)) e) with
    | None => None
    | Some e' => Some (None, e')
    end.

Definition ToggleRule (env : Env) (id : Z) (e : Engine) :=
  exec_then_reload env "toggle-rule" "Error toggling automation rule."
    (ExecToggleRule id) e.

Definition UpdateRule (env : Env) (id : Z) (rule : RuleRecord) (e : Engine) :=
  exec_then_reload env "update-rule" "Error updating automation rule."
    (ExecUpdateRule id (Name rule) (Description rule) (RType rule) (Rules rule)) e.

Definition CreateRule (env : Env) (rule : RuleRecord) (e : Engine) :=
  exec_then_reload env "insert-rule" "Error creating automation rule."
    (ExecInsertRule (Name rule) (Description rule) (RType rule) (Rules rule)) e.

Definition DeleteRule (env : Env) (id : Z) (e : Engine) :=
  exec_then_reload env "delete-rule" "Error deleting automation rule."
    (ExecDeleteRule id) e.

(** [filterRulesByType]; the read lock is taken and released, so the
    engine is left as it was.  [None] when a writer holds the lock. *)
Definition filterRulesByType (ruleType : string) (e : Engine) : option (list Rule) :=
  match RLock (rulesMu e) with
  | None => None
  | Some _ => Some (filter (fun rule => Type_ rule = ruleType) (rules e))
  end.

(** [EvaluateNewConversationRules] *)
Definition EvaluateNewConversationRules (conversationUUID : string) (e : Engine)
  : Engine :=
  if closed e then e
  else
    match Chan.send conversationUUID (newConversationQ e) with
    | Chan.Sent c => with_newConversationQ c e
    | _ => e                                              (* queue is full *)
    end.

(** [EvaluateConversationUpdateRules] *)
Definition EvaluateConversationUpdateRules (conversationUUID : string) (e : Engine)
  : Engine :=
  if closed e then e
  else
    match Chan.send conversationUUID (updateConversationQ e) with
    | Chan.Sent c => with_updateConversationQ c e
    | _ => e
    end.

End Automation.

(** ** Package conversation: messages *)

Module Conversation.

Definition MessageIncoming := "incoming".
Definition MessageOutgoing := "outgoing".
Definition MessageActivity := "activity".

Definition SenderTypeUser := "user".
Definition SenderTypeContact := "contact".

Definition MessageStatusPending := "pending".
Definition MessageStatusSent := "sent".
Definition MessageStatusDelivered := "delivered".
Definition MessageStatusRead := "read".
Definition MessageStatusFailed := "failed".
Definition MessageStatusReceived := "received".

Definition ContentTypeText := "text".
Definition ContentTypeHTML := "html".

Definition maxLastMessageLen : nat := 45.
Definition maxMessagesPerPage : Z := 30.

(** [inbox.ChannelEmail]; package inbox is not part of the sources. *)
Definition ChannelEmail := "email".

(** [null.String] *)
Record NullString : Type := { String_ : string; Valid : bool }.

Record Attachment : Type := {
  AName : string;
  AContent : string;
  AHeader : string
}.

(** A row of the media store, as far as [attachAttachmentsToMessage]
    reads it. *)
Record MediaRow : Type := {
  MUUID : string;
  Filename : string;
  MContentType : string;
  Disposition : string
}.

(** [models.Message].  Time stamps are integers (seconds). *)
Record Message : Type := {
  ID : Z;
  UUID : string;
  Type_ : string;
  Status : string;
  ConversationID : Z;
  ConversationUUID : string;
  Content : string;
  ContentType : string;
  SenderID : Z;
  SenderType : string;
  Private : bool;
  SourceID : NullString;
  InboxID : Z;
  Meta : string;
  Subject : string;
  References : list string;
  InReplyTo : string;
  From_ : string;
  To : list string;
  CreatedAt : Z;
  Media : list Z;
  Attachments : list Attachment
}.

Definition set_Status (v0 : string) (x : Message) : Message :=
  {| ID := ID x; UUID := UUID x; Type_ := Type_ x; Status := v0;
     ConversationID := ConversationID x; ConversationUUID := ConversationUUID x;
     Content := Content x; ContentType := ContentType x; SenderID := SenderID x;
     SenderType := SenderType x; Private := Private x; SourceID := SourceID x;
     InboxID := InboxID x; Meta := Meta x; Subject := Subject x;
     References := References x; InReplyTo := InReplyTo x; From_ := From_ x;
     To := To x; CreatedAt := CreatedAt x; Media := Media x;
     Attachments := Attachments x |}.
Definition set_Meta (v0 : string) (x : Message) : Message :=
  {| ID := ID x; UUID := UUID x; Type_ := Type_ x; Status := Status x;
     ConversationID := ConversationID x; ConversationUUID := ConversationUUID x;
     Content := Content x; ContentType := ContentType x; SenderID := SenderID x;
     SenderType := SenderType x; Private := Private x; SourceID := SourceID x;
     InboxID := InboxID x; Meta := v0; Subject := Subject x;
     References := References x; InReplyTo := InReplyTo x; From_ := From_ x;
     To := To x; CreatedAt := CreatedAt x; Media := Media x;
     Attachments := Attachments x |}.
Definition set_Content (v0 : string) (x : Message) : Message :=
  {| ID := ID x; UUID := UUID x; Type_ := Type_ x; Status := Status x;
     ConversationID := ConversationID x; ConversationUUID := ConversationUUID x;
     Content := v0; ContentType := ContentType x; SenderID := SenderID x;
     SenderType := SenderType x; Private := Private x; SourceID := SourceID x;
     InboxID := InboxID x; Meta := Meta x; Subject := Subject x;
     References := References x; InReplyTo := InReplyTo x; From_ := From_ x;
     To := To x; CreatedAt := CreatedAt x; Media := Media x;
     Attachments := Attachments x |}.
Definition set_SenderID (v0 : Z) (x : Message) : Message :=
  {| ID := ID x; UUID := UUID x; Type_ := Type_ x; Status := Status x;
     ConversationID := ConversationID x; ConversationUUID := ConversationUUID x;
     Content := Content x; ContentType := ContentType x; SenderID := v0;
     SenderType := SenderType x; Private := Private x; SourceID := SourceID x;
     InboxID := InboxID x; Meta := Meta x; Subject := Subject x;
     References := References x; InReplyTo := InReplyTo x; From_ := From_ x;
     To := To x; CreatedAt := CreatedAt x; Media := Media x;
     Attachments := Attachments x |}.
Definition set_ConversationID_ConversationUUID (v0 : Z) (v1 : string) (x : Message) : Message :=
  {| ID := ID x; UUID := UUID x; Type_ := Type_ x; Status := Status x;
     ConversationID := v0; ConversationUUID := v1; Content := Content x;
     ContentType := ContentType x; SenderID := SenderID x;
     SenderType := SenderType x; Private := Private x; SourceID := SourceID x;
     InboxID := InboxID x; Meta := Meta x; Subject := Subject x;
     References := References x; InReplyTo := InReplyTo x; From_ := From_ x;
     To := To x; CreatedAt := CreatedAt x; Media := Media x;
     Attachments := Attachments x |}.
Definition set_ID_UUID_CreatedAt (v0 : Z) (v1 : string) (v2 : Z) (x : Message) : Message :=
  {| ID := v0; UUID := v1; Type_ := Type_ x; Status := Status x;
     ConversationID := ConversationID x; ConversationUUID := ConversationUUID x;
     Content := Content x; ContentType := ContentType x; SenderID := SenderID x;
     SenderType := SenderType x; Private := Private x; SourceID := SourceID x;
     InboxID := InboxID x; Meta := Meta x; Subject := Subject x;
     References := References x; InReplyTo := InReplyTo x; From_ := From_ x;
     To := To x; CreatedAt := v2; Media := Media x; Attachments := Attachments x |}.
Definition set_From_ (v0 : string) (x : Message) : Message :=
  {| ID := ID x; UUID := UUID x; Type_ := Type_ x; Status := Status x;
     ConversationID := ConversationID x; ConversationUUID := ConversationUUID x;
     Content := Content x; ContentType := ContentType x; SenderID := SenderID x;
     SenderType := SenderType x; Private := Private x; SourceID := SourceID x;
     InboxID := InboxID x; Meta := Meta x; Subject := Subject x;
     References := References x; InReplyTo := InReplyTo x; From_ := v0; To := To x;
     CreatedAt := CreatedAt x; Media := Media x; Attachments := Attachments x |}.
Definition set_To (v0 : list string) (x : Message) : Message :=
  {| ID := ID x; UUID := UUID x; Type_ := Type_ x; Status := Status x;
     ConversationID := ConversationID x; ConversationUUID := ConversationUUID x;
     Content := Content x; ContentType := ContentType x; SenderID := SenderID x;
     SenderType := SenderType x; Private := Private x; SourceID := SourceID x;
     InboxID := InboxID x; Meta := Meta x; Subject := Subject x;
     References := References x; InReplyTo := InReplyTo x; From_ := From_ x; To := v0;
     CreatedAt := CreatedAt x; Media := Media x; Attachments := Attachments x |}.
Definition set_InReplyTo (v0 : string) (x : Message) : Message :=
  {| ID := ID x; UUID := UUID x; Type_ := Type_ x; Status := Status x;
     ConversationID := ConversationID x; ConversationUUID := ConversationUUID x;
     Content := Content x; ContentType := ContentType x; SenderID := SenderID x;
     SenderType := SenderType x; Private := Private x; SourceID := SourceID x;
     InboxID := InboxID x; Meta := Meta x; Subject := Subject x;
     References := References x; InReplyTo := v0; From_ := From_ x; To := To x;
     CreatedAt := CreatedAt x; Media := Media x; Attachments := Attachments x |}.
Definition set_Attachments (v0 : list Attachment) (x : Message) : Message :=
  {| ID := ID x; UUID := UUID x; Type_ := Type_ x; Status := Status x;
     ConversationID := ConversationID x; ConversationUUID := ConversationUUID x;
     Content := Content x; ContentType := ContentType x; SenderID := SenderID x;
     SenderType := SenderType x; Private := Private x; SourceID := SourceID x;
     InboxID := InboxID x; Meta := Meta x; Subject := Subject x;
     References := References x; InReplyTo := InReplyTo x; From_ := From_ x;
     To := To x; CreatedAt := CreatedAt x; Media := Media x; Attachments := v0 |}.

Record Contact : Type := { Email : string; FirstName : string }.

(** [models.IncomingMessage] *)
Record IncomingMessage : Type := {
  im_Message : Message;
  im_Contact : Contact;
  im_InboxID : Z
}.

(** The capability interface of a channel: [Channel], [FromAddress], [Send]. *)
Record Inbox : Type := {
  Channel : string;
  FromAddress : string;
  Send : Message -> option error
}.

(** A row of the conversation table; the summary kept in its meta is
    spelled out. *)
Record Conversation : Type := {
  CID : Z;
  CUUID : string;
  ContactID : Z;
  CInboxID : Z;
  CSubject : string;
  LastMessage : string;
  LastMessageAt : Z;
  FirstReplyAt : option Z
}.

(** The meta of a new conversation: the map that
    [findOrCreateConversation] marshals. *)
Record ConversationMeta : Type := {
  subject : string;
  last_message : string;
  last_message_at : Z
}.

Record DB : Type := {
  messages : list Message;
  conversations : list Conversation;
  participants : list (Z * string)
}.

(** What the hub is handed, with the conversation whose subscribers get it. *)
Inductive WsEvent : Type :=
  | WsNewMessage (content messageUUID : string) (createdAt : Z)
      (typ : string) (private : bool)
  | WsMessagePropUpdate (messageUUID prop value : string).

(** The manager.  [outbox] is the state of the channels: the messages
    handed to [Send], oldest first. *)
Record Manager : Type := {
  db : DB;
  outgoingProcessingMessages : gmap Z Z;
  outgoingMessageQueue : Chan.t Message;
  incomingMessageQueue : Chan.t IncomingMessage;
  closed : bool;
  automation : Automation.Engine;
  wsHub : list (string * WsEvent);
  outbox : list Message
}.

Definition set_db (v0 : DB) (x : Manager) : Manager :=
  {| db := v0; outgoingProcessingMessages := outgoingProcessingMessages x;
     outgoingMessageQueue := outgoingMessageQueue x;
     incomingMessageQueue := incomingMessageQueue x; closed := closed x;
     automation := automation x; wsHub := wsHub x; outbox := outbox x |}.
Definition set_outgoingProcessingMessages (v0 : gmap Z Z) (x : Manager) : Manager :=
  {| db := db x; outgoingProcessingMessages := v0;
     outgoingMessageQueue := outgoingMessageQueue x;
     incomingMessageQueue := incomingMessageQueue x; closed := closed x;
     automation := automation x; wsHub := wsHub x; outbox := outbox x |}.
Definition set_outgoingMessageQueue (v0 : Chan.t Message) (x : Manager) : Manager :=
  {| db := db x; outgoingProcessingMessages := outgoingProcessingMessages x;
     outgoingMessageQueue := v0; incomingMessageQueue := incomingMessageQueue x;
     closed := closed x; automation := automation x; wsHub := wsHub x;
     outbox := outbox x |}.
Definition set_incomingMessageQueue (v0 : Chan.t IncomingMessage) (x : Manager) : Manager :=
  {| db := db x; outgoingProcessingMessages := outgoingProcessingMessages x;
     outgoingMessageQueue := outgoingMessageQueue x; incomingMessageQueue := v0;
     closed := closed x; automation := automation x; wsHub := wsHub x;
     outbox := outbox x |}.
Definition set_closed (v0 : bool) (x : Manager) : Manager :=
  {| db := db x; outgoingProcessingMessages := outgoingProcessingMessages x;
     outgoingMessageQueue := outgoingMessageQueue x;
     incomingMessageQueue := incomingMessageQueue x; closed := v0;
     automation := automation x; wsHub := wsHub x; outbox := outbox x |}.
Definition set_automation (v0 : Automation.Engine) (x : Manager) : Manager :=
  {| db := db x; outgoingProcessingMessages := outgoingProcessingMessages x;
     outgoingMessageQueue := outgoingMessageQueue x;
     incomingMessageQueue := incomingMessageQueue x; closed := closed x;
     automation := v0; wsHub := wsHub x; outbox := outbox x |}.
Definition set_wsHub (v0 : list (string * WsEvent)) (x : Manager) : Manager :=
  {| db := db x; outgoingProcessingMessages := outgoingProcessingMessages x;
     outgoingMessageQueue := outgoingMessageQueue x;
     incomingMessageQueue := incomingMessageQueue x; closed := closed x;
     automation := automation x; wsHub := v0; outbox := outbox x |}.
Definition set_outbox (v0 : list Message) (x : Manager) : Manager :=
  {| db := db x; outgoingProcessingMessages := outgoingProcessingMessages x;
     outgoingMessageQueue := outgoingMessageQueue x;
     incomingMessageQueue := incomingMessageQueue x; closed := closed x;
     automation := automation x; wsHub := wsHub x; outbox := v0 |}.


(** The collaborators of the manager and the environment of one run:
    the clock, the failures of the database (by statement name and string
    arguments), and the stores the manager only calls. *)
Record Env : Type := {
  now : Z;                                   (* time.Now() *)
  db_now : Z;                                (* the created_at of a new row *)
  stmt_fails : string -> list string -> bool;
  new_uuid : string -> Z -> string;          (* the database's uuid of a new row *)
  contactStore_Upsert : Contact -> Z * option error;
  inboxStore_Get : Z -> Inbox * option error;
  template_RenderDefault : string -> string * option error;
  mediaStore_GetByModel : Z -> list MediaRow * option error;
  mediaStore_GetBlob : string -> string * option error;
  mediaStore_UploadAndInsert : Attachment -> Z -> option error;
  stringutil_Sanitize : string -> string;
  attachment_MakeHeader : string -> string -> string -> string -> string -> string;
  GetToAddress : Z -> string -> list string;
  GetLatestReceivedMessageSourceID : Z -> string;
  q_GetMessages : string                     (* the text of the get-messages query *)
}.

Definition with_messages (l : list Message) (d : DB) : DB :=
  {| messages := l; conversations := conversations d; participants := participants d |}.
Definition with_conversations (l : list Conversation) (d : DB) : DB :=
  {| messages := messages d; conversations := l; participants := participants d |}.
Definition with_participants (l : list (Z * string)) (d : DB) : DB :=
  {| messages := messages d; conversations := conversations d; participants := l |}.

(** The result of a call that may end in a run-time panic. *)
Inductive Outcome (A : Type) : Type :=
  | Returns (a : A)
  | Panics.
Arguments Returns {A} a.
Arguments Panics {A}.

(** *** The prepared statements of queries.sql and the store operations
    whose code is not part of the sources *)

Definition source_matches (ids : list string) (r : Message) : bool :=
  Valid (SourceID r) && bool_decide (String_ (SourceID r) ∈ ids).

(** Modelled from the spec: [message-exists-by-source-id] is not part of
    the sources; it "looks up an existing conversation by the message's
    source-id/reference-ids": the conversation of the first stored message
    whose source id is one of the given ids. *)
Definition MessageExistsBySourceID (ids : list string) (d : DB) : option Z :=
  ConversationID <$> List.find (source_matches ids) (messages d).

(** Modelled from the spec: [get-pending-messages] is not part of the
    sources; the scanner "queries storage for messages in pending status,
    excluding ids currently in the in-flight set"
    (fetch-pending-outgoing-messages). *)
Definition GetPendingMessages (excluded : list Z) (d : DB) : list Message :=
  filter (fun r => Status r = MessageStatusPending /\ Type_ r = MessageOutgoing
                   /\ ID r ∉ excluded) (messages d).

(** Modelled from the spec: [update-message-status] sets the status of
    the message with the given uuid. *)
Definition ExecUpdateMessageStatus (status uuid : string) (d : DB) : DB :=
  with_messages
    (map (fun r => if bool_decide (UUID r = uuid) then set_Status status r else r)
       (messages d)) d.

Definition next_message_id (d : DB) : Z :=
  1 + foldr (fun r acc => Z.max (ID r) acc) 0 (messages d).

Definition next_conversation_id (d : DB) : Z :=
  1 + foldr (fun c acc => Z.max (CID c) acc) 0 (conversations d).

(** The columns that [insert-message] is given, with the id, uuid and
    creation time the statement returns. *)
Definition row_of (message : Message) : Message :=
  {| ID := ID message; UUID := UUID message; Type_ := Type_ message;
     Status := Status message; ConversationID := ConversationID message;
     ConversationUUID := ConversationUUID message; Content := Content message;
     ContentType := ContentType message; SenderID := SenderID message;
     SenderType := SenderType message; Private := Private message;
     SourceID := SourceID message; InboxID := InboxID message; Meta := Meta message;
     Subject := ""; References := []; InReplyTo := ""; From_ := ""; To := [];
     CreatedAt := CreatedAt message; Media := []; Attachments := [] |}.

(** Modelled from the spec: stringutil is not part of the sources; the
    summary is the "truncated content", "truncated to at most 45
    characters": the sanitized text cut to its first [maxLen] characters. *)
Definition SanitizeAndTruncate (env : Env) (content : string) (maxLen : nat) : string :=
  String.substring 0 maxLen (stringutil_Sanitize env content).

Definition set_last_message (id : Z) (uuid lastMessage : string) (at_ : Z)
    (c : Conversation) : Conversation :=
  if (if (0 <? id)%Z then bool_decide (CID c = id) else bool_decide (CUUID c = uuid))
  then {| CID := CID c; CUUID := CUUID c; ContactID := ContactID c;
          CInboxID := CInboxID c; CSubject := CSubject c;
          LastMessage := lastMessage; LastMessageAt := at_;
          FirstReplyAt := FirstReplyAt c |}
  else c.

(** Modelled from the spec: [UpdateConversationLastMessage] is not part
    of the sources (update-last-message-summary): it sets the summary of
    the conversation with the given id, or with the given uuid when the id
    is 0. *)
Definition UpdateConversationLastMessage (conversationID : Z)
    (conversationUUID lastMessage : string) (lastMessageAt : Z) (m : Manager) : Manager :=
  set_db (with_conversations
            (map (set_last_message conversationID conversationUUID lastMessage lastMessageAt)
               (conversations (db m))) (db m)) m.

Definition stamp_first_reply (id : Z) (at_ : Z) (c : Conversation) : Conversation :=
  if bool_decide (CID c = id)
  then {| CID := CID c; CUUID := CUUID c; ContactID := ContactID c;
          CInboxID := CInboxID c; CSubject := CSubject c;
          LastMessage := LastMessage c; LastMessageAt := LastMessageAt c;
          FirstReplyAt := match FirstReplyAt c with
                          | None => Some at_
                          | Some t => Some t
                          end |}
  else c.

(** Modelled from the spec: [UpdateConversationFirstReplyAt] is not part
    of the sources (update-first-reply-timestamp): "only the first time for
    a conversation" it stamps the first-reply timestamp. *)
Definition UpdateConversationFirstReplyAt (conversationUUID : string)
    (conversationID : Z) (at_ : Z) (m : Manager) : Manager :=
  set_db (with_conversations
            (map (stamp_first_reply conversationID at_) (conversations (db m))) (db m)) m.

(** Modelled from the spec: [AddConversationParticipant] is not part of
    the sources; it records the sender as a participant of the
    conversation and fails when the statement fails. *)
Definition AddConversationParticipant (env : Env) (userID : Z)
    (conversationUUID : string) (m : Manager) : option error * Manager :=
  if stmt_fails env "insert-conversation-participant" [conversationUUID]
  then (Some (ErrDep "insert-conversation-participant"), m)
  else (None,
        set_db (with_participants (participants (db m) ++ [(userID, conversationUUID)])
                  (db m)) m).

(** Modelled from the spec: [CreateConversation] is not part of the
    sources; it "creates a new conversation, seeding its summary metadata
    (subject, truncated last-message, timestamp)" and returns its id and
    uuid. *)
Definition CreateConversation (env : Env) (contactID inboxID : Z)
    (meta : ConversationMeta) (m : Manager) : Z * string * option error * Manager :=
  if stmt_fails env "insert-conversation" []
  then (0, "", Some (ErrDep "insert-conversation"), m)
  else
    let id := next_conversation_id (db m) in
    let uuid := new_uuid env "conversations" id in
    (id, uuid, None,
     set_db (with_conversations
               (conversations (db m) ++
                [ {| CID := id; CUUID := uuid; ContactID := contactID;
                     CInboxID := inboxID; CSubject := subject meta;
                     LastMessage := last_message meta;
                     LastMessageAt := last_message_at meta;
                     FirstReplyAt := None |} ]) (db m)) m).

(** Modelled from the spec: [GetConversationUUID] is not part of the
    sources; it returns the uuid of the conversation with the given id. *)
Definition GetConversationUUID (env : Env) (id : Z) (m : Manager)
  : string * option error :=
  if stmt_fails env "get-conversation-uuid" []
  then ("", Some (ErrDep "get-conversation-uuid"))
  else
    match List.find (fun c => bool_decide (CID c = id)) (conversations (db m)) with
    | Some c => (CUUID c, None)
    | None => ("", Some (ErrNew "conversation not found"))
    end.

(** *** ws.go *)

Definition broadcastToConversation (conversationUUID : string) (message : WsEvent)
    (m : Manager) : Manager :=
  set_wsHub (wsHub m ++ [(conversationUUID, message)]) m.

Definition BroadcastNewConversationMessage (conversationUUID content messageUUID : string)
    (lastMessageAt : Z) (typ : string) (private : bool) (m : Manager) : Manager :=
  broadcastToConversation conversationUUID
    (WsNewMessage content messageUUID lastMessageAt typ private) m.

Definition BroadcastMessagePropUpdate (conversationUUID messageUUID prop value : string)
    (m : Manager) : Manager :=
  broadcastToConversation conversationUUID (WsMessagePropUpdate messageUUID prop value) m.

(** *** message.go *)

(** [getConversationUUIDFromMessageUUID] *)
Definition getConversationUUIDFromMessageUUID (env : Env) (uuid : string) (m : Manager)
  : string * option error :=
  if stmt_fails env "get-conversation-uuid-from-message-uuid" [uuid]
  then ("", Some (ErrDep "get-conversation-uuid-from-message-uuid"))
  else
    match List.find (fun r => bool_decide (UUID r = uuid)) (messages (db m)) with
    | Some r => (ConversationUUID r, None)
    | None => ("", Some (ErrDep "no rows in result set"))
    end.

(** [UpdateMessageStatus] *)
Definition UpdateMessageStatus (env : Env) (uuid status : string) (m : Manager)
  : option error * Manager :=
  if stmt_fails env "update-message-status" [uuid]
  then (Some (ErrDep "update-message-status"), m)
  else
    let m1 := set_db (ExecUpdateMessageStatus status uuid (db m)) m in
    let conversationUUID := (getConversationUUIDFromMessageUUID env uuid m1).1 in
    (None, BroadcastMessagePropUpdate conversationUUID uuid "status" status m1).

(** [MarkMessageAsPending] *)
Definition MarkMessageAsPending (env : Env) (uuid : string) (m : Manager)
  : option error * Manager :=
  match UpdateMessageStatus env uuid MessageStatusPending m with
  | (Some _, m1) => (Some (ErrNew "Error retrying message"), m1)
  | (None, m1) => (None, m1)
  end.

(** [RenderContentInTemplate].  The message is a value parameter: the
    assignment to [message.Content] changes the callee's copy, which is
    dropped on return; the caller gets the error only. *)
Definition RenderContentInTemplate (env : Env) (inb : Inbox) (message : Message)
    (m : Manager) : option error * Manager :=
  let channel := Channel inb in
  if bool_decide (channel = ChannelEmail) then
    let '(content, err) := template_RenderDefault env (Content message) in
    let message := set_Content content message in
    match err with
    | Some _ =>
        (Some (ErrNew "could not render email content using template"),
         (UpdateMessageStatus env (UUID message) MessageStatusFailed m).2)
    | None => (None, m)
    end
  else
    (Some (ErrNew "unknown message channel"),
     (UpdateMessageStatus env (UUID message) MessageStatusFailed m).2).

(** [getOutgoingProcessingMessageIDs] *)
Definition getOutgoingProcessingMessageIDs (m : Manager) : list Z :=
  (map_to_list (outgoingProcessingMessages m)).*1.

(** The outcome of the scanner's loop over the pending messages: it ran
    to the end, or it is suspended in [m.outgoingMessageQueue <- message]
    with the messages it has not reached yet, or it panicked on a closed
    queue. *)
Inductive ScanOutcome : Type :=
  | ScanDone (m : Manager)
  | ScanBlocked (m : Manager) (message : Message) (rest : list Message)
  | ScanPanic (m : Manager).

(** The loop body of the scanner in [ListenAndDispatchMessages]. *)
Fixpoint push_pending (env : Env) (pendingMessages : list Message) (m : Manager)
  : ScanOutcome :=
  match pendingMessages with
  | [] => ScanDone m
  | message :: rest =>
      match inboxStore_Get env (InboxID message) with
      | (_, Some _) => push_pending env rest m                      (* continue *)
      | (inb, None) =>
          match RenderContentInTemplate env inb message m with
          | (Some _, m1) => push_pending env rest m1                (* continue *)
          | (None, m1) =>
              let m2 := set_outgoingProcessingMessages
                          (<[ID message := ID message]> (outgoingProcessingMessages m1)) m1 in
              match Chan.send message (outgoingMessageQueue m2) with
              | Chan.Sent c => push_pending env rest (set_outgoingMessageQueue c m2)
              | Chan.WouldBlock => ScanBlocked m2 message rest
              | Chan.SendOnClosed => ScanPanic m2
              end
          end
      end
  end.

(** One tick of the scanner. *)
Definition ListenAndDispatchMessages_tick (env : Env) (m : Manager) : ScanOutcome :=
  let messageIDs := getOutgoingProcessingMessageIDs m in
  if stmt_fails env "get-pending-messages" []
  then ScanDone m                                                    (* continue *)
  else push_pending env (GetPendingMessages messageIDs (db m)) m.

(** The suspended send is tried again once the state has moved on. *)
Definition resume_scan (env : Env) (o : ScanOutcome) : ScanOutcome :=
  match o with
  | ScanBlocked m message rest =>
      match Chan.send message (outgoingMessageQueue m) with
      | Chan.Sent c => push_pending env rest (set_outgoingMessageQueue c m)
      | Chan.WouldBlock => ScanBlocked m message rest
      | Chan.SendOnClosed => ScanPanic m
      end
  | _ => o
  end.

(** The loop of [attachAttachmentsToMessage] over the media rows. *)
Fixpoint fetch_blobs (env : Env) (medias : list MediaRow) (attachments : list Attachment)
  : list Attachment * option error :=
  match medias with
  | [] => (attachments, None)
  | media :: rest =>
      match mediaStore_GetBlob env (MUUID media) with
      | (_, Some e) => (attachments, Some e)
      | (blob, None) =>
          fetch_blobs env rest
            (attachments ++
             [ {| AName := Filename media; AContent := blob;
                  AHeader := attachment_MakeHeader env (MContentType media) (MUUID media)
                               (Filename media) "base64" (Disposition media) |} ])
      end
  end.

(** [attachAttachmentsToMessage] *)
Definition attachAttachmentsToMessage (env : Env) (message : Message)
  : option error * Message :=
  match mediaStore_GetByModel env (ID message) with
  | (_, Some e) => (Some e, message)
  | (medias, None) =>
      match fetch_blobs env medias [] with
      | (_, Some e) => (Some e, message)
      | (attachments, None) => (None, set_Attachments attachments message)
      end
  end.

(** "Get from, to addresses and inReplyTo" of [MessageDispatchWorker]. *)
Definition set_addresses (env : Env) (inbox : Inbox) (message : Message) : Message :=
  let message := set_From_ (FromAddress inbox) message in
  let message :=
    set_To (GetToAddress env (ConversationID message) (Channel inbox)) message in
  set_InReplyTo (GetLatestReceivedMessageSourceID env (ConversationID message)) message.

Definition delete_processing (id : Z) (m : Manager) : Manager :=
  set_outgoingProcessingMessages (delete id (outgoingProcessingMessages m)) m.

(** The body of the loop of [MessageDispatchWorker] for one message
    taken from the queue. *)
Definition dispatch (env : Env) (message : Message) (m : Manager) : Manager :=
  match inboxStore_Get env (InboxID message) with
  | (_, Some _) =>
      let m1 := delete_processing (ID message) m in
      (UpdateMessageStatus env (UUID message) MessageStatusFailed m1).2
  | (inbox, None) =>
      match attachAttachmentsToMessage env message with
      | (Some _, message) =>
          let m1 := delete_processing (ID message) m in
          (UpdateMessageStatus env (UUID message) MessageStatusFailed m1).2
      | (None, message) =>
          let message := set_addresses env inbox message in
          let err := Send inbox message in
          let m1 := set_outbox (outbox m ++ [message]) m in
          let newStatus :=
            match err with
            | Some _ => MessageStatusFailed
            | None => MessageStatusSent
            end in
          let m2 := (UpdateMessageStatus env (UUID message) newStatus m1).2 in
          let m3 :=
            if bool_decide (newStatus = MessageStatusSent)
            then UpdateConversationFirstReplyAt (ConversationUUID message)
                   (ConversationID message) (CreatedAt message) m2
            else m2 in
          delete_processing (ID message) m3
      end
  end.

(** One turn of [MessageDispatchWorker]: [None] when nothing is queued
    (the worker waits, or returns if the queue is closed). *)
Definition MessageDispatchWorker (env : Env) (m : Manager) : option Manager :=
  match Chan.recv (outgoingMessageQueue m) with
  | None => None
  | Some (message, c) => Some (dispatch env message (set_outgoingMessageQueue c m))
  end.

(** [InsertMessage].  The message is passed by pointer: the updated
    message is returned with the error. *)
Definition InsertMessage (env : Env) (message : Message) (m : Manager)
  : option error * Message * Manager :=
  (* Private message is always sent. *)
  let message := if Private message then set_Status MessageStatusSent message
                 else message in
  let message := if bool_decide (Meta message = "") then set_Meta "{}" message
                 else message in
  if stmt_fails env "insert-message" [ConversationUUID message]
  then (Some (ErrNew "Error sending message"), message, m)
  else
    let id := next_message_id (db m) in
    let message :=
      set_ID_UUID_CreatedAt id (new_uuid env "messages" id) (db_now env) message in
    let m1 := set_db (with_messages (messages (db m) ++ [row_of message]) (db m)) m in
    (* the media store is told of each media of the message; it is not modelled *)
    match AddConversationParticipant env (SenderID message) (ConversationUUID message) m1 with
    | (Some _, m2) => (Some (ErrNew "Error sending message"), message, m2)
    | (None, m2) =>
        let trimmedMessage := SanitizeAndTruncate env (Content message) 45 in
        let m3 := UpdateConversationLastMessage 0 (ConversationUUID message)
                    trimmedMessage (CreatedAt message) m2 in
        let m4 := BroadcastNewConversationMessage (ConversationUUID message)
                    trimmedMessage (UUID message) (CreatedAt message)
                    (Type_ message) (Private message) m3 in
        (None, message, m4)
    end.

(** [findConversationID] *)
Definition findConversationID (env : Env) (messageSourceIDs : list string) (m : Manager)
  : Z * option error :=
  match messageSourceIDs with
  | [] => (0, Some ErrConversationNotFound)
  | _ =>
      if stmt_fails env "message-exists-by-source-id" messageSourceIDs
      then (0, Some (ErrDep "message-exists-by-source-id"))
      else
        match MessageExistsBySourceID messageSourceIDs (db m) with
        | Some conversationID => (conversationID, None)
        | None => (0, Some ErrConversationNotFound)
        end
  end.

(** [MessageExists] *)
Definition MessageExists (env : Env) (messageID : string) (m : Manager)
  : bool * option error :=
  match (findConversationID env [messageID] m).2 with
  | None => (true, None)
  | Some ErrConversationNotFound => (false, None)
  | Some e => (false, Some e)
  end.

(** The ids [findOrCreateConversation] searches with. *)
Definition thread_ids (in_ : Message) : list string :=
  if bool_decide (InReplyTo in_ = "") then References in_
  else References in_ ++ [InReplyTo in_].

(** [findOrCreateConversation]; marshalling a map of strings to JSON
    does not fail. *)
Definition findOrCreateConversation (env : Env) (in_ : Message) (inboxID contactID : Z)
    (m : Manager) : bool * option error * Message * Manager :=
  let sourceIDs := thread_ids in_ in
  let '(conversationID, err) := findConversationID env sourceIDs m in
  if fatal err then (false, err, in_, m)
  else if (conversationID =? 0)%Z then
    (* Conversation not found, create one. *)
    let conversationMeta :=
      {| subject := Subject in_;
         last_message := SanitizeAndTruncate env (Content in_) maxLastMessageLen;
         last_message_at := now env |} in
    let '(conversationID, conversationUUID, err, m1) :=
      CreateConversation env contactID inboxID conversationMeta m in
    if bool_decide (err <> None) || (conversationID =? 0)%Z
    then (true, err, in_, m1)
    else (true, None,
          set_ConversationID_ConversationUUID conversationID conversationUUID in_, m1)
  else
    let '(conversationUUID, err) := GetConversationUUID env conversationID m in
    match err with
    | Some e => (false, Some e, in_, m)
    | None =>
        (false, None,
         set_ConversationID_ConversationUUID conversationID conversationUUID in_, m)
    end.

(** [uploadMessageAttachments]: every attachment is handed to the media
    store, a failure skips to the next one. *)
Definition uploadMessageAttachments (env : Env) (message : Message) : option error :=
  let _ := map (fun a => mediaStore_UploadAndInsert env a (ID message))
             (Attachments message) in
  None.

(** [processIncomingMessage] *)
Definition processIncomingMessage (env : Env) (in_ : IncomingMessage) (m : Manager)
  : option error * Manager :=
  (* Find or create contact. *)
  let '(senderID, err) := contactStore_Upsert env (im_Contact in_) in
  let message := set_SenderID senderID (im_Message in_) in
  match err with
  | Some e => (Some e, m)
  | None =>
      (* This message already exists? *)
      let '(conversationID, err) :=
        findConversationID env [String_ (SourceID message)] m in
      if fatal err then (err, m)
      else if (0 <? conversationID)%Z then (None, m)
      else
        (* Find or create new conversation. *)
        let '(isNewConversation, err, message, m1) :=
          findOrCreateConversation env message (im_InboxID in_) (SenderID message) m in
        match err with
        | Some e => (Some e, m1)
        | None =>
            match InsertMessage env message m1 with
            | (Some e, _, m2) => (Some e, m2)
            | (None, message, m2) =>
                match uploadMessageAttachments env message with
                | Some e => (Some e, m2)
                | None =>
                    if isNewConversation
                    then (None,
                          set_automation
                            (Automation.EvaluateNewConversationRules
                               (ConversationUUID message) (automation m2)) m2)
                    else (None, m2)
                end
            end
        end
  end.

(** [EnqueueIncoming] *)
Definition EnqueueIncoming (message : IncomingMessage) (m : Manager)
  : Outcome (option error * Manager) :=
  if closed m then Returns (Some (ErrNew "incoming message queue is closed"), m)
  else
    match Chan.send message (incomingMessageQueue m) with
    | Chan.Sent c => Returns (None, set_incomingMessageQueue c m)
    | Chan.WouldBlock => Returns (Some (ErrNew "incoming message queue is full"), m)
    | Chan.SendOnClosed => Panics
    end.

(** [Close]: closing a closed channel panics; the wait for the workers
    is not modelled. *)
Definition Close (m : Manager) : Outcome Manager :=
  if Chan.closed (outgoingMessageQueue m) || Chan.closed (incomingMessageQueue m)
  then Panics
  else Returns
         (set_incomingMessageQueue (Chan.close (incomingMessageQueue m))
            (set_outgoingMessageQueue (Chan.close (outgoingMessageQueue m))
               (set_closed true m))).

(** One turn of [IncomingMessageWorker]. *)
Definition IncomingMessageWorker (env : Env) (m : Manager) : option Manager :=
  match Chan.recv (incomingMessageQueue m) with
  | None => None
  | Some (msg, c) =>
      Some (processIncomingMessage env msg (set_incomingMessageQueue c m)).2
  end.

(** An argument of a query ([interface{}]). *)
Inductive Arg : Type :=
  | ArgString (s : string)
  | ArgInt (z : Z).

(** [fmt.Sprintf] of a format and one string. *)
Fixpoint Sprintf1 (format arg : string) : string :=
  match format with
  | EmptyString => EmptyString
  | String c rest =>
      match rest with
      | String c' rest' =>
          if bool_decide (c = "%"%char) && bool_decide (c' = "s"%char)
          then arg ++ rest'
          else String c (Sprintf1 rest arg)
      | EmptyString => String c EmptyString
      end
  end.

(** [generateMessagesQuery] *)
Definition generateMessagesQuery (baseQuery : string) (qArgs : list Arg) (page pageSize : Z)
  : string * list Arg * option error :=
  (* Set default values for page and page size if they are invalid *)
  let page := if (page <=? 0)%Z then 1 else page in
  let pageSize := if (pageSize <=? 0)%Z || (maxMessagesPerPage <? pageSize)%Z
                  then maxMessagesPerPage else pageSize in
  (* Calculate the offset *)
  let offset := GoInt.mul (GoInt.sub page 1) pageSize in
  (* Append LIMIT and OFFSET to query arguments *)
  let qArgs := qArgs ++ [ArgInt pageSize; ArgInt offset] in
  let sqlQuery :=
    Sprintf1 baseQuery
      ("LIMIT $" ++ pretty (length qArgs - 1)%nat ++ " OFFSET $" ++ pretty (length qArgs)) in
  (sqlQuery, qArgs, None).

(** Modelled from the spec: [get-messages] is not part of the sources;
    it returns the messages of the conversation given as first argument,
    cut by the LIMIT and OFFSET given as second and third; the database
    rejects a negative OFFSET. *)
Definition SelectMessages (qArgs : list Arg) (d : DB) : list Message * option error :=
  match qArgs with
  | [ArgString conversationUUID; ArgInt limit; ArgInt offset] =>
      if (offset <? 0)%Z then ([], Some (ErrDep "OFFSET must not be negative"))
      else
        (take (Z.to_nat limit)
           (drop (Z.to_nat offset)
              (filter (fun r => ConversationUUID r = conversationUUID) (messages d))),
         None)
  | _ => ([], Some (ErrDep "bind message"))
  end.

(** [GetConversationMessages].  When [BeginTxx] fails the transaction is
    nil, and the [defer tx.Rollback()] that precedes the test of the error
    dereferences it: the call panics. *)
Definition GetConversationMessages (env : Env) (conversationUUID : string)
    (page pageSize : Z) (m : Manager) : Outcome (list Message * option error) :=
  let qArgs := [ArgString conversationUUID] in
  let '(query, qArgs, err) := generateMessagesQuery (q_GetMessages env) qArgs page pageSize in
  match err with
  | Some _ => Returns ([], Some (ErrNew "Error fetching messages"))
  | None =>
      if stmt_fails env "begin" []
      then Panics
      else
        match SelectMessages qArgs (db m) with
        | (_, Some _) => Returns ([], Some (ErrNew "Error fetching messages"))
        | (messages, None) => Returns (messages, None)
        end
  end.

(** *** Activities *)

Definition ActivityStatusChange := "status_change".
Definition ActivityPriorityChange := "priority_change".
Definition ActivityAssignedUserChange := "assigned_user_change".
Definition ActivityAssignedTeamChange := "assigned_team_change".
Definition ActivitySelfAssign := "self_assign".
Definition ActivityTagChange := "tag_change".

(** [umodels.User] and a team, as far as the activity code reads them. *)
Record User : Type := { UserID : Z; UserFirstName : string; UserLastName : string }.
Record Team : Type := { TeamName : string }.

(** The stores the activity code calls, and [User.FullName], whose code
    is not part of the sources. *)
Record Stores : Type := {
  FullName : User -> string;
  userStore_Get : Z -> User * option error;
  teamStore_GetTeam : Z -> Team * option error
}.

(** [getMessageActivityContent] *)
Definition getMessageActivityContent (activityType newValue actorName : string)
  : string * option error :=
  if bool_decide (activityType = ActivityAssignedUserChange)
  then (("Assigned to " ++ newValue ++ " by " ++ actorName)%string, None)
  else if bool_decide (activityType = ActivityAssignedTeamChange)
  then (("Assigned to " ++ newValue ++ " team by " ++ actorName)%string, None)
  else if bool_decide (activityType = ActivitySelfAssign)
  then ((actorName ++ " self-assigned this conversation")%string, None)
  else if bool_decide (activityType = ActivityPriorityChange)
  then ((actorName ++ " changed priority to " ++ newValue)%string, None)
  else if bool_decide (activityType = ActivityStatusChange)
  then ((actorName ++ " marked the conversation as " ++ newValue)%string, None)
  else if bool_decide (activityType = ActivityTagChange)
  then ((actorName ++ " added tags " ++ newValue)%string, None)
  else ("", Some (ErrNew ("invalid activity type " ++ activityType)%string)).

(** The message literal of [InsertConversationActivity]; the fields it
    does not name have their zero value. *)
Definition activity_message (content conversationUUID : string) (actorID : Z) : Message :=
  {| ID := 0; UUID := ""; Type_ := MessageActivity; Status := MessageStatusSent;
     ConversationID := 0; ConversationUUID := conversationUUID; Content := content;
     ContentType := ContentTypeText; SenderID := actorID; SenderType := SenderTypeUser;
     Private := true; SourceID := {| String_ := ""; Valid := false |}; InboxID := 0;
     Meta := ""; Subject := ""; References := []; InReplyTo := ""; From_ := ""; To := [];
     CreatedAt := 0; Media := []; Attachments := [] |}.

(** [InsertConversationActivity]; the result of [InsertMessage] is
    dropped. *)
Definition InsertConversationActivity (env : Env) (st : Stores)
    (activityType conversationUUID newValue : string) (actor : User) (m : Manager)
  : option error * Manager :=
  let '(content, err) := getMessageActivityContent activityType newValue (FullName st actor) in
  match err with
  | Some e => (Some e, m)
  | None =>
      let message := activity_message content conversationUUID (UserID actor) in
      (None, (InsertMessage env message m).2)
  end.

(** [RecordAssigneeUserChange] *)
Definition RecordAssigneeUserChange (env : Env) (st : Stores) (conversationUUID : string)
    (assigneeID : Z) (actor : User) (m : Manager) : option error * Manager :=
  (* Self assign. *)
  if bool_decide (assigneeID = UserID actor)
  then InsertConversationActivity env st ActivitySelfAssign conversationUUID
         (FullName st actor) actor m
  else
    (* Assignment to another user. *)
    match userStore_Get st assigneeID with
    | (_, Some e) => (Some e, m)
    | (assignee, None) =>
        InsertConversationActivity env st ActivityAssignedUserChange conversationUUID
          (FullName st assignee) actor m
    end.

(** [RecordAssigneeTeamChange] *)
Definition RecordAssigneeTeamChange (env : Env) (st : Stores) (conversationUUID : string)
    (teamID : Z) (actor : User) (m : Manager) : option error * Manager :=
  match teamStore_GetTeam st teamID with
  | (_, Some e) => (Some e, m)
  | (team, None) =>
      InsertConversationActivity env st ActivityAssignedTeamChange conversationUUID
        (TeamName team) actor m
  end.

(** [RecordPriorityChange] *)
Definition RecordPriorityChange (env : Env) (st : Stores) (priority conversationUUID : string)
    (actor : User) (m : Manager) : option error * Manager :=
  InsertConversationActivity env st ActivityPriorityChange conversationUUID priority actor m.

(** [RecordStatusChange] *)
Definition RecordStatusChange (env : Env) (st : Stores) (status conversationUUID : string)
    (actor : User) (m : Manager) : option error * Manager :=
  InsertConversationActivity env st ActivityStatusChange conversationUUID status actor m.

(** Turns of [IncomingMessageWorker], one after the other, until the
    queue is empty. *)
Fixpoint IncomingMessageWorker_turns (n : nat) (env : Env) (m : Manager) : Manager :=
  match n with
  | O => m
  | S n' =>
      match IncomingMessageWorker env m with
      | None => m
      | Some m' => IncomingMessageWorker_turns n' env m'
      end
  end.

End Conversation.

(** ** Package automation: the run loop, the workers and shutdown *)

Module AutomationRun.
Import Automation.

(** [TaskType] *)
Inductive TaskType : Type :=
  | NewConversation                  (* "new" *)
  | UpdateConversation               (* "update" *)
  | TimeTrigger.                     (* "time-trigger" *)

(** [ConversationTask] *)
Record ConversationTask : Type := {
  taskType : TaskType;
  conversationUUID : string
}.

(** The [ConversationStore] interface, as far as the handlers call it,
    over the conversations [C] of the store. *)
Record ConversationStore (C : Type) : Type := {
  GetConversation : string -> C * option error;
  GetConversationsCreatedAfter : Z -> list C * option error
}.
Arguments GetConversation {C} c _.
Arguments GetConversationsCreatedAfter {C} c _.

(** The rule types of package models, which is not part of the sources,
    and the clock (seconds). *)
Record Consts : Type := {
  RuleTypeNewConversation : string;
  RuleTypeConversationUpdate : string;
  RuleTypeTimeTrigger : string;
  time_Now : Z
}.

Definition with_closed (b : bool) (e : Engine) : Engine :=
  {| rules := rules e; rulesMu := rulesMu e; q := q e;
     newConversationQ := newConversationQ e;
     updateConversationQ := updateConversationQ e;
     closed := b; rulesWrites := rulesWrites e |}.

(** [Close] of the engine; [None] is the panic of closing a closed
    channel.  The wait for the workers is not modelled. *)
Definition Close (e : Engine) : option Engine :=
  if closed e then Some e
  else if Chan.closed (newConversationQ e) || Chan.closed (updateConversationQ e)
  then None
  else Some (with_updateConversationQ (Chan.close (updateConversationQ e))
               (with_newConversationQ (Chan.close (newConversationQ e))
                  (with_closed true e))).

(** The case of the [select] in [Run] that is taken. *)
Inductive Ready : Type :=
  | CtxDone
  | FromNewConversationQ
  | FromUpdateConversationQ
  | Tick.

(** Where [Run] stands after one turn of its loop: still looping, back
    from the call (the deferred [close(taskQueue)] done), suspended in
    [taskQueue <- task], or the chosen case was not ready. *)
Inductive RunState : Type :=
  | Looping (e : Engine) (taskQueue : Chan.t ConversationTask)
  | Returned (e : Engine) (taskQueue : Chan.t ConversationTask)
  | Suspended (e : Engine) (taskQueue : Chan.t ConversationTask) (task : ConversationTask)
  | NotReady (e : Engine) (taskQueue : Chan.t ConversationTask)
  | RunPanics.

(** [taskQueue <- task] *)
Definition push_task (task : ConversationTask) (e : Engine)
    (taskQueue : Chan.t ConversationTask) : RunState :=
  match Chan.send task taskQueue with
  | Chan.Sent c => Looping e c
  | Chan.WouldBlock => Suspended e taskQueue task
  | Chan.SendOnClosed => RunPanics
  end.

(** One turn of the loop of [Run]. *)
Definition Run (r : Ready) (e : Engine) (taskQueue : Chan.t ConversationTask)
  : RunState :=
  match r with
  | CtxDone => Returned e (Chan.close taskQueue)
  | FromNewConversationQ =>
      match Chan.recv (newConversationQ e) with
      | Some (conversationUUID, c) =>
          push_task {| taskType := NewConversation; conversationUUID := conversationUUID |}
            (with_newConversationQ c e) taskQueue
      | None =>
          if Chan.closed (newConversationQ e)
          then Returned e (Chan.close taskQueue)                      (* !ok *)
          else NotReady e taskQueue
      end
  | FromUpdateConversationQ =>
      match Chan.recv (updateConversationQ e) with
      | Some (conversationUUID, c) =>
          push_task {| taskType := UpdateConversation; conversationUUID := conversationUUID |}
            (with_updateConversationQ c e) taskQueue
      | None =>
          if Chan.closed (updateConversationQ e)
          then Returned e (Chan.close taskQueue)
          else NotReady e taskQueue
      end
  | Tick => push_task {| taskType := TimeTrigger; conversationUUID := "" |} e taskQueue
  end.

Section Handlers.
Context {C : Type} (k : Consts) (store : ConversationStore C).

(** A call of [evalConversationRules], whose code is not part of the
    sources: the rules and the conversation it is given.  A handler is
    modelled by the calls it makes, in order; [None] when it has to wait
    for the read lock. *)
Definition Evaluation : Type := (list Rule * C)%type.

(** [handleNewConversation] *)
Definition handleNewConversation (conversationUUID : string) (e : Engine)
  : option (list Evaluation) :=
  match GetConversation store conversationUUID with
  | (_, Some _) => Some []
  | (conversation, None) =>
      match filterRulesByType (RuleTypeNewConversation k) e with
      | None => None
      | Some rules => Some [(rules, conversation)]
      end
  end.

(** [handleUpdateConversation] *)
Definition handleUpdateConversation (conversationUUID : string) (e : Engine)
  : option (list Evaluation) :=
  match GetConversation store conversationUUID with
  | (_, Some _) => Some []
  | (conversation, None) =>
      match filterRulesByType (RuleTypeConversationUpdate k) e with
      | None => None
      | Some rules => Some [(rules, conversation)]
      end
  end.

(** [handleTimeTrigger]; thirty days are 30 * 24 * 3600 seconds. *)
Definition handleTimeTrigger (e : Engine) : option (list Evaluation) :=
  let thirtyDaysAgo := time_Now k - 30 * 24 * 3600 in
  match GetConversationsCreatedAfter store thirtyDaysAgo with
  | (_, Some _) => Some []
  | (conversations, None) =>
      match filterRulesByType (RuleTypeTimeTrigger k) e with
      | None => None
      | Some rules => Some (map (fun conversation => (rules, conversation)) conversations)
      end
  end.

(** What one turn of [worker] ends in: it returns (the task queue is
    closed and drained), it waits for a task, or it has handled one. *)
Inductive WorkerTurn : Type :=
  | WorkerReturned
  | WorkerIdle
  | WorkerWaitsForLock
  | Handled (evaluations : list Evaluation) (taskQueue : Chan.t ConversationTask).

(** One turn of the loop of [worker]. *)
Definition worker (e : Engine) (taskQueue : Chan.t ConversationTask) : WorkerTurn :=
  match Chan.recv taskQueue with
  | None => if Chan.closed taskQueue then WorkerReturned else WorkerIdle
  | Some (task, c) =>
      match
        match taskType task with
        | NewConversation => handleNewConversation (conversationUUID task) e
        | UpdateConversation => handleUpdateConversation (conversationUUID task) e
        | TimeTrigger => handleTimeTrigger e
        end
      with
      | None => WorkerWaitsForLock
      | Some evaluations => Handled evaluations c
      end
  end.

End Handlers.

(** Turns of the loop of [Run], one after the other, as long as it
    keeps looping. *)
Fixpoint Run_turns (rs : list Ready) (e : Engine) (taskQueue : Chan.t ConversationTask)
  : RunState :=
  match rs with
  | [] => Looping e taskQueue
  | r :: rest =>
      match Run r e taskQueue with
      | Looping e' taskQueue' => Run_turns rest e' taskQueue'
      | other => other
      end
  end.

(** The rule type a worker filters by for a task. *)
Definition rule_type_of (k : Consts) (t : TaskType) : string :=
  match t with
  | NewConversation => RuleTypeNewConversation k
  | UpdateConversation => RuleTypeConversationUpdate k
  | TimeTrigger => RuleTypeTimeTrigger k
  end.

End AutomationRun.

(** ** The SLA badge of the frontend *)

Module Sla.

Record Result : Type := { status : string; value : string }.

(** [calculateSla (dueAt, actualAt)].  [differenceInMinutes] of date-fns
    gives the whole minutes from the compared time (the actual time when
    one is given, the current time otherwise) to the due time; the
    function is given that difference and whether [actualAt] is set.
    Template literals print the number in decimal. *)
Definition calculateSla (diffInMinutes : Z) (actualAt : bool) : Result :=
  if negb actualAt && (0 <? diffInMinutes)%Z then
    if (2880 <=? diffInMinutes)%Z
    then {| status := "remaining";
            value := (pretty (diffInMinutes / 1440) ++ " days")%string |}
    else {| status := "remaining";
            value := if (diffInMinutes <? 60)%Z
                     then (pretty diffInMinutes ++ " mins")%string
                     else (pretty (diffInMinutes / 60) ++ " hrs")%string |}
  else
    let overdueTime := Z.abs diffInMinutes in
    let status := if actualAt then "hit" else "overdue" in
    if (2880 <=? overdueTime)%Z
    then {| status := status;
            value := (pretty (overdueTime / 1440) ++ " days")%string |}
    else {| status := status;
            value := if (overdueTime <? 60)%Z
                     then (pretty overdueTime ++ " mins")%string
                     else (pretty (overdueTime / 60) ++ " hrs")%string |}.

End Sla.

(** ** Package main: the HTTP handlers of the automation rules *)

Module Strconv.

(** [strconv.Atoi] of the Go standard library (atoi.go), on a 64-bit
    [int], with [ParseUint] and [ParseInt] for base 10 and bit size 0 as
    [Atoi] calls them. *)

(** The error of a conversion, by its field [Err]: [ErrSyntax] or
    [ErrRange]. *)
Inductive Err : Type := ErrSyntax | ErrRange.

Definition maxUint64 : Z := 2 ^ 64 - 1.

(** [c - '0'] when ['0' <= c && c <= '9']. *)
Definition digit (c : ascii) : option Z :=
  let n := Z.of_nat (nat_of_ascii c) in
  if (48 <=? n)%Z && (n <=? 57)%Z then Some (n - 48) else None.

(** The loop of [ParseUint]: a byte that is not a digit is a syntax
    error with value 0; a digit that makes the number overflow is a range
    error with the largest value, returned before the rest of the string
    is looked at. *)
Fixpoint ParseUint_loop (s : string) (n : Z) : Z * option Err :=
  match s with
  | EmptyString => (n, None)
  | String c rest =>
      match digit c with
      | None => (0, Some ErrSyntax)
      | Some d =>
          if (maxUint64 / 10 + 1 <=? n)%Z
          then (maxUint64, Some ErrRange)                    (* n*base overflows *)
          else
            let n1 := n * 10 + d in
            if (maxUint64 <? n1)%Z
            then (maxUint64, Some ErrRange)                  (* n+d overflows *)
            else ParseUint_loop rest n1
      end
  end.

Definition ParseUint (s : string) : Z * option Err :=
  match s with
  | EmptyString => (0, Some ErrSyntax)
  | _ => ParseUint_loop s 0
  end.

Definition ParseInt (s : string) : Z * option Err :=
  match s with
  | EmptyString => (0, Some ErrSyntax)
  | String c rest =>
      (* Pick off leading sign. *)
      let '(neg, s1) :=
        if bool_decide (c = "+"%char) then (false, rest)
        else if bool_decide (c = "-"%char) then (true, rest)
        else (false, s) in
      (* Convert unsigned and check range. *)
      let '(un, err) := ParseUint s1 in
      match err with
      | Some ErrSyntax => (0, err)          (* err != nil && err.Err != ErrRange *)
      | _ =>
          let cutoff := 2 ^ 63 in
          if negb neg && (cutoff <=? un)%Z then (cutoff - 1, Some ErrRange)
          else if neg && (cutoff <? un)%Z then (- cutoff, Some ErrRange)
          else (if neg then - un else un, None)
      end
  end.

(** The loop of the fast path of [Atoi]. *)
Fixpoint Atoi_loop (s : string) (n : Z) : Z * option Err :=
  match s with
  | EmptyString => (n, None)
  | String ch rest =>
      match digit ch with
      | None => (0, Some ErrSyntax)
      | Some d => Atoi_loop rest (n * 10 + d)
      end
  end.

Definition Atoi (s : string) : Z * option Err :=
  let sLen := String.length s in
  if (0 <? sLen)%nat && (sLen <? 19)%nat then
    (* Fast path for small integers that fit int type. *)
    match s with
    | EmptyString => (0, Some ErrSyntax)
    | String c rest =>
        let signed := bool_decide (c = "-"%char) || bool_decide (c = "+"%char) in
        let s1 := if signed then rest else s in
        if signed && (String.length s1 <? 1)%nat then (0, Some ErrSyntax)
        else
          match Atoi_loop s1 0 with
          | (_, Some e) => (0, Some e)
          | (n, None) => (if bool_decide (c = "-"%char) then - n else n, None)
          end
    end
  else
    (* Slow path for invalid, big, or underscored integers. *)
    ParseInt s.

End Strconv.

Module Cmd.
Import Automation.

(** What the handlers read of a request: the [id] of the route, and the
    body decoded as a rule ([None] when [r.Decode] fails). *)
Record Request : Type := {
  UserValue_id : string;
  Decode : option RuleRecord
}.

Inductive ErrType : Type := InputError | GeneralError.

(** What a handler answers with. *)
Inductive Response : Type :=
  | SendEnvelope_true                                        (* r.SendEnvelope(true) *)
  | SendErrorEnvelope (status : Z) (message : string) (etype : ErrType)
  | sendErrorEnvelope (err : error).

Definition StatusBadRequest : Z := 400.

(** The answer to the outcome of an engine call; [None] while the
    engine waits for its lock. *)
Definition answer (res : option (option error * Engine)) : option (Response * Engine) :=
  match res with
  | None => None
  | Some (Some err, e) => Some (sendErrorEnvelope err, e)
  | Some (None, e) => Some (SendEnvelope_true, e)
  end.

(** [handleToggleAutomationRule]: the error of [Atoi] is dropped. *)
Definition handleToggleAutomationRule (env : Env) (r : Request) (e : Engine)
  : option (Response * Engine) :=
  let '(id, _) := Strconv.Atoi (UserValue_id r) in
  answer (ToggleRule env id e).

(** [handleUpdateAutomationRule] *)
Definition handleUpdateAutomationRule (env : Env) (r : Request) (e : Engine)
  : option (Response * Engine) :=
  let '(id, err) := Strconv.Atoi (UserValue_id r) in
  if bool_decide (err <> None) || (id =? 0)%Z
  then Some (SendErrorEnvelope StatusBadRequest "Invalid rule `id`." InputError, e)
  else
    match Decode r with
    | None => Some (SendErrorEnvelope StatusBadRequest "decode failed" InputError, e)
    | Some rule => answer (UpdateRule env id rule e)
    end.

(** [handleCreateAutomationRule] *)
Definition handleCreateAutomationRule (env : Env) (r : Request) (e : Engine)
  : option (Response * Engine) :=
  match Decode r with
  | None => Some (SendErrorEnvelope StatusBadRequest "decode failed" InputError, e)
  | Some rule => answer (CreateRule env rule e)
  end.

(** [handleDeleteAutomationRule] *)
Definition handleDeleteAutomationRule (env : Env) (r : Request) (e : Engine)
  : option (Response * Engine) :=
  let '(id, err) := Strconv.Atoi (UserValue_id r) in
  if bool_decide (err <> None) || (id =? 0)%Z
  then Some (SendErrorEnvelope StatusBadRequest "Invalid rule `id`." InputError, e)
  else answer (DeleteRule env id e).

End Cmd.

(** ** Package oidc *)

Module Oidc.

(** [models.OIDC], the fields the manager reads or writes. *)
Record OIDC : Type := {
  ID : Z;
  Name : string;
  Provider : string;
  ProviderURL : string;
  ClientID : string;
  ClientSecret : string;
  Enabled : bool;
  RedirectURI : string
}.

Definition zero : OIDC :=
  {| ID := 0; Name := ""; Provider := ""; ProviderURL := ""; ClientID := "";
     ClientSecret := ""; Enabled := false; RedirectURI := "" |}.

Definition set_ClientSecret (v : string) (o : OIDC) : OIDC :=
  {| ID := ID o; Name := Name o; Provider := Provider o; ProviderURL := ProviderURL o;
     ClientID := ClientID o; ClientSecret := v; Enabled := Enabled o;
     RedirectURI := RedirectURI o |}.

(** The arguments of one execution of [update-oidc]. *)
Record UpdateCall : Type := {
  u_id : Z;
  u_name : string;
  u_provider : string;
  u_provider_url : string;
  u_client_id : string;
  u_client_secret : string;
  u_enabled : bool
}.

(** What the manager does not own: the row [get-oidc] returns for an id
    ([None]: the statement fails), the failures of [update-oidc],
    [stringutil.PasswordDummy], and [SetProviderLogo] of the model. *)
Record Env : Type := {
  GetOIDC : Z -> option OIDC;
  UpdateOIDC_fails : UpdateCall -> bool;
  PasswordDummy : string;
  SetProviderLogo : OIDC -> OIDC
}.

(** [strings.Repeat] *)
Fixpoint Repeat (s : string) (count : nat) : string :=
  match count with
  | O => ""
  | S n => (s ++ Repeat s n)%string
  end.

(** [Get] *)
Definition Get (env : Env) (id : Z) (includeSecret : bool) : OIDC * option error :=
  match GetOIDC env id with
  | None => (zero, Some (ErrNew "Error fetching OIDC"))
  | Some oidc =>
      let oidc := SetProviderLogo env oidc in
      let oidc :=
        if negb (bool_decide (ClientSecret oidc = "")) && negb includeSecret
        then set_ClientSecret (Repeat (PasswordDummy env) 10) oidc
        else oidc in
      (oidc, None)
  end.

(** [Update]: the error, and the execution of [update-oidc] it made, if
    any. *)
Definition Update (env : Env) (id : Z) (oidc : OIDC) : option error * option UpdateCall :=
  let '(current, err) := Get env id true in
  match err with
  | Some e => (Some e, None)
  | None =>
      let oidc := if bool_decide (ClientSecret oidc = "")
                  then set_ClientSecret (ClientSecret current) oidc
                  else oidc in
      let call := {| u_id := id; u_name := Name oidc; u_provider := Provider oidc;
                     u_provider_url := ProviderURL oidc; u_client_id := ClientID oidc;
                     u_client_secret := ClientSecret oidc; u_enabled := Enabled oidc |} in
      if UpdateOIDC_fails env call
      then (Some (ErrNew "Error updating OIDC"), Some call)
      else (None, Some call)
  end.

End Oidc.

(** ** Concrete scenarios

    Small worlds on which the definitions are run. *)

Module Scenario.
Import Conversation.

Definition email_ok : Inbox :=
  {| Channel := "email"; FromAddress := "support@desk.test"; Send := fun _ => None |}.

Definition email_down : Inbox :=
  {| Channel := "email"; FromAddress := "support@desk.test";
     Send := fun _ => Some (ErrDep "smtp: connection refused") |}.

(** Inbox 1 delivers, inbox 2 refuses every message, no other inbox
    exists; the template wraps the body in a paragraph; nothing else
    fails. *)
Definition env0 : Env :=
  {| now := 1000;
     db_now := 1001;
     stmt_fails := fun _ _ => false;
     new_uuid := fun table id => (table ++ "-" ++ pretty id)%string;
     contactStore_Upsert := fun _ => (7, None);
     inboxStore_Get := fun id =>
       if (id =? 1)%Z then (email_ok, None)
       else if (id =? 2)%Z then (email_down, None)
       else (email_ok, Some (ErrDep "inbox not found"));
     template_RenderDefault := fun content => (("<p>" ++ content ++ "</p>")%string, None);
     mediaStore_GetByModel := fun _ => ([], None);
     mediaStore_GetBlob := fun _ => ("", None);
     mediaStore_UploadAndInsert := fun _ _ => None;
     stringutil_Sanitize := fun content => content;
     attachment_MakeHeader := fun ct _ _ _ _ => ct;
     GetToAddress := fun _ _ => ["ann@mail.test"];
     GetLatestReceivedMessageSourceID := fun _ => "";
     q_GetMessages := "SELECT * FROM messages WHERE conversation_uuid = $1 %s" |}.

(** The same world with a contact store that is down. *)
Definition env_no_contacts : Env :=
  {| now := now env0; db_now := db_now env0;
     stmt_fails := stmt_fails env0; new_uuid := new_uuid env0;
     contactStore_Upsert := fun _ => (0, Some (ErrDep "contact store down"));
     inboxStore_Get := inboxStore_Get env0;
     template_RenderDefault := template_RenderDefault env0;
     mediaStore_GetByModel := mediaStore_GetByModel env0;
     mediaStore_GetBlob := mediaStore_GetBlob env0;
     mediaStore_UploadAndInsert := mediaStore_UploadAndInsert env0;
     stringutil_Sanitize := stringutil_Sanitize env0;
     attachment_MakeHeader := attachment_MakeHeader env0;
     GetToAddress := GetToAddress env0;
     GetLatestReceivedMessageSourceID := GetLatestReceivedMessageSourceID env0;
     q_GetMessages := q_GetMessages env0 |}.

Definition no_source : NullString := {| String_ := ""; Valid := false |}.
Definition source (s : string) : NullString := {| String_ := s; Valid := true |}.

(** A pending reply of an agent in conversation 1, to leave by [inbox]. *)
Definition reply (id : Z) (inbox : Z) (content : string) : Message :=
  {| ID := id; UUID := "messages-" ++ pretty id; Type_ := MessageOutgoing;
     Status := MessageStatusPending; ConversationID := 1;
     ConversationUUID := "conversations-1"; Content := content;
     ContentType := ContentTypeHTML; SenderID := 3; SenderType := SenderTypeUser;
     Private := false; SourceID := no_source; InboxID := inbox; Meta := "{}";
     Subject := ""; References := []; InReplyTo := ""; From_ := ""; To := [];
     CreatedAt := 900; Media := []; Attachments := [] |}.

(** A mail of a contact as the receiver hands it over. *)
Definition mail (src : string) (refs : list string) (inReplyTo content : string)
  : IncomingMessage :=
  {| im_Message :=
       {| ID := 0; UUID := ""; Type_ := MessageIncoming;
          Status := MessageStatusReceived; ConversationID := 0;
          ConversationUUID := ""; Content := content;
          ContentType := ContentTypeHTML; SenderID := 0;
          SenderType := SenderTypeContact; Private := false; SourceID := source src;
          InboxID := 1; Meta := ""; Subject := "Help"; References := refs;
          InReplyTo := inReplyTo; From_ := "ann@mail.test"; To := [];
          CreatedAt := 0; Media := []; Attachments := [] |};
     im_Contact := {| Email := "ann@mail.test"; FirstName := "Ann" |};
     im_InboxID := 1 |}.

Definition engine0 : Automation.Engine :=
  {| Automation.rules := []; Automation.rulesMu := Automation.MuFree;
     Automation.q := [];
     Automation.newConversationQ := Chan.make Automation.MaxQueueSize;
     Automation.updateConversationQ := Chan.make Automation.MaxQueueSize;
     Automation.closed := false; Automation.rulesWrites := [] |}.

(** A manager over the given tables with empty queues of the given
    capacities. *)
Definition manager (d : DB) (outCap inCap : nat) : Manager :=
  {| db := d; outgoingProcessingMessages := ∅;
     outgoingMessageQueue := Chan.make outCap;
     incomingMessageQueue := Chan.make inCap;
     closed := false; automation := engine0; wsHub := []; outbox := [] |}.

Definition conversation1 : Conversation :=
  {| CID := 1; CUUID := "conversations-1"; ContactID := 7; CInboxID := 1;
     CSubject := "Help"; LastMessage := "My printer is on fire";
     LastMessageAt := 800; FirstReplyAt := None |}.

(** Conversation 1 holds the mail <a@mail> of the contact. *)
Definition first_mail : Message :=
  {| ID := 1; UUID := "messages-1"; Type_ := MessageIncoming;
     Status := MessageStatusReceived; ConversationID := 1;
     ConversationUUID := "conversations-1"; Content := "My printer is on fire";
     ContentType := ContentTypeHTML; SenderID := 7; SenderType := SenderTypeContact;
     Private := false; SourceID := source "<a@mail>"; InboxID := 1; Meta := "{}";
     Subject := ""; References := []; InReplyTo := ""; From_ := ""; To := [];
     CreatedAt := 800; Media := []; Attachments := [] |}.

Definition db_empty : DB := {| messages := []; conversations := []; participants := [] |}.

Definition db_thread : DB :=
  {| messages := [first_mail]; conversations := [conversation1];
     participants := [(7, "conversations-1")] |}.

(** Conversation 1 with one pending reply (id 2) through [inbox]. *)
Definition db_reply (inbox : Z) : DB :=
  {| messages := [first_mail; reply 2 inbox "We are on our way"];
     conversations := [conversation1];
     participants := [(7, "conversations-1")] |}.

(** An engine over a table of two enabled rows, loaded. *)
Definition rule_env : Automation.Env :=
  {| Automation.json_Unmarshal := fun js =>
       Some [ {| Automation.Type_ := ""; Automation.Body := js |} ];
     Automation.stmt_fails := fun _ => false |}.

Definition row (id : Z) (ty body : string) (disabled : bool) : Automation.RuleRecord :=
  {| Automation.ID := id; Automation.Name := body; Automation.Description := "";
     Automation.RType := ty; Automation.Rules := body;
     Automation.Disabled := disabled |}.

Definition engine2 : Automation.Engine :=
  {| Automation.rules :=
       [ {| Automation.Type_ := "new_conversation"; Automation.Body := "assign-to-sales" |};
         {| Automation.Type_ := "new_conversation"; Automation.Body := "tag-urgent" |} ];
     Automation.rulesMu := Automation.MuFree;
     Automation.q := [ row 1 "new_conversation" "assign-to-sales" false;
                       row 2 "new_conversation" "tag-urgent" false ];
     Automation.newConversationQ := Chan.make Automation.MaxQueueSize;
     Automation.updateConversationQ := Chan.make Automation.MaxQueueSize;
     Automation.closed := false; Automation.rulesWrites := [] |}.

(** Two pending replies; the first is in the dispatch queue, which has
    one slot, and in the in-flight set. *)
Definition db_two_replies : DB :=
  {| messages := [first_mail; reply 2 1 "We are on our way"; reply 3 1 "Fixed"];
     conversations := [conversation1];
     participants := [(7, "conversations-1")] |}.

Definition manager_full : Manager :=
  {| db := db_two_replies;
     outgoingProcessingMessages := {[ 2 := 2 ]};
     outgoingMessageQueue :=
       {| Chan.buf := [reply 2 1 "We are on our way"]; Chan.cap := 1;
          Chan.closed := false |};
     incomingMessageQueue := Chan.make 4;
     closed := false; automation := engine0; wsHub := []; outbox := [] |}.

(** A private note of an agent in conversation 1, handed over as
    pending, with a body of more than 45 characters. *)
Definition note : Message :=
  {| ID := 0; UUID := ""; Type_ := MessageOutgoing;
     Status := MessageStatusPending; ConversationID := 1;
     ConversationUUID := "conversations-1";
     Content := "The customer called twice today about the printer, call back";
     ContentType := ContentTypeText; SenderID := 3; SenderType := SenderTypeUser;
     Private := true; SourceID := no_source; InboxID := 1; Meta := "";
     Subject := ""; References := []; InReplyTo := ""; From_ := ""; To := [];
     CreatedAt := 0; Media := []; Attachments := [] |}.

(** Rule environments in which every statement fails, and in which
    only the select of the enabled rules fails. *)
Definition rule_env_down : Automation.Env :=
  {| Automation.json_Unmarshal := Automation.json_Unmarshal rule_env;
     Automation.stmt_fails := fun _ => true |}.

Definition rule_env_select_down : Automation.Env :=
  {| Automation.json_Unmarshal := Automation.json_Unmarshal rule_env;
     Automation.stmt_fails := fun stmt => bool_decide (stmt = "get-enabled-rules") |}.

Definition consts0 : AutomationRun.Consts :=
  {| AutomationRun.RuleTypeNewConversation := "new_conversation";
     AutomationRun.RuleTypeConversationUpdate := "conversation_update";
     AutomationRun.RuleTypeTimeTrigger := "time_trigger";
     AutomationRun.time_Now := 3000000 |}.

(** A store that holds conversation 1 only. *)
Definition store0 : AutomationRun.ConversationStore Conversation :=
  {| AutomationRun.GetConversation := fun uuid =>
       if bool_decide (uuid = "conversations-1") then (conversation1, None)
       else (conversation1, Some (ErrNew "Conversation not found"));
     AutomationRun.GetConversationsCreatedAfter := fun t => ([conversation1], None) |}.

(** The agents Kim (3) and Lee (4); the user store knows Lee only. *)
Definition kim : User := {| UserID := 3; UserFirstName := "Kim"; UserLastName := "Ng" |}.
Definition lee : User := {| UserID := 4; UserFirstName := "Lee"; UserLastName := "Wu" |}.

Definition stores0 : Stores :=
  {| FullName := fun u => (UserFirstName u ++ " " ++ UserLastName u)%string;
     userStore_Get := fun id =>
       if (id =? 4)%Z then (lee, None) else (lee, Some (ErrNew "User not found"));
     teamStore_GetTeam := fun id => ({| TeamName := "Support" |}, None) |}.

(** The world of [env0] with two media rows on message 2; the blob of
    the second one is read only when [blobs_ok]. *)
Definition env_media (blobs_ok : bool) : Env :=
  {| now := now env0; db_now := db_now env0;
     stmt_fails := stmt_fails env0; new_uuid := new_uuid env0;
     contactStore_Upsert := contactStore_Upsert env0;
     inboxStore_Get := inboxStore_Get env0;
     template_RenderDefault := template_RenderDefault env0;
     mediaStore_GetByModel := fun id =>
       if (id =? 2)%Z
       then ([ {| MUUID := "media-1"; Filename := "log.txt";
                  MContentType := "text/plain"; Disposition := "attachment" |};
               {| MUUID := "media-2"; Filename := "photo.png";
                  MContentType := "image/png"; Disposition := "inline" |} ], None)
       else ([], None);
     mediaStore_GetBlob := fun uuid =>
       if bool_decide (uuid = "media-2") && negb blobs_ok
       then ("", Some (ErrDep "blob store down"))
       else (("blob of " ++ uuid)%string, None);
     mediaStore_UploadAndInsert := mediaStore_UploadAndInsert env0;
     stringutil_Sanitize := stringutil_Sanitize env0;
     attachment_MakeHeader := attachment_MakeHeader env0;
     GetToAddress := GetToAddress env0;
     GetLatestReceivedMessageSourceID := GetLatestReceivedMessageSourceID env0;
     q_GetMessages := q_GetMessages env0 |}.

(** One provider with a client secret. *)
Definition oidc_env : Oidc.Env :=
  {| Oidc.GetOIDC := fun id =>
       if (id =? 1)%Z
       then Some {| Oidc.ID := 1; Oidc.Name := "Corp login"; Oidc.Provider := "Google";
                    Oidc.ProviderURL := "https://accounts.example.test";
                    Oidc.ClientID := "desk"; Oidc.ClientSecret := "s3cret";
                    Oidc.Enabled := true; Oidc.RedirectURI := "" |}
       else None;
     Oidc.UpdateOIDC_fails := fun _ => false;
     Oidc.PasswordDummy := "*";
     Oidc.SetProviderLogo := fun o => o |}.

(** The world of [env0] in which the sender cannot be added as a
    participant of a conversation. *)
Definition env_no_participants : Env :=
  {| now := now env0; db_now := db_now env0;
     stmt_fails := fun stmt _ => bool_decide (stmt = "insert-conversation-participant");
     new_uuid := new_uuid env0;
     contactStore_Upsert := contactStore_Upsert env0;
     inboxStore_Get := inboxStore_Get env0;
     template_RenderDefault := template_RenderDefault env0;
     mediaStore_GetByModel := mediaStore_GetByModel env0;
     mediaStore_GetBlob := mediaStore_GetBlob env0;
     mediaStore_UploadAndInsert := mediaStore_UploadAndInsert env0;
     stringutil_Sanitize := stringutil_Sanitize env0;
     attachment_MakeHeader := attachment_MakeHeader env0;
     GetToAddress := GetToAddress env0;
     GetLatestReceivedMessageSourceID := GetLatestReceivedMessageSourceID env0;
     q_GetMessages := q_GetMessages env0 |}.

End Scenario.

(** ** Vocabulary of the properties *)

Module AutomationSpec.
Import Automation.

(** What a reload from table [t] leaves behind: the table, the snapshot
    recomputed from all of it, a free lock, and one more assignment to
    the snapshot, made while the write lock was held. *)
Definition reloaded (env : Env) (t : list RuleRecord) (e e' : Engine) : Prop :=
  q e' = t /\
  rules e' = (if stmt_fails env "get-enabled-rules" then []
              else collect_rules env (GetEnabledRules t)) /\
  rulesMu e' = MuFree /\
  rulesWrites e' = rulesWrites e ++ [MuWrite].

End AutomationSpec.

Module ConversationSpec.
Import Conversation.

(** The error, if any, that makes a dispatch fail: fetching the inbox,
    attaching the attachments, or the channel's Send. *)
Definition dispatch_error (env : Env) (message : Message) : option error :=
  match inboxStore_Get env (InboxID message) with
  | (_, Some e) => Some e
  | (inbox, None) =>
      match attachAttachmentsToMessage env message with
      | (Some e, _) => Some e
      | (None, message) => Send inbox (set_addresses env inbox message)
      end
  end.

(** The status a dispatch asks the store to record. *)
Definition dispatch_status (env : Env) (message : Message) : string :=
  match dispatch_error env message with
  | Some _ => MessageStatusFailed
  | None => MessageStatusSent
  end.

(** A row after [update-message-status uuid status]. *)
Definition restatus (status uuid : string) (r : Message) : Message :=
  if bool_decide (UUID r = uuid) then set_Status status r else r.

(** A message taken from the dispatch queue is a stored, pending,
    outgoing message. *)
Definition stored_pending (message : Message) (m : Manager) : Prop :=
  exists r, r ∈ messages (db m) /\ ID r = ID message /\ UUID r = UUID message /\
            Status r = MessageStatusPending /\ Type_ r = MessageOutgoing.

(** The message is among the candidates of the next scan. *)
Definition next_scan_candidate (message : Message) (m : Manager) : Prop :=
  exists r, r ∈ GetPendingMessages (getOutgoingProcessingMessageIDs m) (db m)
            /\ ID r = ID message.

(** C4 as the specification words it: a failure marks the
    message failed, and in every case the id leaves the in-flight set and
    the message is a candidate of the next scan. *)
Definition dispatch_claim_as_stated : Prop :=
  forall (env : Env) (message : Message) (m : Manager),
    stored_pending message m ->
    let m' := dispatch env message m in
    (dispatch_error env message <> None ->
     forall r, r ∈ messages (db m') -> UUID r = UUID message ->
               Status r = MessageStatusFailed) /\
    outgoingProcessingMessages m' !! ID message = None /\
    next_scan_candidate message m'.

(** The template accepts the message on this channel:
    [RenderContentInTemplate] returns nil. *)
Definition renders (env : Env) (inb : Inbox) (message : Message) : bool :=
  bool_decide (Channel inb = ChannelEmail)
  && bool_decide ((template_RenderDefault env (Content message)).2 = None).

(** The scanner gets as far as the send for this message: its inbox is
    found and its body renders. *)
Definition sendable (env : Env) (message : Message) : bool :=
  match inboxStore_Get env (InboxID message) with
  | (_, Some _) => false
  | (inb, None) => renders env inb message
  end.

Definition manager_of (o : ScanOutcome) : Manager :=
  match o with
  | ScanDone m => m
  | ScanBlocked m _ _ => m
  | ScanPanic m => m
  end.

(** C5 as the specification words it: with a full queue
    the scanner does not block, and every candidate it could not enqueue
    is still pending in storage, is not in the in-flight set, and is a
    candidate of the next tick. *)
Definition full_queue_claim_as_stated : Prop :=
  forall (env : Env) (m : Manager),
    Chan.full (outgoingMessageQueue m) = true ->
    Chan.closed (outgoingMessageQueue m) = false ->
    exists m', ListenAndDispatchMessages_tick env m = ScanDone m' /\
      forall message,
        message ∈ GetPendingMessages (getOutgoingProcessingMessageIDs m) (db m) ->
        message ∉ Chan.buf (outgoingMessageQueue m') ->
        message ∈ messages (db m') /\
        outgoingProcessingMessages m' !! ID message = None /\
        next_scan_candidate message m'.

(** Stored messages that carry a source id belong to a conversation:
    the conversation ids the database hands out are positive. *)
Definition wf_sources (d : DB) : Prop :=
  forall r, r ∈ messages d -> Valid (SourceID r) = true -> 0 < ConversationID r.

(** C3 as the specification words it: the reference chain
    is the message's own source id plus its in-reply-to id, and a message
    whose chain matches a stored message of a conversation is stored in
    that conversation. *)
Definition claimed_chain (message : Message) : list string :=
  String_ (SourceID message)
  :: (if bool_decide (InReplyTo message = "") then [] else [InReplyTo message]).

Definition thread_claim_as_stated : Prop :=
  forall (env : Env) (in_ : IncomingMessage) (m : Manager) (cid : Z),
    (contactStore_Upsert env (im_Contact in_)).2 = None ->
    (forall stmt args, stmt_fails env stmt args = false) ->
    MessageExistsBySourceID (claimed_chain (im_Message in_)) (db m) = Some cid ->
    0 < cid ->
    (exists c, c ∈ conversations (db m) /\ CID c = cid) ->
    exists row, messages (db (processIncomingMessage env in_ m).2)
                = messages (db m) ++ [row]
                /\ ConversationID row = cid.

(** The activity types [getMessageActivityContent] knows. *)
Definition known_activity (activityType : string) : Prop :=
  activityType ∈ [ActivityAssignedUserChange; ActivityAssignedTeamChange;
                  ActivitySelfAssign; ActivityPriorityChange; ActivityStatusChange;
                  ActivityTagChange].

(** The attachment [attachAttachmentsToMessage] builds from a media
    row. *)
Definition attachment_of (env : Env) (media : MediaRow) : Attachment :=
  {| AName := Filename media;
     AContent := (mediaStore_GetBlob env (MUUID media)).1;
     AHeader := attachment_MakeHeader env (MContentType media) (MUUID media)
                  (Filename media) "base64" (Disposition media) |}.

(** C8 as the specification words it: after every insertion of a
    message, the summary of the owning conversation is the sanitized body
    cut to 45 characters, stamped with the creation time of the message. *)
Definition summary_claim_as_stated : Prop :=
  forall (env : Env) (message : Message) (m : Manager) err message' m',
    InsertMessage env message m = (err, message', m') ->
    messages (db m') = messages (db m) ++ [row_of message'] ->
    forall c', c' ∈ conversations (db m') -> CUUID c' = ConversationUUID message ->
      LastMessage c' = SanitizeAndTruncate env (Content message) 45 /\
      LastMessageAt c' = CreatedAt message'.

(** C10 as the claim words it: for every page and page size the OFFSET
    argument of the query is the product (page - 1) * pageSize of the
    clamped values. *)
Definition pagination_claim_as_stated : Prop :=
  forall (baseQuery : string) (qArgs : list Arg) (page pageSize : Z),
    GoInt.in_range page -> GoInt.in_range pageSize ->
    let p := if decide (page <= 0) then 1 else page in
    let n := if decide (pageSize <= 0 \/ 30 < pageSize) then 30 else pageSize in
    (generateMessagesQuery baseQuery qArgs page pageSize).1.2
    = qArgs ++ [ArgInt n; ArgInt ((p - 1) * n)].

End ConversationSpec.

(** ** Properties of the automation engine *)

Section AutomationProperties.
Import Automation AutomationSpec.

Lemma ReloadRules_free (env : Env) (e : Engine) :
  rulesMu e = MuFree ->
  ReloadRules env e =
    Some {| rules := queryRules env e; rulesMu := MuFree; q := q e;
            newConversationQ := newConversationQ e;
            updateConversationQ := updateConversationQ e;
            closed := closed e; rulesWrites := rulesWrites e ++ [MuWrite] |}.
Proof.
  intros Hfree. unfold ReloadRules. rewrite Hfree. reflexivity.
Qed.

Lemma exec_then_reload_ok (env : Env) (stmt msg : string)
    (run : list RuleRecord -> list RuleRecord) (e : Engine) :
  rulesMu e = MuFree ->
  stmt_fails env stmt = false ->
  exists e', exec_then_reload env stmt msg run e = Some (None, e')
             /\ reloaded env (run (q e)) e e'.
Proof.
  intros Hfree Hok. unfold exec_then_reload. rewrite Hok.
  rewrite ReloadRules_free by exact Hfree.
  eexists. split; [reflexivity|]. repeat split.
Qed.

Lemma exec_then_reload_failed (env : Env) (stmt msg : string)
    (run : list RuleRecord -> list RuleRecord) (e : Engine) :
  stmt_fails env stmt = true ->
  exec_then_reload env stmt msg run e = Some (Some (ErrNew msg), e).
Proof. intros Hko. unfold exec_then_reload. rewrite Hko. reflexivity. Qed.

Lemma toggle_row_other (id : Z) (r : RuleRecord) :
  ID r <> id -> toggle_row id r = r.
Proof. intros Hne. unfold toggle_row. rewrite bool_decide_eq_false_2; done. Qed.

Lemma toggle_row_disabled (id : Z) (r : RuleRecord) :
  ID r = id -> Disabled (toggle_row id r) = negb (Disabled r).
Proof. intros Heq. unfold toggle_row. rewrite bool_decide_eq_true_2; done. Qed.

(** Toggling an enabled row off leaves, as enabled rows, the enabled rows
    of the other ids. *)
Lemma GetEnabledRules_toggle_off (id : Z) (t : list RuleRecord) :
  (forall r, r ∈ t -> ID r = id -> Disabled r = false) ->
  GetEnabledRules (ExecToggleRule id t)
  = GetEnabledRules (filter (fun r => ID r <> id) t).
Proof.
  unfold GetEnabledRules, ExecToggleRule.
  induction t as [|r t IH]; intros Hen; [reflexivity|].
  assert (IH' := IH (fun r' Hr' => Hen r' (list_elem_of_further _ _ _ Hr'))).
  cbn [map]. destruct (decide (ID r = id)) as [Heq|Hne].
  - rewrite filter_cons_False.
    + rewrite (filter_cons_False (fun r => ID r <> id)) by (intros Hc; exact (Hc Heq)).
      exact IH'.
    + rewrite (toggle_row_disabled id r Heq).
      rewrite (Hen r (list_elem_of_here _ _) Heq). discriminate.
  - rewrite (toggle_row_other id r Hne).
    rewrite (filter_cons_True (fun r => ID r <> id)) by exact Hne.
    rewrite !filter_cons.
    destruct (decide (Disabled r = false)); cbn [map]; [f_equal|]; exact IH'.
Qed.

Lemma filterRulesByType_free (ruleType : string) (e : Engine) :
  rulesMu e = MuFree ->
  filterRulesByType ruleType e
  = Some (filter (fun rule => Type_ rule = ruleType) (rules e)).
Proof. intros Hfree. unfold filterRulesByType. rewrite Hfree. reflexivity. Qed.

(** C7. Every successful create, update, delete or toggle of a stored
    rule reloads the whole in-memory snapshot from the table, the
    assignment being made under the write lock; hence, once ToggleRule has
    disabled a rule, the rules that filterRulesByType returns for the next
    event all come from the other enabled rows of the table. *)
Theorem C7_mutation_reloads_snapshot :
  forall (env : Env) (e : Engine) (id : Z) (rule : RuleRecord),
    rulesMu e = MuFree ->
    (stmt_fails env "insert-rule" = false ->
     exists e', CreateRule env rule e = Some (None, e') /\
       reloaded env (ExecInsertRule (Name rule) (Description rule) (RType rule)
                       (Rules rule) (q e)) e e') /\
    (stmt_fails env "update-rule" = false ->
     exists e', UpdateRule env id rule e = Some (None, e') /\
       reloaded env (ExecUpdateRule id (Name rule) (Description rule) (RType rule)
                       (Rules rule) (q e)) e e') /\
    (stmt_fails env "delete-rule" = false ->
     exists e', DeleteRule env id e = Some (None, e') /\
       reloaded env (ExecDeleteRule id (q e)) e e') /\
    (stmt_fails env "toggle-rule" = false ->
     exists e', ToggleRule env id e = Some (None, e') /\
       reloaded env (ExecToggleRule id (q e)) e e' /\
       ((forall r, r ∈ q e -> ID r = id -> Disabled r = false) ->
        forall ruleType, exists rs,
          filterRulesByType ruleType e' = Some rs /\
          rs = filter (fun x => Type_ x = ruleType) (rules e') /\
          forall x, x ∈ rs ->
            x ∈ collect_rules env
                  (GetEnabledRules (filter (fun r => ID r <> id) (q e))))).
Proof.
  intros env e id rule Hfree. repeat split.
  - intros Hok. apply exec_then_reload_ok; assumption.
  - intros Hok. apply exec_then_reload_ok; assumption.
  - intros Hok. apply exec_then_reload_ok; assumption.
  - intros Hok.
    destruct (exec_then_reload_ok env "toggle-rule" "Error toggling automation rule."
                (ExecToggleRule id) e Hfree Hok) as (e' & Hrun & Hrel).
    exists e'. split; [exact Hrun|]. split; [exact Hrel|].
    intros Hen ruleType. destruct Hrel as (_ & Hrules & Hmu & _).
    eexists. split; [apply filterRulesByType_free; exact Hmu|].
    split; [reflexivity|].
    intros x Hx. apply list_elem_of_filter in Hx as [_ Hx].
    rewrite Hrules in Hx. destruct (stmt_fails env "get-enabled-rules").
    + inversion Hx.
    + rewrite GetEnabledRules_toggle_off in Hx by exact Hen. exact Hx.
Qed.

(** The engine of the scenario after rule 2 is toggled off: the snapshot
    is reloaded and the next event sees rule 1 only. *)
Lemma C7_mutation_reloads_snapshot_witness :
  rulesMu Scenario.engine2 = MuFree /\
  exists e', ToggleRule Scenario.rule_env 2 Scenario.engine2 = Some (None, e') /\
    filterRulesByType "new_conversation" e'
    = Some [ {| Type_ := "new_conversation"; Body := "assign-to-sales" |} ].
Proof.
  split; [reflexivity|].
  destruct (C7_mutation_reloads_snapshot Scenario.rule_env Scenario.engine2 2
              (Scenario.row 0 "" "" false) eq_refl)
    as (_ & _ & _ & Htoggle).
  destruct (Htoggle eq_refl) as (e' & Hrun & _ & _).
  exists e'. split; [exact Hrun|].
  vm_compute in Hrun. injection Hrun as <-. reflexivity.
Defined.

End AutomationProperties.

(** ** Properties of the message pipeline *)

Section ConversationProperties.
Import Conversation ConversationSpec.

(** *** Pagination *)

Lemma wrap_in_range (z : Z) : GoInt.in_range z -> GoInt.wrap z = z.
Proof.
  unfold GoInt.in_range, GoInt.wrap. intros Hz.
  rewrite Z.mod_small by lia. lia.
Qed.

Lemma generateMessagesQuery_args (baseQuery : string) (qArgs : list Arg)
    (page pageSize : Z) :
  GoInt.in_range page ->
  let p := if decide (page <= 0) then 1 else page in
  let n := if decide (pageSize <= 0 \/ 30 < pageSize) then 30 else pageSize in
  (generateMessagesQuery baseQuery qArgs page pageSize).1.2
  = qArgs ++ [ArgInt n; ArgInt (GoInt.mul (p - 1) n)]
  /\ (generateMessagesQuery baseQuery qArgs page pageSize).2 = None.
Proof.
  intros Hpage p n. unfold generateMessagesQuery. cbn [fst snd].
  split; [|reflexivity]. f_equal.
  assert (Hn : (if (pageSize <=? 0)%Z || (maxMessagesPerPage <? pageSize)%Z
                then maxMessagesPerPage else pageSize) = n).
  { subst n. unfold maxMessagesPerPage.
    destruct (Z.leb_spec pageSize 0), (Z.ltb_spec 30 pageSize);
      cbn; case_decide; lia. }
  assert (Hp : GoInt.sub (if (page <=? 0)%Z then 1 else page) 1 = p - 1).
  { subst p. unfold GoInt.sub, GoInt.in_range in *.
    destruct (Z.leb_spec page 0); case_decide; try lia;
      apply wrap_in_range; unfold GoInt.in_range; lia. }
  rewrite Hn, Hp. reflexivity.
Qed.

Lemma SelectMessages_length (qArgs : list Arg) (n offset : Z) (d : DB) :
  0 <= n ->
  (length (SelectMessages (qArgs ++ [ArgInt n; ArgInt offset]) d).1 <= Z.to_nat n)%nat.
Proof.
  intros Hn. unfold SelectMessages.
  destruct qArgs as [|a [|b [|c l]]]; cbn; try lia.
  - destruct a; cbn; try lia.
    destruct (offset <? 0)%Z; cbn; [lia|]. rewrite length_take. lia.
  - destruct a; cbn; try lia. destruct b; cbn; lia.
  - destruct a; cbn; try lia. destruct b; cbn; try lia. destruct c; cbn; try lia.
    destruct l; cbn; lia.
Qed.

(** C10 as stated fails.  For page 2^61 + 1 and page size 4 the
    product 2^63 does not fit an int: the OFFSET handed to the query is
    -2^63. *)
Lemma C10_counterexample : ~ pagination_claim_as_stated.
Proof.
  intros Hclaim.
  assert (Hpage : GoInt.in_range (2 ^ 61 + 1)) by (unfold GoInt.in_range; lia).
  assert (Hsize : GoInt.in_range 4) by (unfold GoInt.in_range; lia).
  specialize (Hclaim "SELECT %s" [] (2 ^ 61 + 1) 4 Hpage Hsize).
  vm_compute in Hclaim. discriminate Hclaim.
Qed.

(** C10 (amended). GetConversationMessages clamps its pagination: a page of 0 or
    less counts as 1, a page size of 0 or less or above 30 as 30, the
    OFFSET argument is (page - 1) * pageSize in the arithmetic of int
    (the exact product whenever that fits), and the call runs the query
    with exactly these two arguments behind the conversation uuid: it
    returns the rows the query gives for that LIMIT and OFFSET, at most 30
    of them, and the error "Error fetching messages" when the query
    fails. *)
Theorem C10_pagination_clamped :
  forall (env : Env) (conversationUUID baseQuery : string) (qArgs : list Arg)
         (page pageSize : Z) (m : Manager),
    GoInt.in_range page ->
    let p := if decide (page <= 0) then 1 else page in
    let n := if decide (pageSize <= 0 \/ 30 < pageSize) then 30 else pageSize in
    let offset := GoInt.mul (p - 1) n in
    let call := GetConversationMessages env conversationUUID page pageSize m in
    generateMessagesQuery baseQuery qArgs page pageSize
    = (Sprintf1 baseQuery
         ("LIMIT $" ++ pretty (length qArgs + 1)%nat
          ++ " OFFSET $" ++ pretty (length qArgs + 2)%nat),
       qArgs ++ [ArgInt n; ArgInt offset], None) /\
    1 <= n <= 30 /\
    ((p - 1) * n < 2 ^ 63 -> offset = (p - 1) * n) /\
    (stmt_fails env "begin" [] = false ->
     call
     = match SelectMessages [ArgString conversationUUID; ArgInt n; ArgInt offset] (db m) with
       | (_, Some _) => Returns ([], Some (ErrNew "Error fetching messages"))
       | (rows, None) => Returns (rows, None)
       end /\
     (0 <= offset ->
      call
      = Returns (take (Z.to_nat n)
                   (drop (Z.to_nat offset)
                      (filter (fun r => ConversationUUID r = conversationUUID)
                         (messages (db m)))), None)) /\
     (offset < 0 -> call = Returns ([], Some (ErrNew "Error fetching messages"))) /\
     exists rows err, call = Returns (rows, err) /\ (length rows <= 30)%nat).
Proof.
  intros env conversationUUID baseQuery qArgs page pageSize m Hpage p n offset call.
  assert (Hn : 1 <= n <= 30) by (subst n; case_decide; lia).
  assert (Hp : 1 <= p) by (subst p; case_decide; lia).
  assert (Hgen : forall base args,
            generateMessagesQuery base args page pageSize
            = (Sprintf1 base
                 ("LIMIT $" ++ pretty (length args + 1)%nat
                  ++ " OFFSET $" ++ pretty (length args + 2)%nat),
               args ++ [ArgInt n; ArgInt offset], None)).
  { intros base args.
    destruct (generateMessagesQuery_args base args page pageSize Hpage) as [Hargs _].
    fold p n in Hargs. fold offset in Hargs.
    unfold generateMessagesQuery in *. cbn [fst snd] in Hargs. rewrite Hargs.
    rewrite length_app. cbn [length].
    replace (length args + 2 - 1)%nat with (length args + 1)%nat by lia.
    reflexivity. }
  split; [apply Hgen|]. split; [exact Hn|]. split.
  - intros Hfit. subst offset. unfold GoInt.mul. apply wrap_in_range.
    unfold GoInt.in_range. nia.
  - intros Hbegin.
    assert (Hcall : call
              = match SelectMessages [ArgString conversationUUID; ArgInt n; ArgInt offset]
                        (db m) with
                | (_, Some _) => Returns ([], Some (ErrNew "Error fetching messages"))
                | (rows, None) => Returns (rows, None)
                end).
    { subst call. unfold GetConversationMessages. rewrite Hgen, Hbegin. reflexivity. }
    split; [exact Hcall|]. split; [|split].
    + intros Hpos. rewrite Hcall. unfold SelectMessages.
      destruct (Z.ltb_spec offset 0) as [Hneg|_]; [lia|]. reflexivity.
    + intros Hneg. rewrite Hcall. unfold SelectMessages.
      destruct (Z.ltb_spec offset 0) as [_|Hpos]; [reflexivity|lia].
    + rewrite Hcall.
      pose proof (SelectMessages_length [ArgString conversationUUID] n offset (db m)
                    ltac:(lia)) as Hlen.
      cbn [app] in Hlen.
      destruct (SelectMessages _ (db m)) as [rows [e|]]; cbn in *;
        do 2 eexists; (split; [reflexivity|]); cbn; lia.
Qed.

(** Page 3 of size 100 asks for 30 rows from offset 60; page 2 of
    size 2 of a conversation of three messages returns the third. *)
Lemma C10_pagination_clamped_witness :
  GoInt.in_range 3 /\ GoInt.in_range 2 /\
  (generateMessagesQuery "SELECT %s" [ArgString "conversations-1"] 3 100).1.2
  = [ArgString "conversations-1"; ArgInt 30; ArgInt 60] /\
  GetConversationMessages Scenario.env0 "conversations-1" 3 100
    (Scenario.manager Scenario.db_thread 4 4) = Returns ([], None) /\
  GetConversationMessages Scenario.env0 "conversations-1" 2 2
    (Scenario.manager Scenario.db_two_replies 4 4)
  = Returns ([Scenario.reply 3 1 "Fixed"], None).
Proof.
  assert (Hr : GoInt.in_range 3) by (unfold GoInt.in_range; lia).
  assert (Hr2 : GoInt.in_range 2) by (unfold GoInt.in_range; lia).
  split; [exact Hr|]. split; [exact Hr2|].
  destruct (C10_pagination_clamped Scenario.env0 "conversations-1" "SELECT %s"
              [ArgString "conversations-1"] 3 100
              (Scenario.manager Scenario.db_thread 4 4) Hr)
    as (Hq & _ & _ & Hrun).
  destruct (Hrun eq_refl) as (_ & Hrows & _).
  destruct (C10_pagination_clamped Scenario.env0 "conversations-1" "SELECT %s"
              [ArgString "conversations-1"] 2 2
              (Scenario.manager Scenario.db_two_replies 4 4) Hr2)
    as (_ & _ & _ & Hrun2).
  destruct (Hrun2 eq_refl) as (_ & Hrows2 & _).
  split; [rewrite Hq; reflexivity|]. split.
  - rewrite Hrows by (vm_compute; discriminate). reflexivity.
  - rewrite Hrows2 by (vm_compute; discriminate). reflexivity.
Defined.

(** *** The incoming queue *)

(** C6. EnqueueIncoming returns the queue-closed error once Close has
    run, returns the queue-full error when the bounded queue has no free
    slot, leaving the queue as it was, and otherwise appends the message
    and returns nil; the queue never holds more than its capacity. *)
Theorem C6_enqueue_incoming :
  forall (message : IncomingMessage) (m : Manager),
    (closed m = true ->
     EnqueueIncoming message m
     = Returns (Some (ErrNew "incoming message queue is closed"), m)) /\
    (forall m1, Close m = Returns m1 ->
       closed m1 = true /\
       EnqueueIncoming message m1
       = Returns (Some (ErrNew "incoming message queue is closed"), m1)) /\
    (closed m = false -> Chan.closed (incomingMessageQueue m) = false ->
     (Chan.full (incomingMessageQueue m) = true ->
      EnqueueIncoming message m
      = Returns (Some (ErrNew "incoming message queue is full"), m)) /\
     (Chan.full (incomingMessageQueue m) = false ->
      exists m', EnqueueIncoming message m = Returns (None, m') /\
        Chan.buf (incomingMessageQueue m')
        = Chan.buf (incomingMessageQueue m) ++ [message] /\
        Chan.cap (incomingMessageQueue m') = Chan.cap (incomingMessageQueue m) /\
        closed m' = false)) /\
    (forall r m', EnqueueIncoming message m = Returns (r, m') ->
       (length (Chan.buf (incomingMessageQueue m)) <= Chan.cap (incomingMessageQueue m))%nat ->
       (length (Chan.buf (incomingMessageQueue m')) <= Chan.cap (incomingMessageQueue m'))%nat).
Proof.
  intros message m. split; [|split; [|split]].
  - intros Hc. unfold EnqueueIncoming. rewrite Hc. reflexivity.
  - intros m1 Hclose. unfold Close in Hclose.
    destruct (Chan.closed (outgoingMessageQueue m) || Chan.closed (incomingMessageQueue m));
      [discriminate|].
    injection Hclose as <-. split; reflexivity.
  - intros Hc Hq. unfold EnqueueIncoming, Chan.send. rewrite Hc, Hq. split.
    + intros Hfull. rewrite Hfull. reflexivity.
    + intros Hfree. rewrite Hfree. eexists. split; [reflexivity|].
      cbn. repeat split. exact Hc.
  - intros r m' Hrun Hle. unfold EnqueueIncoming, Chan.send, Chan.full in Hrun.
    destruct (closed m); [injection Hrun as <- <-; exact Hle|].
    destruct (Chan.closed (incomingMessageQueue m)); [discriminate|].
    destruct (Nat.leb_spec (Chan.cap (incomingMessageQueue m))
                (length (Chan.buf (incomingMessageQueue m)))) as [Hfull|Hfree];
      injection Hrun as <- <-; [exact Hle|].
    cbn. rewrite length_app. cbn. lia.
Qed.

(** A queue of one slot: the first mail is taken, the second is refused
    for lack of room, and after Close every mail is refused as closed. *)
Lemma C6_enqueue_incoming_witness :
  let m := Scenario.manager Scenario.db_empty 4 1 in
  let a := Scenario.mail "<a@mail>" [] "" "My printer is on fire" in
  closed m = false /\ Chan.closed (incomingMessageQueue m) = false /\
  Chan.full (incomingMessageQueue m) = false /\
  exists m', EnqueueIncoming a m = Returns (None, m') /\
    Chan.buf (incomingMessageQueue m') = [a] /\
    EnqueueIncoming a m' = Returns (Some (ErrNew "incoming message queue is full"), m').
Proof.
  intros m a. repeat split.
  destruct (C6_enqueue_incoming a m) as (_ & _ & Hopen & _).
  destruct (Hopen eq_refl eq_refl) as [_ Hfree].
  destruct (Hfree eq_refl) as (m' & Hrun & Hbuf & Hcap & Hcl).
  exists m'. split; [exact Hrun|]. split; [exact Hbuf|].
  destruct (C6_enqueue_incoming a m') as (_ & _ & Hopen' & _).
  vm_compute in Hrun. injection Hrun as <-.
  apply Hopen'; reflexivity.
Defined.

(** *** The effect of a status update and of a dispatch *)

Local Arguments UpdateMessageStatus : simpl never.
Local Arguments MessageStatusFailed : simpl never.
Local Arguments MessageStatusSent : simpl never.

Lemma failed_is_not_sent : bool_decide (MessageStatusFailed = MessageStatusSent) = false.
Proof. reflexivity. Qed.

Lemma sent_is_sent : bool_decide (MessageStatusSent = MessageStatusSent) = true.
Proof. reflexivity. Qed.

Ltac status_case :=
  cbn; first [rewrite failed_is_not_sent | rewrite sent_is_sent]; cbn.

Lemma UpdateMessageStatus_messages env uuid status m :
  messages (db (UpdateMessageStatus env uuid status m).2)
  = if stmt_fails env "update-message-status" [uuid] then messages (db m)
    else map (restatus status uuid) (messages (db m)).
Proof.
  unfold UpdateMessageStatus. destruct (stmt_fails env _ _); reflexivity.
Qed.

Lemma UpdateMessageStatus_frame env uuid status m :
  let m' := (UpdateMessageStatus env uuid status m).2 in
  outgoingProcessingMessages m' = outgoingProcessingMessages m /\
  outgoingMessageQueue m' = outgoingMessageQueue m /\
  incomingMessageQueue m' = incomingMessageQueue m /\
  outbox m' = outbox m /\
  conversations (db m') = conversations (db m) /\
  closed m' = closed m /\ automation m' = automation m.
Proof.
  unfold UpdateMessageStatus. destruct (stmt_fails env _ _); repeat split.
Qed.

Lemma attach_keeps env message e message' :
  attachAttachmentsToMessage env message = (e, message') ->
  ID message' = ID message /\ UUID message' = UUID message /\
  Content message' = Content message /\ ConversationID message' = ConversationID message
  /\ ConversationUUID message' = ConversationUUID message /\ CreatedAt message' = CreatedAt message.
Proof.
  unfold attachAttachmentsToMessage.
  destruct (mediaStore_GetByModel env (ID message)) as [medias [e0|]].
  - intros [= <- <-]. repeat split.
  - destruct (fetch_blobs env medias []) as [atts [e0|]]; intros [= <- <-]; repeat split.
Qed.

Lemma dispatch_messages env message m :
  messages (db (dispatch env message m))
  = if stmt_fails env "update-message-status" [UUID message] then messages (db m)
    else map (restatus (dispatch_status env message) (UUID message)) (messages (db m)).
Proof.
  unfold dispatch, dispatch_status, dispatch_error.
  destruct (inboxStore_Get env (InboxID message)) as [inbox [e|]].
  - rewrite UpdateMessageStatus_messages. reflexivity.
  - destruct (attachAttachmentsToMessage env message) as [[e|] message'] eqn:Hatt.
    + apply attach_keeps in Hatt as (_ & -> & _).
      rewrite UpdateMessageStatus_messages. reflexivity.
    + apply attach_keeps in Hatt as (_ & Hu & _).
      cbn [set_addresses UUID set_InReplyTo set_To set_From_].
      destruct (Send inbox (set_addresses env inbox message')); status_case;
        rewrite UpdateMessageStatus_messages, Hu; reflexivity.
Qed.

Lemma dispatch_processing env message m :
  outgoingProcessingMessages (dispatch env message m)
  = delete (ID message) (outgoingProcessingMessages m).
Proof.
  unfold dispatch.
  destruct (inboxStore_Get env (InboxID message)) as [inbox [e|]].
  - destruct (UpdateMessageStatus_frame env (UUID message) MessageStatusFailed
                (delete_processing (ID message) m)) as (-> & _). reflexivity.
  - destruct (attachAttachmentsToMessage env message) as [[e|] message'] eqn:Hatt.
    + apply attach_keeps in Hatt as (-> & -> & _).
      destruct (UpdateMessageStatus_frame env (UUID message) MessageStatusFailed
                  (delete_processing (ID message) m)) as (-> & _). reflexivity.
    + apply attach_keeps in Hatt as (Hi & Hu & _).
      cbn [set_addresses ID UUID set_InReplyTo set_To set_From_].
      destruct (Send inbox (set_addresses env inbox message')); status_case;
        match goal with
        | |- context [UpdateMessageStatus ?a ?b ?c ?d] =>
            destruct (UpdateMessageStatus_frame a b c d) as (-> & _)
        end; rewrite Hi; reflexivity.
Qed.

Lemma dispatch_conversations_summary env message m :
  map (fun c => (CID c, CUUID c, LastMessage c, LastMessageAt c))
    (conversations (db (dispatch env message m)))
  = map (fun c => (CID c, CUUID c, LastMessage c, LastMessageAt c))
      (conversations (db m)).
Proof.
  assert (Hstamp : forall id at_ l,
    map (fun c => (CID c, CUUID c, LastMessage c, LastMessageAt c))
      (map (stamp_first_reply id at_) l)
    = map (fun c => (CID c, CUUID c, LastMessage c, LastMessageAt c)) l).
  { intros id at_ l. rewrite map_map. apply map_ext. intros c.
    unfold stamp_first_reply. case_bool_decide; reflexivity. }
  unfold dispatch.
  destruct (inboxStore_Get env (InboxID message)) as [inbox [e|]].
  - destruct (UpdateMessageStatus_frame env (UUID message) MessageStatusFailed
                (delete_processing (ID message) m)) as (_ & _ & _ & _ & -> & _).
    reflexivity.
  - destruct (attachAttachmentsToMessage env message) as [[e|] message'] eqn:Hatt.
    + match goal with
      | |- context [UpdateMessageStatus ?a ?b ?c ?d] =>
          destruct (UpdateMessageStatus_frame a b c d) as (_ & _ & _ & _ & -> & _)
      end. reflexivity.
    + destruct (Send inbox (set_addresses env inbox message')); status_case;
        rewrite ?Hstamp;
        match goal with
        | |- context [UpdateMessageStatus ?a ?b ?c ?d] =>
            destruct (UpdateMessageStatus_frame a b c d) as (_ & _ & _ & _ & -> & _)
        end; reflexivity.
Qed.

Lemma dispatch_outbox env message m :
  outbox (dispatch env message m) = outbox m \/
  exists sent, outbox (dispatch env message m) = outbox m ++ [sent]
               /\ Content sent = Content message /\ UUID sent = UUID message.
Proof.
  unfold dispatch.
  destruct (inboxStore_Get env (InboxID message)) as [inbox [e|]].
  - left. match goal with
      | |- context [UpdateMessageStatus ?a ?b ?c ?d] =>
          destruct (UpdateMessageStatus_frame a b c d) as (_ & _ & _ & -> & _)
      end. reflexivity.
  - destruct (attachAttachmentsToMessage env message) as [[e|] message'] eqn:Hatt.
    + left. match goal with
      | |- context [UpdateMessageStatus ?a ?b ?c ?d] =>
          destruct (UpdateMessageStatus_frame a b c d) as (_ & _ & _ & -> & _)
      end. reflexivity.
    + right. apply attach_keeps in Hatt as (_ & Hu & Hc & _).
      exists (set_addresses env inbox message').
      split; [|split; [exact Hc|exact Hu]].
      destruct (Send inbox (set_addresses env inbox message')); status_case;
        match goal with
        | |- context [UpdateMessageStatus ?a ?b ?c ?d] =>
            destruct (UpdateMessageStatus_frame a b c d) as (_ & _ & _ & -> & _)
        end; reflexivity.
Qed.

Lemma elem_of_processing_ids (m : Manager) (id : Z) :
  id ∈ getOutgoingProcessingMessageIDs m <-> is_Some (outgoingProcessingMessages m !! id).
Proof.
  unfold getOutgoingProcessingMessageIDs. rewrite list_elem_of_fmap. split.
  - intros ([k v] & -> & Hin). apply elem_of_map_to_list in Hin. eauto.
  - intros [v Hv]. exists (id, v). split; [reflexivity|].
    apply elem_of_map_to_list. exact Hv.
Qed.

Lemma restatus_keeps (status uuid : string) (r : Message) :
  ID (restatus status uuid r) = ID r /\ UUID (restatus status uuid r) = UUID r /\
  Type_ (restatus status uuid r) = Type_ r /\
  Content (restatus status uuid r) = Content r /\
  (UUID r = uuid -> Status (restatus status uuid r) = status) /\
  (UUID r <> uuid -> restatus status uuid r = r).
Proof.
  unfold restatus. case_bool_decide; repeat split; try reflexivity; intros; congruence.
Qed.

Lemma MarkMessageAsPending_ok (env : Env) (uuid : string) (m m' : Manager) :
  MarkMessageAsPending env uuid m = (None, m') ->
  messages (db m') = map (restatus MessageStatusPending uuid) (messages (db m)) /\
  outgoingProcessingMessages m' = outgoingProcessingMessages m.
Proof.
  unfold MarkMessageAsPending.
  pose proof (UpdateMessageStatus_messages env uuid MessageStatusPending m) as Hm.
  pose proof (UpdateMessageStatus_frame env uuid MessageStatusPending m) as Hf.
  cbn zeta in Hf. destruct Hf as (Hp & _).
  unfold UpdateMessageStatus in *.
  destruct (stmt_fails env "update-message-status" [uuid]); [discriminate|].
  intros [= <-]. split; [exact Hm|exact Hp].
Qed.

(** *** Dispatch: failure, the in-flight set and the next scan *)

(** C4 as stated fails.  The pending reply 2 leaves by inbox 2, whose
    Send fails; after its dispatch it is marked failed, and the next scan
    has no candidate. *)
Lemma C4_counterexample : ~ dispatch_claim_as_stated.
Proof.
  intros Hclaim.
  destruct (Hclaim Scenario.env0 (Scenario.reply 2 2 "We are on our way")
              (Scenario.manager (Scenario.db_reply 2) 4 4)) as (_ & _ & r & Hr & _).
  { exists (Scenario.reply 2 2 "We are on our way"). repeat split.
    apply list_elem_of_further, list_elem_of_here. }
  vm_compute in Hr. inversion Hr.
Qed.

(** C4 (amended). If fetching the inbox, attaching the attachments or
    the channel's Send fails, the dispatch worker records the status
    failed, and sent otherwise (unless the update itself fails); in every
    case the id leaves the in-flight set.  A message left failed or sent
    is not a candidate of later scans; it is one again as soon as
    MarkMessageAsPending has reset it. *)
Theorem C4_dispatch_failure_and_in_flight :
  forall (env : Env) (message : Message) (m : Manager),
    let m' := dispatch env message m in
    (dispatch_error env message <> None ->
     dispatch_status env message = MessageStatusFailed) /\
    (stmt_fails env "update-message-status" [UUID message] = false ->
     (forall r, r ∈ messages (db m') -> UUID r = UUID message ->
                Status r = dispatch_status env message) /\
     (forall excluded r, r ∈ GetPendingMessages excluded (db m') ->
                UUID r <> UUID message)) /\
    outgoingProcessingMessages m' !! ID message = None /\
    (forall env2 m'' r,
       MarkMessageAsPending env2 (UUID message) m' = (None, m'') ->
       r ∈ messages (db m) -> ID r = ID message -> UUID r = UUID message ->
       Type_ r = MessageOutgoing ->
       next_scan_candidate message m'').
Proof.
  intros env message m m'. split; [|split; [|split]].
  - unfold dispatch_status. destruct (dispatch_error env message); congruence.
  - intros Hok.
    assert (Hstatus : forall r, r ∈ messages (db m') -> UUID r = UUID message ->
                                Status r = dispatch_status env message).
    { intros r Hr Hu. subst m'. rewrite dispatch_messages, Hok in Hr.
      apply list_elem_of_fmap in Hr as (r0 & -> & _).
      destruct (restatus_keeps (dispatch_status env message) (UUID message) r0)
        as (_ & Hu0 & _ & _ & Hst & _).
      apply Hst. congruence. }
    split; [exact Hstatus|].
    intros excluded r Hr Hu. apply list_elem_of_filter in Hr as [(Hst & _) Hr].
    rewrite (Hstatus r Hr Hu) in Hst. unfold dispatch_status in Hst.
    destruct (dispatch_error env message); discriminate Hst.
  - subst m'. rewrite dispatch_processing. apply lookup_delete_eq.
  - intros env2 m'' r Hmark Hr Hid Hu Hty.
    apply MarkMessageAsPending_ok in Hmark as [Hmsgs Hproc].
    set (st := dispatch_status env message).
    set (r1 := if stmt_fails env "update-message-status" [UUID message] then r
               else restatus st (UUID message) r).
    assert (Hr1 : r1 ∈ messages (db m')).
    { subst m' r1. rewrite dispatch_messages.
      destruct (stmt_fails env _ _); [exact Hr|].
      apply list_elem_of_fmap. exists r. split; [reflexivity|exact Hr]. }
    assert (Hk : ID r1 = ID r /\ UUID r1 = UUID r /\ Type_ r1 = Type_ r).
    { subst r1. destruct (stmt_fails env _ _); [repeat split|].
      destruct (restatus_keeps st (UUID message) r) as (? & ? & ? & _).
      repeat split; assumption. }
    destruct Hk as (Hid1 & Hu1 & Hty1).
    exists (restatus MessageStatusPending (UUID message) r1).
    destruct (restatus_keeps MessageStatusPending (UUID message) r1)
      as (Hid2 & Hu2 & Hty2 & _ & Hst2 & _).
    split; [|congruence].
    apply list_elem_of_filter. split.
    + split; [apply Hst2; congruence|]. split; [congruence|].
      rewrite elem_of_processing_ids, Hproc, Hid2, Hid1, Hid.
      subst m'. rewrite dispatch_processing, lookup_delete_eq.
      intros [? ?]; discriminate.
    + rewrite Hmsgs. apply list_elem_of_fmap. eexists. split; [reflexivity|exact Hr1].
Qed.

(** The run of the counterexample, continued: the Send of inbox 2
    fails, the reply is marked failed and leaves the in-flight set; once
    reset to pending it is the candidate of the next scan. *)
Lemma C4_dispatch_failure_and_in_flight_witness :
  let env := Scenario.env0 in
  let message := Scenario.reply 2 2 "We are on our way" in
  let m := Scenario.manager (Scenario.db_reply 2) 4 4 in
  dispatch_error env message <> None /\
  stmt_fails env "update-message-status" [UUID message] = false /\
  map Status (messages (db (dispatch env message m)))
  = [MessageStatusReceived; MessageStatusFailed] /\
  exists m'', MarkMessageAsPending env (UUID message) (dispatch env message m) = (None, m'')
              /\ next_scan_candidate message m''.
Proof.
  intros env message m.
  assert (Herr : dispatch_error env message <> None) by (vm_compute; discriminate).
  split; [exact Herr|]. split; [reflexivity|]. split; [reflexivity|].
  destruct (C4_dispatch_failure_and_in_flight env message m) as (_ & _ & _ & Hreset).
  eexists. split; [reflexivity|].
  eapply (Hreset env _ message); try reflexivity.
  apply list_elem_of_further, list_elem_of_here.
Defined.

(** *** The scanner *)

Lemma RenderContentInTemplate_cases (env : Env) (inb : Inbox) (message : Message)
    (m : Manager) :
  (renders env inb message = true /\
   RenderContentInTemplate env inb message m = (None, m)) \/
  (renders env inb message = false /\
   exists e, RenderContentInTemplate env inb message m
             = (Some e, (UpdateMessageStatus env (UUID message) MessageStatusFailed m).2)).
Proof.
  unfold renders, RenderContentInTemplate.
  case_bool_decide as Hch; cbn [andb].
  - destruct (template_RenderDefault env (Content message)) as [content [e|]]; cbn.
    + right. split; [reflexivity|]. eexists. reflexivity.
    + left. split; reflexivity.
  - right. split; [reflexivity|]. eexists. reflexivity.
Qed.

(** Whatever the scanner puts in the dispatch queue is a message as the
    store returned it: nothing of the rendering reaches the queue. *)
Lemma push_pending_enqueues (env : Env) (pendingMessages : list Message) :
  forall (m : Manager) (x : Message),
    x ∈ Chan.buf (outgoingMessageQueue (manager_of (push_pending env pendingMessages m))) ->
    x ∈ Chan.buf (outgoingMessageQueue m) \/ x ∈ pendingMessages.
Proof.
  induction pendingMessages as [|message rest IH]; intros m x Hx; [left; exact Hx|].
  cbn [push_pending] in Hx.
  destruct (inboxStore_Get env (InboxID message)) as [inb [e|]].
  - destruct (IH m x Hx); [left|right; apply list_elem_of_further]; assumption.
  - destruct (RenderContentInTemplate_cases env inb message m)
      as [[_ Hr]|[_ [e Hr]]]; rewrite Hr in Hx.
    + unfold Chan.send in Hx. cbn in Hx.
      destruct (Chan.closed (outgoingMessageQueue m)); [left; exact Hx|].
      destruct (Chan.full (outgoingMessageQueue m)); [left; exact Hx|].
      destruct (IH _ x Hx) as [Hq|Hq].
      * cbn in Hq. apply elem_of_app in Hq as [Hq|Hq]; [left; exact Hq|].
        apply list_elem_of_singleton in Hq as ->. right. apply list_elem_of_here.
      * right. apply list_elem_of_further. exact Hq.
    + destruct (IH _ x Hx) as [Hq|Hq].
      * left. destruct (UpdateMessageStatus_frame env (UUID message) MessageStatusFailed m)
          as (_ & <- & _). exact Hq.
      * right. apply list_elem_of_further. exact Hq.
Qed.

(** C1 (the code departs from it). The reply "We are on our way" is
    scanned, queued and dispatched through the e-mail inbox 1.  Its
    body renders to a paragraph, the scanner does call the template, and
    yet Send is handed the body as stored: the rendered text is assigned
    to a copy of the message inside RenderContentInTemplate and lost when
    it returns. *)
Theorem C1_send_receives_unrendered_body :
  let env := Scenario.env0 in
  let m := Scenario.manager (Scenario.db_reply 1) 4 4 in
  exists m1 m2 sent,
    ListenAndDispatchMessages_tick env m = ScanDone m1 /\
    MessageDispatchWorker env m1 = Some m2 /\
    outbox m2 = [sent] /\
    Content sent = "We are on our way" /\
    template_RenderDefault env "We are on our way" = ("<p>We are on our way</p>", None) /\
    map Status (messages (db m2)) = [MessageStatusReceived; MessageStatusSent].
Proof.
  intros env m. do 3 eexists.
  split; [vm_compute; reflexivity|].
  split; [vm_compute; reflexivity|].
  split; [reflexivity|]. repeat split.
Qed.

(** The same on every input: the body handed to Send is the body of the
    message taken from the queue. *)
Lemma dispatch_sends_queued_body (env : Env) (message : Message) (m : Manager) :
  forall sent, sent ∈ outbox (dispatch env message m) ->
    sent ∈ outbox m \/ Content sent = Content message.
Proof.
  intros sent Hs. destruct (dispatch_outbox env message m) as [Ho|(s' & Ho & Hc & _)];
    rewrite Ho in Hs; [left; exact Hs|].
  apply elem_of_app in Hs as [Hs|Hs]; [left; exact Hs|].
  apply list_elem_of_singleton in Hs as ->. right. exact Hc.
Qed.

(** *** The scanner and a full queue *)

(** On a full queue the loop of the scanner either finds nothing to send
    or is suspended at the first message that is sendable. *)
Lemma push_pending_full (env : Env) (pendingMessages : list Message) :
  forall m : Manager,
    Chan.full (outgoingMessageQueue m) = true ->
    Chan.closed (outgoingMessageQueue m) = false ->
    match push_pending env pendingMessages m with
    | ScanDone m' =>
        (forall s, s ∈ pendingMessages -> sendable env s = false) /\
        outgoingProcessingMessages m' = outgoingProcessingMessages m /\
        outgoingMessageQueue m' = outgoingMessageQueue m
    | ScanBlocked m' message rest =>
        exists skipped,
          pendingMessages = skipped ++ message :: rest /\
          (forall s, s ∈ skipped -> sendable env s = false) /\
          sendable env message = true /\
          outgoingProcessingMessages m'
          = <[ID message := ID message]> (outgoingProcessingMessages m) /\
          outgoingMessageQueue m' = outgoingMessageQueue m /\
          (forall r, r ∈ messages (db m) ->
                     (forall s, s ∈ skipped -> UUID s <> UUID r) ->
                     r ∈ messages (db m'))
    | ScanPanic _ => False
    end.
Proof.
  induction pendingMessages as [|message rest IH]; intros m Hfull Hopen.
  - cbn. repeat split. intros s Hs. inversion Hs.
  - cbn [push_pending].
    destruct (inboxStore_Get env (InboxID message)) as [inb [e|]] eqn:Hinb.
    + specialize (IH m Hfull Hopen).
      destruct (push_pending env rest m) as [m'|m' msg rest'|m'].
      * destruct IH as (Hs & Hp & Hq). repeat split; try assumption.
        intros s Hin. apply elem_of_cons in Hin as [->|Hin]; [|apply Hs, Hin].
        unfold sendable. rewrite Hinb. reflexivity.
      * destruct IH as (skipped & -> & Hs & Hm & Hp & Hq & Hdb).
        exists (message :: skipped). repeat split; try assumption.
        -- intros s Hin. apply elem_of_cons in Hin as [->|Hin]; [|apply Hs, Hin].
           unfold sendable. rewrite Hinb. reflexivity.
        -- intros r Hr Hne. apply Hdb; [exact Hr|].
           intros s Hin. apply Hne, list_elem_of_further, Hin.
      * exact IH.
    + destruct (RenderContentInTemplate_cases env inb message m)
        as [[Hren Hr]|[Hren [e Hr]]]; rewrite Hr.
      * unfold Chan.send. cbn. rewrite Hopen, Hfull.
        exists []. repeat split; try assumption.
        -- intros s Hs. inversion Hs.
        -- unfold sendable. rewrite Hinb. exact Hren.
        -- intros r Hin _. exact Hin.
      * pose proof (UpdateMessageStatus_frame env (UUID message) MessageStatusFailed m)
          as Hf. cbn zeta in Hf. destruct Hf as (Hp1 & Hq1 & _).
        pose proof (UpdateMessageStatus_messages env (UUID message) MessageStatusFailed m)
          as Hm1.
        set (m1 := (UpdateMessageStatus env (UUID message) MessageStatusFailed m).2) in *.
        assert (Hkeep : forall r, r ∈ messages (db m) -> UUID message <> UUID r ->
                                  r ∈ messages (db m1)).
        { intros r Hin Hne. rewrite Hm1. destruct (stmt_fails env _ _); [exact Hin|].
          apply list_elem_of_fmap. exists r. split; [|exact Hin].
          symmetry. apply restatus_keeps. congruence. }
        specialize (IH m1). rewrite Hq1 in IH. specialize (IH Hfull Hopen).
        destruct (push_pending env rest m1) as [m'|m' msg rest'|m'].
        -- destruct IH as (Hs & Hp & Hq). repeat split; try congruence.
           intros s Hin. apply elem_of_cons in Hin as [->|Hin]; [|apply Hs, Hin].
           unfold sendable. rewrite Hinb. exact Hren.
        -- destruct IH as (skipped & -> & Hs & Hm & Hp & Hq & Hdb).
           exists (message :: skipped). repeat split; try congruence.
           ++ intros s Hin. apply elem_of_cons in Hin as [->|Hin]; [|apply Hs, Hin].
              unfold sendable. rewrite Hinb. exact Hren.
           ++ intros r Hrm Hne. apply Hdb.
              ** apply Hkeep; [exact Hrm|]. apply Hne, list_elem_of_here.
              ** intros s Hin. apply Hne, list_elem_of_further, Hin.
        -- exact IH.
Qed.

(** C5 as stated fails.  Reply 2 fills the one slot of the queue; the
    tick finds reply 3, puts its id in the in-flight set and is suspended
    in the send. *)
Lemma C5_counterexample : ~ full_queue_claim_as_stated.
Proof.
  intros Hclaim.
  destruct (Hclaim Scenario.env0 Scenario.manager_full eq_refl eq_refl)
    as (m' & Hrun & _).
  vm_compute in Hrun. discriminate Hrun.
Qed.

(** C5 (amended). On a tick that finds the bounded dispatch queue full,
    the scanner is suspended in the send of the first candidate whose
    inbox is found and whose body renders, with that id already in the
    in-flight set; it finishes the tick only if no candidate gets that far.
    Nothing is enqueued and nothing is lost: the suspended message and
    those behind it stay pending in storage (a skipped message of the same
    uuid apart), the ids of those behind it are not in the in-flight set,
    and the suspended message is enqueued once a slot is free. *)
Theorem C5_full_queue_suspends_scanner :
  forall (env : Env) (m : Manager),
    Chan.full (outgoingMessageQueue m) = true ->
    Chan.closed (outgoingMessageQueue m) = false ->
    stmt_fails env "get-pending-messages" [] = false ->
    let pending := GetPendingMessages (getOutgoingProcessingMessageIDs m) (db m) in
    match ListenAndDispatchMessages_tick env m with
    | ScanDone m' =>
        (forall s, s ∈ pending -> sendable env s = false) /\
        outgoingProcessingMessages m' = outgoingProcessingMessages m /\
        outgoingMessageQueue m' = outgoingMessageQueue m
    | ScanBlocked m' message rest =>
        exists skipped,
          pending = skipped ++ message :: rest /\
          (forall s, s ∈ skipped -> sendable env s = false) /\
          sendable env message = true /\
          outgoingMessageQueue m' = outgoingMessageQueue m /\
          outgoingProcessingMessages m' !! ID message = Some (ID message) /\
          (forall x, x ∈ rest -> ID x <> ID message ->
                     outgoingProcessingMessages m' !! ID x = None) /\
          (forall x, x ∈ message :: rest ->
                     (forall s, s ∈ skipped -> UUID s <> UUID x) ->
                     x ∈ messages (db m') /\ Status x = MessageStatusPending) /\
          (forall m'' c,
             Chan.send message (outgoingMessageQueue m'') = Chan.Sent c ->
             Chan.buf c = Chan.buf (outgoingMessageQueue m'') ++ [message] /\
             resume_scan env (ScanBlocked m'' message rest)
             = push_pending env rest (set_outgoingMessageQueue c m''))
    | ScanPanic _ => False
    end.
Proof.
  intros env m Hfull Hopen Hok pending. unfold ListenAndDispatchMessages_tick. rewrite Hok. fold pending.
  pose proof (push_pending_full env pending m Hfull Hopen) as H.
  destruct (push_pending env pending m) as [m'|m' message rest|m']; [exact H| |exact H].
  destruct H as (skipped & Hsplit & Hs & Hm & Hp & Hq & Hdb).
  exists skipped. repeat split; try assumption.
  - rewrite Hp. apply lookup_insert_eq.
  - intros x Hx Hne. rewrite Hp, lookup_insert_ne by congruence.
    assert (Hin : x ∈ pending).
    { rewrite Hsplit. apply elem_of_app. right. apply list_elem_of_further, Hx. }
    apply list_elem_of_filter in Hin as [(_ & _ & Hni) _].
    rewrite elem_of_processing_ids in Hni.
    destruct (outgoingProcessingMessages m !! ID x) eqn:E; [|reflexivity].
    exfalso. apply Hni. eauto.
  - assert (Hin : x ∈ pending) by (rewrite Hsplit; apply elem_of_app; right; exact H).
    apply list_elem_of_filter in Hin as [_ Hin]. apply Hdb; assumption.
  - assert (Hin : x ∈ pending) by (rewrite Hsplit; apply elem_of_app; right; exact H).
    apply list_elem_of_filter in Hin as [(Hst & _) _]. exact Hst.
  - unfold Chan.send in H.
    destruct (Chan.closed (outgoingMessageQueue m'')); [discriminate|].
    destruct (Chan.full (outgoingMessageQueue m'')); [discriminate|].
    injection H as <-. reflexivity.
  - cbn. rewrite H. reflexivity.
Qed.

(** The tick of the counterexample: reply 3 is the suspended message,
    its id is in the in-flight set and its row is still pending; the
    queue still holds reply 2 only. *)
Lemma C5_full_queue_suspends_scanner_witness :
  let env := Scenario.env0 in
  let m := Scenario.manager_full in
  Chan.full (outgoingMessageQueue m) = true /\
  Chan.closed (outgoingMessageQueue m) = false /\
  stmt_fails env "get-pending-messages" [] = false /\
  exists m',
    ListenAndDispatchMessages_tick env m
    = ScanBlocked m' (Scenario.reply 3 1 "Fixed") [] /\
    outgoingProcessingMessages m' !! 3 = Some 3 /\
    Scenario.reply 3 1 "Fixed" ∈ messages (db m').
Proof.
  intros env m. repeat split.
  pose proof (C5_full_queue_suspends_scanner env m eq_refl eq_refl eq_refl) as H.
  cbn zeta in H.
  destruct (ListenAndDispatchMessages_tick env m) as [m'|m' message rest|m'] eqn:Hrun;
    [vm_compute in Hrun; discriminate Hrun| |destruct H].
  destruct H as (skipped & Hsplit & _ & _ & _ & Hin & _ & Hkeep & _).
  assert (Hmsg : message = Scenario.reply 3 1 "Fixed" /\ rest = [])
    by (vm_compute in Hrun; injection Hrun as _ <- <-; split; reflexivity).
  destruct Hmsg as [-> ->].
  assert (Hsk : skipped = []).
  { vm_compute in Hsplit. destruct skipped as [|a [|b l]]; [reflexivity|discriminate..]. }
  subst skipped.
  exists m'. split; [reflexivity|]. split; [exact Hin|].
  apply Hkeep; [apply list_elem_of_here|]. intros s Hs. inversion Hs.
Defined.

(** *** Inserting a message *)

Lemma substring_length_le (n : nat) : forall s : string,
  (String.length (String.substring 0 n s) <= n)%nat.
Proof.
  induction n as [|n IH]; intros [|c s]; cbn; try lia.
  specialize (IH s). lia.
Qed.

Lemma SanitizeAndTruncate_length (env : Env) (content : string) (maxLen : nat) :
  (String.length (SanitizeAndTruncate env content maxLen) <= maxLen)%nat.
Proof. apply substring_length_le. Qed.

Lemma next_message_id_fresh (d : DB) (r : Message) :
  r ∈ messages d -> ID r < next_message_id d.
Proof.
  unfold next_message_id. induction (messages d) as [|x l IH]; intros Hr.
  - inversion Hr.
  - apply elem_of_cons in Hr as [->|Hr]; cbn; [lia|]. specialize (IH Hr). lia.
Qed.

Lemma next_conversation_id_pos (d : DB) : 0 < next_conversation_id d.
Proof.
  unfold next_conversation_id. induction (conversations d) as [|x l IH]; cbn; lia.
Qed.

(** The message as [InsertMessage] passes it to the insert statement. *)
Lemma InsertMessage_cases (env : Env) (message : Message) (m : Manager) :
  forall err message' m', InsertMessage env message m = (err, message', m') ->
    Content message' = Content message /\
    ConversationID message' = ConversationID message /\
    ConversationUUID message' = ConversationUUID message /\
    SourceID message' = SourceID message /\
    Type_ message' = Type_ message /\
    (Private message = true -> Status message' = MessageStatusSent) /\
    automation m' = automation m /\
    outgoingProcessingMessages m' = outgoingProcessingMessages m /\
    ((err <> None /\ messages (db m') = messages (db m) /\
      conversations (db m') = conversations (db m) /\
      stmt_fails env "insert-message" [ConversationUUID message] = true) \/
     (ID message' = next_message_id (db m) /\ CreatedAt message' = db_now env /\
      messages (db m') = messages (db m) ++ [row_of message'] /\
      stmt_fails env "insert-message" [ConversationUUID message] = false /\
      ((err <> None /\ conversations (db m') = conversations (db m)) \/
       (err = None /\
        conversations (db m')
        = map (set_last_message 0 (ConversationUUID message')
                 (SanitizeAndTruncate env (Content message') 45) (CreatedAt message'))
            (conversations (db m)))))).
Proof.
  intros err message' m'. unfold InsertMessage, AddConversationParticipant.
  destruct (Private message) eqn:Hp;
    destruct (bool_decide (Meta _ = "")); cbn;
    destruct (stmt_fails env "insert-message" _) eqn:Hins; cbn;
    try (intros [= <- <- <-]; repeat split; try discriminate;
         left; repeat split; discriminate);
    destruct (stmt_fails env "insert-conversation-participant" _); cbn;
    intros [= <- <- <-]; repeat split; try discriminate;
    right; repeat split; solve [left; split; [discriminate|reflexivity]
                               |right; split; reflexivity].
Qed.

(** C9. A message whose private flag is set is given the status sent by
    InsertMessage before the insert statement runs, whatever status the
    caller supplied: the stored row is not pending, and the scan of
    pending messages never returns it. *)
Theorem C9_private_message_stored_as_sent :
  forall (env : Env) (message : Message) (m : Manager) err message' m',
    Private message = true ->
    InsertMessage env message m = (err, message', m') ->
    Status message' = MessageStatusSent /\
    (stmt_fails env "insert-message" [ConversationUUID message] = false ->
     messages (db m') = messages (db m) ++ [row_of message'] /\
     Status (row_of message') = MessageStatusSent /\
     Private (row_of message') = true) /\
    (forall excluded r, r ∈ GetPendingMessages excluded (db m') ->
       r ∈ GetPendingMessages excluded (db m) /\ ID r < next_message_id (db m)).
Proof.
  intros env message m err message' m' Hp Hrun.
  assert (Hpriv : Private (row_of message') = true).
  { revert Hrun. unfold InsertMessage. rewrite Hp.
    destruct (bool_decide (Meta _ = "")); cbn;
      destruct (stmt_fails env "insert-message" _); cbn;
      try (intros [= <- <- <-]; exact Hp);
      destruct (AddConversationParticipant env _ _ _) as [[e|] m2];
      intros [= <- <- <-]; exact Hp. }
  destruct (InsertMessage_cases env message m err message' m' Hrun)
    as (_ & _ & _ & _ & _ & Hst & _ & _ & Hdb).
  specialize (Hst Hp). split; [exact Hst|]. split.
  - intros Hok. destruct Hdb as [(_ & _ & _ & Hko)|(_ & _ & Hm & _)]; [congruence|].
    repeat split; assumption.
  - intros excluded r Hr. apply list_elem_of_filter in Hr as [Hcond Hr].
    assert (Hold : r ∈ messages (db m)).
    { destruct Hdb as [(_ & Hm & _)|(_ & _ & Hm & _)]; rewrite Hm in Hr; [exact Hr|].
      apply elem_of_app in Hr as [Hr|Hr]; [exact Hr|].
      apply list_elem_of_singleton in Hr as ->.
      destruct Hcond as (Hpend & _). change (Status message' = MessageStatusPending) in Hpend.
      rewrite Hst in Hpend. discriminate. }
    split; [|apply next_message_id_fresh; exact Hold].
    apply list_elem_of_filter. split; assumption.
Qed.

(** The note of the scenario is handed over as pending; it is stored as
    sent, and the next scan finds nothing. *)
Lemma C9_private_message_stored_as_sent_witness :
  let env := Scenario.env0 in
  let m := Scenario.manager Scenario.db_thread 4 4 in
  Private Scenario.note = true /\ Status Scenario.note = MessageStatusPending /\
  exists message' m',
    InsertMessage env Scenario.note m = (None, message', m') /\
    map Status (messages (db m')) = [MessageStatusReceived; MessageStatusSent] /\
    GetPendingMessages [] (db m') = [].
Proof.
  intros env m. split; [reflexivity|]. split; [reflexivity|].
  destruct (InsertMessage env Scenario.note m) as [[err message'] m'] eqn:Hrun.
  destruct (C9_private_message_stored_as_sent env Scenario.note m err message' m'
              eq_refl Hrun) as (_ & Hstored & _).
  destruct (Hstored eq_refl) as (Hm & _).
  vm_compute in Hrun. injection Hrun as <- <- <-.
  do 2 eexists. split; [reflexivity|]. split; reflexivity.
Defined.

(** *** Finding or creating the conversation *)

Lemma findOrCreateConversation_cases (env : Env) (in_ : Message) (inboxID contactID : Z)
    (m : Manager) :
  forall isNew err in' m1,
    findOrCreateConversation env in_ inboxID contactID m = (isNew, err, in', m1) ->
    messages (db m1) = messages (db m) /\
    automation m1 = automation m /\
    ((err <> None /\ in' = in_ /\ conversations (db m1) = conversations (db m)) \/
     (isNew = true /\ err = None /\
      (findConversationID env (thread_ids in_) m).1 = 0 /\
      exists c,
        conversations (db m1) = conversations (db m) ++ [c] /\
        CID c = next_conversation_id (db m) /\
        CSubject c = Subject in_ /\
        LastMessage c = SanitizeAndTruncate env (Content in_) maxLastMessageLen /\
        LastMessageAt c = now env /\
        in' = set_ConversationID_ConversationUUID (CID c) (CUUID c) in_) \/
     (isNew = false /\ err = None /\ m1 = m /\
      exists c,
        (findConversationID env (thread_ids in_) m).1 = CID c /\
        CID c <> 0 /\ c ∈ conversations (db m) /\
        List.find (fun c' => bool_decide (CID c' = CID c)) (conversations (db m)) = Some c /\
        in' = set_ConversationID_ConversationUUID (CID c) (CUUID c) in_)).
Proof.
  intros isNew err in' m1. unfold findOrCreateConversation.
  destruct (findConversationID env (thread_ids in_) m) as [cid e] eqn:Hfind.
  destruct (fatal e) eqn:Hfatal.
  { intros [= <- <- <- <-]. repeat split. left. repeat split.
    destruct e; [discriminate|discriminate Hfatal]. }
  destruct (Z.eqb_spec cid 0) as [->|Hne].
  - unfold CreateConversation.
    destruct (stmt_fails env "insert-conversation" []).
    + cbn. intros [= <- <- <- <-]. repeat split. left. repeat split. discriminate.
    + pose proof (next_conversation_id_pos (db m)) as Hpos.
      destruct (Z.eqb_spec (next_conversation_id (db m)) 0) as [H0|_]; [lia|].
      cbn. intros [= <- <- <- <-]. repeat split. right. left. repeat split.
      eexists. repeat split.
  - unfold GetConversationUUID.
    destruct (stmt_fails env "get-conversation-uuid" []).
    + intros [= <- <- <- <-]. repeat split. left. repeat split. discriminate.
    + destruct (List.find (fun c => bool_decide (CID c = cid)) (conversations (db m)))
        as [c|] eqn:Hc.
      * intros [= <- <- <- <-]. repeat split. right. right. repeat split.
        apply find_some in Hc as Hc'. destruct Hc' as [Hin Hid].
        apply bool_decide_eq_true_1 in Hid. subst cid.
        exists c. repeat split; try assumption.
        apply list_elem_of_In. exact Hin.
      * intros [= <- <- <- <-]. repeat split. left. repeat split. discriminate.
Qed.

Lemma set_last_message_by_uuid (uuid lastMessage : string) (at_ : Z) (c : Conversation) :
  CID (set_last_message 0 uuid lastMessage at_ c) = CID c /\
  CUUID (set_last_message 0 uuid lastMessage at_ c) = CUUID c /\
  (CUUID c = uuid ->
   LastMessage (set_last_message 0 uuid lastMessage at_ c) = lastMessage /\
   LastMessageAt (set_last_message 0 uuid lastMessage at_ c) = at_) /\
  (CUUID c <> uuid -> set_last_message 0 uuid lastMessage at_ c = c).
Proof.
  unfold set_last_message. cbn. case_bool_decide; repeat split; try reflexivity;
    intros; congruence.
Qed.

(** *** The summary of a conversation *)

(** When the insert statement runs, InsertMessage returns nil exactly
    when the sender is added as a participant. *)
Lemma InsertMessage_participant (env : Env) (message : Message) (m : Manager) :
  forall err message' m', InsertMessage env message m = (err, message', m') ->
    (stmt_fails env "insert-message" [ConversationUUID message] = true -> err <> None) /\
    (stmt_fails env "insert-message" [ConversationUUID message] = false ->
     (stmt_fails env "insert-conversation-participant" [ConversationUUID message] = true ->
      err <> None) /\
     (stmt_fails env "insert-conversation-participant" [ConversationUUID message] = false ->
      err = None)).
Proof.
  intros err message' m'. unfold InsertMessage, AddConversationParticipant.
  destruct (Private message); destruct (bool_decide (Meta _ = "")); cbn;
    destruct (stmt_fails env "insert-message" _); cbn;
    try (destruct (stmt_fails env "insert-conversation-participant" _); cbn);
    intros [= <- <- <-]; repeat split; intros; congruence.
Qed.

(** C8 as stated fails.  The note of the scenario is inserted in
    conversation 1 while the sender cannot be added as a participant: the
    row is stored, InsertMessage returns an error, and the summary of
    conversation 1 is still that of the first mail. *)
Lemma C8_counterexample : ~ summary_claim_as_stated.
Proof.
  intros Hclaim.
  pose (m := Scenario.manager Scenario.db_thread 4 4).
  destruct (InsertMessage Scenario.env_no_participants Scenario.note m)
    as [[err message'] m'] eqn:Hrun.
  specialize (Hclaim Scenario.env_no_participants Scenario.note m err message' m' Hrun).
  vm_compute in Hrun. injection Hrun as <- <- <-.
  destruct (Hclaim eq_refl Scenario.conversation1 (list_elem_of_here _ _) eq_refl)
    as [Hsummary _].
  vm_compute in Hsummary. discriminate Hsummary.
Qed.

(** C8 (amended). InsertMessage returns nil exactly when the insert
    statement and the addition of the sender as participant both succeed,
    and then the summary of the owning conversation is
    SanitizeAndTruncate of the body with 45, stamped with the creation time
    of the message.  When it returns an error no summary changes: in
    particular, when the row is stored and adding the participant fails,
    the summary stays that of an earlier message.  A conversation created
    for a message is seeded with the same truncation of that message and
    the current time; sending a message does not touch any summary. *)
Theorem C8_last_message_follows_insertions :
  forall (env : Env) (message : Message) (m : Manager) err message' m',
    InsertMessage env message m = (err, message', m') ->
    let summary := SanitizeAndTruncate env (Content message) 45 in
    (String.length summary <= 45)%nat /\
    (err = None <->
     stmt_fails env "insert-message" [ConversationUUID message] = false /\
     stmt_fails env "insert-conversation-participant" [ConversationUUID message] = false) /\
    (err = None ->
     messages (db m') = messages (db m) ++ [row_of message'] /\
     CreatedAt message' = db_now env /\
     (forall c', c' ∈ conversations (db m') -> CUUID c' = ConversationUUID message ->
        LastMessage c' = summary /\ LastMessageAt c' = CreatedAt message') /\
     (forall c, c ∈ conversations (db m) -> CUUID c = ConversationUUID message ->
        exists c', c' ∈ conversations (db m') /\ CID c' = CID c /\ CUUID c' = CUUID c /\
                   LastMessage c' = summary /\ LastMessageAt c' = CreatedAt message')) /\
    (err <> None -> conversations (db m') = conversations (db m)) /\
    (stmt_fails env "insert-message" [ConversationUUID message] = false ->
     stmt_fails env "insert-conversation-participant" [ConversationUUID message] = true ->
     err <> None /\
     messages (db m') = messages (db m) ++ [row_of message'] /\
     conversations (db m') = conversations (db m)) /\
    (forall in_ inboxID contactID m0,
       (findConversationID env (thread_ids in_) m0).1 = 0 ->
       fatal (findConversationID env (thread_ids in_) m0).2 = false ->
       stmt_fails env "insert-conversation" [] = false ->
       exists in' m1 c,
         findOrCreateConversation env in_ inboxID contactID m0 = (true, None, in', m1) /\
         conversations (db m1) = conversations (db m0) ++ [c] /\
         CID c = ConversationID in' /\ CUUID c = ConversationUUID in' /\
         CSubject c = Subject in_ /\
         LastMessage c = SanitizeAndTruncate env (Content in_) 45 /\
         (String.length (LastMessage c) <= 45)%nat /\
         LastMessageAt c = now env) /\
    (forall in_ inboxID contactID m0 in' m1,
       findOrCreateConversation env in_ inboxID contactID m0 = (true, None, in', m1) ->
       exists c, conversations (db m1) = conversations (db m0) ++ [c] /\
         CID c = ConversationID in' /\ CUUID c = ConversationUUID in' /\
         CSubject c = Subject in_ /\
         LastMessage c = SanitizeAndTruncate env (Content in_) 45 /\
         (String.length (LastMessage c) <= 45)%nat /\
         LastMessageAt c = now env) /\
    (forall sent m0,
       map (fun c => (CID c, CUUID c, LastMessage c, LastMessageAt c))
         (conversations (db (dispatch env sent m0)))
       = map (fun c => (CID c, CUUID c, LastMessage c, LastMessageAt c))
           (conversations (db m0))).
Proof.
  intros env message m err message' m' Hrun summary.
  destruct (InsertMessage_cases env message m err message' m' Hrun)
    as (Hc & _ & Hu & _ & _ & _ & _ & _ & Hdb).
  destruct (InsertMessage_participant env message m err message' m' Hrun)
    as (Hins & Hpart).
  assert (Hseed : forall in_ inboxID contactID m0 in' m1,
            findOrCreateConversation env in_ inboxID contactID m0 = (true, None, in', m1) ->
            exists c, conversations (db m1) = conversations (db m0) ++ [c] /\
              CID c = ConversationID in' /\ CUUID c = ConversationUUID in' /\
              CSubject c = Subject in_ /\
              LastMessage c = SanitizeAndTruncate env (Content in_) 45 /\
              (String.length (LastMessage c) <= 45)%nat /\
              LastMessageAt c = now env).
  { intros in_ inboxID contactID m0 in' m1 Hfind.
    destruct (findOrCreateConversation_cases env in_ inboxID contactID m0 _ _ _ _ Hfind)
      as (_ & _ & [(Hne & _)|[(_ & _ & _ & c & Hcs & Hid & Hsub & Hlm & Hlt & ->)
                             |(Hnew & _)]]); [congruence| |discriminate].
    exists c. repeat split; try assumption.
    rewrite Hlm. apply SanitizeAndTruncate_length. }
  split; [apply SanitizeAndTruncate_length|].
  split; [|split; [|split; [|split; [|split; [|split; [exact Hseed|]]]]]].
  - split.
    + intros ->. destruct (stmt_fails env "insert-message" _) eqn:Hi;
        [exfalso; apply Hins; reflexivity|].
      split; [reflexivity|]. destruct (Hpart eq_refl) as [Hko _].
      destruct (stmt_fails env "insert-conversation-participant" _);
        [exfalso; apply Hko; reflexivity|reflexivity].
    + intros [Hi Hp]. apply (Hpart Hi). exact Hp.
  - intros ->.
    destruct Hdb as [(Hne & _)|(_ & Hat & Hm & _ & Hconv)]; [congruence|].
    destruct Hconv as [(Hne & _)|(_ & Hconv)]; [congruence|].
    rewrite Hc, Hu in Hconv. fold summary in Hconv.
    split; [exact Hm|]. split; [exact Hat|]. split.
    + intros c' Hin Huuid. rewrite Hconv in Hin.
      apply list_elem_of_fmap in Hin as (c & -> & _).
      destruct (set_last_message_by_uuid (ConversationUUID message) summary
                  (CreatedAt message') c) as (_ & Hu' & Hset & _).
      apply Hset. congruence.
    + intros c Hin Huuid.
      destruct (set_last_message_by_uuid (ConversationUUID message) summary
                  (CreatedAt message') c) as (Hid & Hu' & Hset & _).
      destruct (Hset Huuid) as [Hl Ht].
      eexists. split; [rewrite Hconv; apply list_elem_of_fmap; eexists; split;
                       [reflexivity|exact Hin]|].
      repeat split; assumption.
  - intros Herr.
    destruct Hdb as [(_ & _ & Hcs & _)|(_ & _ & _ & _ & [(_ & Hcs)|(Hnil & _)])];
      [exact Hcs|exact Hcs|congruence].
  - intros Hi Hp. destruct (Hpart Hi) as [Hko _]. specialize (Hko Hp).
    split; [exact Hko|].
    destruct Hdb as [(_ & _ & _ & Hi')|(_ & _ & Hm & _ & [(_ & Hcs)|(Hnil & _)])];
      [congruence| |congruence].
    split; assumption.
  - intros in_ inboxID contactID m0 Hzero Hfatal Hstmt.
    destruct (findOrCreateConversation env in_ inboxID contactID m0)
      as [[[isNew e1] in'] m1] eqn:Hfind.
    assert (Hres : isNew = true /\ e1 = None).
    { revert Hfind. unfold findOrCreateConversation.
      destruct (findConversationID env (thread_ids in_) m0) as [cid e].
      cbn [fst snd] in Hzero, Hfatal. subst cid. rewrite Hfatal. cbn [Z.eqb].
      unfold CreateConversation. rewrite Hstmt.
      pose proof (next_conversation_id_pos (db m0)) as Hpos.
      destruct (Z.eqb_spec (next_conversation_id (db m0)) 0) as [H0|_]; [lia|].
      cbn. intros [= <- <- _ _]. split; reflexivity. }
    destruct Hres as [-> ->].
    destruct (Hseed _ _ _ _ _ _ Hfind) as (c & Hrest).
    exists in', m1, c. split; [reflexivity|exact Hrest].
  - intros sent m0. apply dispatch_conversations_summary.
Qed.

(** The note of the scenario is inserted in conversation 1: the summary
    is its first 45 characters and its creation time.  A mail without
    thread ids opens conversation 2, seeded with its subject and body. *)
Lemma C8_last_message_follows_insertions_witness :
  let env := Scenario.env0 in
  let m := Scenario.manager Scenario.db_thread 4 4 in
  exists message' m',
    InsertMessage env Scenario.note m = (None, message', m') /\
    map (fun c => (LastMessage c, LastMessageAt c)) (conversations (db m'))
    = [("The customer called twice today about the pri", 1001)] /\
    exists in' m1,
      findOrCreateConversation env
        (im_Message (Scenario.mail "<n@mail>" [] "" "a new problem")) 1 7 m
      = (true, None, in', m1) /\
      map (fun c => (CID c, CSubject c, LastMessage c, LastMessageAt c))
        (conversations (db m1))
      = [(1, "Help", "My printer is on fire", 800); (2, "Help", "a new problem", 1000)].
Proof.
  intros env m.
  destruct (InsertMessage env Scenario.note m) as [[err message'] m'] eqn:Hrun.
  destruct (C8_last_message_follows_insertions env Scenario.note m err message' m' Hrun)
    as (_ & Hnil & _ & _ & _ & Hseed & _).
  assert (Herr : err = None) by (apply Hnil; split; reflexivity). subst err.
  destruct (Hseed (im_Message (Scenario.mail "<n@mail>" [] "" "a new problem")) 1 7 m
              eq_refl eq_refl eq_refl) as (in' & m1 & c & Hfind & _).
  exists message', m'. split; [reflexivity|]. split.
  - vm_compute in Hrun. injection Hrun as <- <-. reflexivity.
  - exists in', m1. split; [exact Hfind|].
    vm_compute in Hfind. injection Hfind as <- <-. reflexivity.
Defined.

(** *** Processing an incoming message *)

Lemma findConversationID_found (env : Env) (ids : list string) (m : Manager) (cid : Z) :
  (findConversationID env ids m).1 = cid -> cid <> 0 ->
  findConversationID env ids m = (cid, None) /\
  MessageExistsBySourceID ids (db m) = Some cid /\
  exists r, r ∈ messages (db m) /\ source_matches ids r = true /\ ConversationID r = cid.
Proof.
  unfold findConversationID, MessageExistsBySourceID.
  destruct ids as [|i ids]; [cbn; congruence|].
  destruct (stmt_fails env "message-exists-by-source-id" (i :: ids)); [cbn; congruence|].
  destruct (List.find (source_matches (i :: ids)) (messages (db m))) as [r|] eqn:Hf;
    cbn; [|congruence].
  intros <- _. repeat split. apply find_some in Hf as [Hin Hm].
  exists r. repeat split; [apply list_elem_of_In; exact Hin|exact Hm].
Qed.

Lemma MessageExistsBySourceID_nil (d : DB) : MessageExistsBySourceID [] d = None.
Proof.
  unfold MessageExistsBySourceID. induction (messages d) as [|r l IH]; [reflexivity|].
  cbn. unfold source_matches at 1. rewrite bool_decide_eq_false_2 by apply not_elem_of_nil.
  rewrite andb_false_r. exact IH.
Qed.

Lemma findConversationID_lookup (env : Env) (ids : list string) (m : Manager) :
  stmt_fails env "message-exists-by-source-id" ids = false ->
  findConversationID env ids m
  = match MessageExistsBySourceID ids (db m) with
    | Some cid => (cid, None)
    | None => (0, Some ErrConversationNotFound)
    end.
Proof.
  intros Hok. destruct ids as [|i ids].
  - rewrite MessageExistsBySourceID_nil. reflexivity.
  - unfold findConversationID. rewrite Hok. reflexivity.
Qed.

Lemma findConversationID_not_fatal (env : Env) (ids : list string) (m : Manager) :
  fatal (findConversationID env ids m).2 = false ->
  findConversationID env ids m
  = match MessageExistsBySourceID ids (db m) with
    | Some cid => (cid, None)
    | None => (0, Some ErrConversationNotFound)
    end.
Proof.
  destruct ids as [|i ids].
  - rewrite MessageExistsBySourceID_nil. reflexivity.
  - unfold findConversationID.
    destruct (stmt_fails env "message-exists-by-source-id" (i :: ids)); [discriminate|].
    reflexivity.
Qed.

Lemma processIncomingMessage_cases (env : Env) (in_ : IncomingMessage) (m : Manager) :
  forall err m', processIncomingMessage env in_ m = (err, m') ->
    let u := contactStore_Upsert env (im_Contact in_) in
    let msg := set_SenderID u.1 (im_Message in_) in
    let dup := findConversationID env [String_ (SourceID (im_Message in_))] m in
    (u.2 <> None /\ err = u.2 /\ m' = m) \/
    (u.2 = None /\ fatal dup.2 = true /\ err = dup.2 /\ m' = m) \/
    (u.2 = None /\ fatal dup.2 = false /\ 0 < dup.1 /\ err = None /\ m' = m) \/
    (u.2 = None /\ fatal dup.2 = false /\ dup.1 <= 0 /\
     exists isNew e1 in1 m1,
       findOrCreateConversation env msg (im_InboxID in_) u.1 m = (isNew, e1, in1, m1) /\
       ((e1 <> None /\ err = e1 /\ m' = m1) \/
        (e1 = None /\
         exists e2 in2 m2,
           InsertMessage env in1 m1 = (e2, in2, m2) /\
           ((e2 <> None /\ err = e2 /\ m' = m2) \/
            (e2 = None /\ err = None /\
             m' = if isNew
                  then set_automation
                         (Automation.EvaluateNewConversationRules
                            (ConversationUUID in2) (automation m2)) m2
                  else m2))))).
Proof.
  intros err m'. unfold processIncomingMessage.
  destruct (contactStore_Upsert env (im_Contact in_)) as [senderID [e|]]; cbn [fst snd].
  { intros [= <- <-]. left. repeat split. discriminate. }
  change (SourceID (set_SenderID senderID (im_Message in_)))
    with (SourceID (im_Message in_)).
  change (SenderID (set_SenderID senderID (im_Message in_))) with senderID.
  destruct (findConversationID env [String_ (SourceID (im_Message in_))] m)
    as [cid e] eqn:Hdup; cbn [fst snd].
  destruct (fatal e) eqn:Hfatal.
  { intros [= <- <-]. right. left. repeat split. }
  destruct (Z.ltb_spec 0 cid) as [Hpos|Hnpos].
  { intros [= <- <-]. right. right. left. repeat split. exact Hpos. }
  intros Hrun. right. right. right. repeat split; [exact Hnpos|].
  destruct (findOrCreateConversation env (set_SenderID senderID (im_Message in_))
              (im_InboxID in_) senderID m) as [[[isNew e1] in1] m1].
  exists isNew, e1, in1, m1. split; [reflexivity|].
  destruct e1 as [e1|].
  { injection Hrun as <- <-. left. repeat split. discriminate. }
  right. split; [reflexivity|].
  destruct (InsertMessage env in1 m1) as [[e2 in2] m2].
  exists e2, in2, m2. split; [reflexivity|].
  destruct e2 as [e2|].
  { injection Hrun as <- <-. left. repeat split. discriminate. }
  right. unfold uploadMessageAttachments in Hrun.
  destruct isNew; injection Hrun as <- <-; repeat split.
Qed.

Lemma MessageExistsBySourceID_Some (ids : list string) (d : DB) (cid : Z) :
  MessageExistsBySourceID ids d = Some cid ->
  exists r, r ∈ messages d /\ source_matches ids r = true /\ ConversationID r = cid.
Proof.
  unfold MessageExistsBySourceID.
  destruct (List.find (source_matches ids) (messages d)) as [r|] eqn:Hf; [|discriminate].
  intros [= <-]. apply find_some in Hf as [Hin Hm].
  exists r. repeat split; [apply list_elem_of_In; exact Hin|exact Hm].
Qed.

Lemma find_snoc_fresh {A : Type} (f : A -> bool) (l : list A) (x : A) :
  List.find f l = None -> f x = true ->
  List.find f (l ++ [x]) = Some x /\ filter (fun a => f a = true) (l ++ [x]) = [x].
Proof.
  intros Hnone Hx. induction l as [|a l IH].
  - split; [cbn; rewrite Hx; reflexivity|].
    change ([] ++ [x]) with [x]. rewrite filter_cons_True by exact Hx. reflexivity.
  - cbn [List.find] in Hnone. destruct (f a) eqn:Ha; [discriminate|].
    destruct (IH Hnone) as [IH1 IH2]. split.
    + cbn. rewrite Ha. exact IH1.
    + change ((a :: l) ++ [x]) with (a :: (l ++ [x])).
      rewrite filter_cons_False by congruence. exact IH2.
Qed.

Lemma InsertMessage_succeeds (env : Env) (message : Message) (m : Manager) :
  (forall stmt args, stmt_fails env stmt args = false) ->
  (InsertMessage env message m).1.1 = None.
Proof.
  intros Hok. unfold InsertMessage, AddConversationParticipant. rewrite !Hok.
  reflexivity.
Qed.

Lemma findOrCreateConversation_attach (env : Env) (in_ : Message) (inboxID contactID : Z)
    (m : Manager) (cid : Z) (c : Conversation) :
  (forall stmt args, stmt_fails env stmt args = false) ->
  MessageExistsBySourceID (thread_ids in_) (db m) = Some cid -> cid <> 0 ->
  List.find (fun c' => bool_decide (CID c' = cid)) (conversations (db m)) = Some c ->
  findOrCreateConversation env in_ inboxID contactID m
  = (false, None, set_ConversationID_ConversationUUID cid (CUUID c) in_, m).
Proof.
  intros Hok Hfind Hne Hc. unfold findOrCreateConversation.
  rewrite findConversationID_lookup by apply Hok. rewrite Hfind. cbn [fatal].
  destruct (Z.eqb_spec cid 0) as [H0|_]; [contradiction|].
  unfold GetConversationUUID. rewrite Hok, Hc. reflexivity.
Qed.

Lemma set_last_message_ids (id : Z) (uuid lastMessage : string) (at_ : Z)
    (l : list Conversation) :
  map CID (map (set_last_message id uuid lastMessage at_) l) = map CID l.
Proof.
  rewrite map_map. apply map_ext. intros c. unfold set_last_message.
  destruct (if (0 <? id)%Z then _ else _); reflexivity.
Qed.

(** *** Duplicates *)

(** C2. When a stored message already carries the source id of an
    incoming message, processIncomingMessage stores nothing and creates
    nothing, and returns nil (the contact upsert, which comes first, and
    the lookup having succeeded).  Hence a message processed a second
    time is discarded: processed twice, a message with a source id that
    the store had not seen ends up stored exactly once, with at most one
    conversation created. *)
Theorem C2_duplicate_is_discarded :
  forall (env : Env) (in_ : IncomingMessage) (m : Manager),
    let src := String_ (SourceID (im_Message in_)) in
    (forall cid, MessageExistsBySourceID [src] (db m) = Some cid -> 0 < cid ->
       (processIncomingMessage env in_ m).2 = m /\
       ((contactStore_Upsert env (im_Contact in_)).2 = None ->
        stmt_fails env "message-exists-by-source-id" [src] = false ->
        processIncomingMessage env in_ m = (None, m))) /\
    (forall m1 env2,
       wf_sources (db m) ->
       Valid (SourceID (im_Message in_)) = true ->
       processIncomingMessage env in_ m = (None, m1) ->
       (contactStore_Upsert env2 (im_Contact in_)).2 = None ->
       stmt_fails env2 "message-exists-by-source-id" [src] = false ->
       processIncomingMessage env2 in_ m1 = (None, m1) /\
       (List.find (source_matches [src]) (messages (db m)) = None ->
        length (filter (fun r => source_matches [src] r = true) (messages (db m1))) = 1%nat /\
        length (messages (db m1)) = S (length (messages (db m))) /\
        (length (conversations (db m1)) <= S (length (conversations (db m))))%nat)).
Proof.
  intros env in_ m src.
  assert (Hdiscard : forall envx mx cid,
            (contactStore_Upsert envx (im_Contact in_)).2 = None ->
            stmt_fails envx "message-exists-by-source-id" [src] = false ->
            MessageExistsBySourceID [src] (db mx) = Some cid -> 0 < cid ->
            processIncomingMessage envx in_ mx = (None, mx)).
  { intros envx mx cid Hu Hok Hfound Hpos. unfold processIncomingMessage.
    destruct (contactStore_Upsert envx (im_Contact in_)) as [sid e]. cbn in Hu. subst e.
    change (SourceID (set_SenderID sid (im_Message in_))) with (SourceID (im_Message in_)).
    fold src. rewrite findConversationID_lookup by exact Hok. rewrite Hfound.
    cbn [fatal]. destruct (Z.ltb_spec 0 cid); [reflexivity|lia]. }
  split.
  - intros cid Hfound Hpos. split; [|intros Hu Hok; eapply Hdiscard; eassumption].
    destruct (processIncomingMessage env in_ m) as [err m'] eqn:Hrun.
    apply processIncomingMessage_cases in Hrun; cbn zeta in Hrun. fold src in Hrun.
    destruct Hrun as [(_ & _ & ->)|[(_ & _ & _ & ->)|[(_ & _ & _ & _ & ->)
                     |(_ & Hnf & Hle & _)]]]; try reflexivity.
    rewrite (findConversationID_not_fatal _ _ _ Hnf), Hfound in Hle. cbn in Hle. lia.
  - intros m1 env2 Hwf Hvalid Hrun Hu2 Hok2.
    apply processIncomingMessage_cases in Hrun; cbn zeta in Hrun. fold src in Hrun.
    destruct Hrun as [(Hne & He & _)|[(_ & Hf & He & _)|[(_ & Hnf & Hpos & _ & ->)
                     |(_ & Hnf & Hle & isNew & e1 & in1 & m0 & Hfoc & Hrest)]]].
    + congruence.
    + rewrite <- He in Hf. discriminate Hf.
    + rewrite (findConversationID_not_fatal _ _ _ Hnf) in Hpos.
      destruct (MessageExistsBySourceID [src] (db m)) as [cid|] eqn:Hfound;
        cbn in Hpos; [|lia].
      split; [eapply Hdiscard; eassumption|].
      intros Hnone. unfold MessageExistsBySourceID in Hfound. rewrite Hnone in Hfound.
      discriminate Hfound.
    + (* the first run stored the message *)
      assert (Hnone : List.find (source_matches [src]) (messages (db m)) = None).
      { rewrite (findConversationID_not_fatal _ _ _ Hnf) in Hle.
        destruct (MessageExistsBySourceID [src] (db m)) as [cid|] eqn:Hfound.
        - apply MessageExistsBySourceID_Some in Hfound as (r & Hin & Hm & Hc).
          unfold source_matches in Hm. apply andb_true_iff in Hm as [Hv _].
          specialize (Hwf r Hin Hv). cbn in Hle. lia.
        - unfold MessageExistsBySourceID in Hfound.
          destruct (List.find (source_matches [src]) (messages (db m)));
            [discriminate|reflexivity]. }
      destruct Hrest as [(Hne & He & _)|(-> & e2 & in2 & m2 & Hins & Hrest)];
        [congruence|].
      destruct Hrest as [(Hne & He & _)|(-> & _ & Hm1)]; [congruence|].
      apply findOrCreateConversation_cases in Hfoc as (Hmsgs0 & _ & Hfoc).
      apply InsertMessage_cases in Hins
        as (_ & Hcid2 & _ & Hsrc2 & _ & _ & _ & _ & Hins).
      destruct Hins as [(Hne & _)|(_ & _ & Hmsgs2 & _ & Hconv2)]; [congruence|].
      destruct Hconv2 as [(Hne & _)|(_ & Hconv2)]; [congruence|].
      assert (Hdb : db m1 = db m2) by (subst m1; destruct isNew; reflexivity).
      assert (Hin1 : 0 < ConversationID in1 /\ SourceID in1 = SourceID (im_Message in_)
                     /\ (length (conversations (db m0))
                         <= S (length (conversations (db m))))%nat).
      { destruct Hfoc as [(Hne & _)|[(_ & _ & _ & c & Hcs & Hid & _ & _ & _ & ->)
                                    |(_ & _ & -> & c & Hlook & Hne & _ & _ & ->)]];
          [congruence| |].
        - cbn. rewrite Hid, Hcs, length_app. cbn.
          pose proof (next_conversation_id_pos (db m)). repeat split; lia.
        - cbn. split; [|split; [reflexivity|lia]].
          destruct (findConversationID_found env _ m (CID c) Hlook Hne)
            as (_ & _ & r & Hin & Hm & Hc).
          unfold source_matches in Hm. apply andb_true_iff in Hm as [Hv _].
          specialize (Hwf r Hin Hv). lia. }
      destruct Hin1 as (Hpos1 & Hsrc1 & Hlen1).
      assert (Hrow : source_matches [src] (row_of in2) = true).
      { unfold source_matches. cbn [row_of SourceID]. rewrite Hsrc2, Hsrc1, Hvalid.
        fold src. cbn. apply bool_decide_eq_true_2, list_elem_of_here. }
      rewrite Hmsgs0 in Hmsgs2.
      destruct (find_snoc_fresh _ _ (row_of in2) Hnone Hrow) as [Hfind Hfilter].
      split.
      * apply (Hdiscard env2 m1 (ConversationID in2) Hu2 Hok2).
        -- unfold MessageExistsBySourceID. rewrite Hdb, Hmsgs2, Hfind. reflexivity.
        -- rewrite Hcid2. exact Hpos1.
      * intros _. rewrite Hdb, Hmsgs2, Hfilter, length_app, Hconv2, length_map.
        cbn. repeat split; lia.
Qed.

(** The contact is upserted before the duplicate check: with a contact
    store that is down, the duplicate <a@mail> is still not stored, but
    the caller gets the error of the upsert. *)
Lemma contact_upsert_precedes_duplicate_check :
  let m := Scenario.manager Scenario.db_thread 4 4 in
  processIncomingMessage Scenario.env_no_contacts
    (Scenario.mail "<a@mail>" [] "" "any news?") m
  = (Some (ErrDep "contact store down"), m).
Proof. reflexivity. Qed.

(** Enqueueing and closing keep the queue's own flag in step with the
    manager's: the incoming queue is closed only once the manager is. *)
Lemma incoming_queue_open_while_running (message : IncomingMessage) (m : Manager) :
  (closed m = false -> Chan.closed (incomingMessageQueue m) = false) ->
  (forall r m', EnqueueIncoming message m = Returns (r, m') ->
     closed m' = false -> Chan.closed (incomingMessageQueue m') = false) /\
  (forall m', Close m = Returns m' -> closed m' = true).
Proof.
  intros Hinv. split.
  - intros r m'. unfold EnqueueIncoming, Chan.send.
    destruct (closed m) eqn:Hc; [intros [= <- <-]; congruence|].
    rewrite (Hinv eq_refl).
    destruct (Chan.full (incomingMessageQueue m)); intros [= <- <-]; cbn; auto.
  - intros m'. unfold Close.
    destruct (Chan.closed (outgoingMessageQueue m) || Chan.closed (incomingMessageQueue m));
      [discriminate|].
    intros [= <-]. reflexivity.
Qed.

Lemma wf_sources_thread : wf_sources Scenario.db_thread.
Proof.
  intros r Hr _. apply list_elem_of_singleton in Hr as ->. reflexivity.
Qed.

(** The mail <b@mail> of the scenario is processed twice: the second
    run returns nil and leaves the two stored messages as they are. *)
Lemma C2_duplicate_is_discarded_witness :
  let env := Scenario.env0 in
  let in_ := Scenario.mail "<b@mail>" [] "<a@mail>" "any news?" in
  let m := Scenario.manager Scenario.db_thread 4 4 in
  wf_sources (db m) /\ Valid (SourceID (im_Message in_)) = true /\
  exists m1,
    processIncomingMessage env in_ m = (None, m1) /\
    processIncomingMessage env in_ m1 = (None, m1) /\
    length (messages (db m1)) = 2%nat.
Proof.
  intros env in_ m. split; [exact wf_sources_thread|]. split; [reflexivity|].
  destruct (C2_duplicate_is_discarded env in_ m) as [_ Htwice].
  assert (Hrun : processIncomingMessage env in_ m
                 = (None, (processIncomingMessage env in_ m).2))
    by (vm_compute; reflexivity).
  destruct (Htwice _ env wf_sources_thread eq_refl Hrun eq_refl eq_refl)
    as [Hsecond Hcount].
  destruct (Hcount eq_refl) as (_ & Hlen & _).
  eexists. split; [exact Hrun|]. split; [exact Hsecond|exact Hlen].
Defined.

(** *** Threads *)

(** C3 as stated fails.  Conversation 1 holds the mail <a@mail>; a mail
    with that same source id comes in.  Its chain, as C3 defines it,
    matches conversation 1, and yet it is not stored in conversation 1: it
    is discarded as a duplicate. *)
Lemma C3_counterexample : ~ thread_claim_as_stated.
Proof.
  intros Hclaim.
  destruct (Hclaim Scenario.env0 (Scenario.mail "<a@mail>" [] "" "any news?")
              (Scenario.manager Scenario.db_thread 4 4) 1
              eq_refl (fun _ _ => eq_refl) eq_refl eq_refl) as (row & Hrow & _).
  { exists Scenario.conversation1. split; [apply list_elem_of_here|reflexivity]. }
  vm_compute in Hrow. discriminate Hrow.
Qed.

(** C3 (amended). The ids that findOrCreateConversation searches with
    are the references of the message plus its in-reply-to id, if any;
    the message's own source id is not among them (a message whose own
    source id matches a stored message is discarded as a duplicate).  An
    incoming message that is not a duplicate and whose ids match a stored
    message of an existing conversation is stored with the id and uuid of
    that conversation, and no conversation is created; a conversation is
    created only when the search finds none. *)
Theorem C3_reply_attaches_to_thread :
  forall (env : Env) (in_ : IncomingMessage) (m : Manager),
    let message := im_Message in_ in
    (forall cid c,
       (contactStore_Upsert env (im_Contact in_)).2 = None ->
       (forall stmt args, stmt_fails env stmt args = false) ->
       (forall d, MessageExistsBySourceID [String_ (SourceID message)] (db m) = Some d ->
                  d <= 0) ->
       MessageExistsBySourceID (thread_ids message) (db m) = Some cid -> cid <> 0 ->
       List.find (fun c' => bool_decide (CID c' = cid)) (conversations (db m)) = Some c ->
       exists m' row,
         processIncomingMessage env in_ m = (None, m') /\
         messages (db m') = messages (db m) ++ [row] /\
         ConversationID row = cid /\ ConversationUUID row = CUUID c /\
         SourceID row = SourceID message /\ Content row = Content message /\
         map CID (conversations (db m')) = map CID (conversations (db m)) /\
         automation m' = automation m) /\
    (length (conversations (db (processIncomingMessage env in_ m).2))
     <> length (conversations (db m)) ->
     (findConversationID env (thread_ids message) m).1 = 0 /\
     (findConversationID env [String_ (SourceID message)] m).1 <= 0).
Proof.
  intros env in_ m message. split.
  - intros cid c Hu Hok Hnodup Hthread Hne Hc. unfold processIncomingMessage.
    destruct (contactStore_Upsert env (im_Contact in_)) as [sid e]. cbn in Hu. subst e.
    change (SourceID (set_SenderID sid (im_Message in_))) with (SourceID message).
    change (SenderID (set_SenderID sid (im_Message in_))) with sid.
    rewrite findConversationID_lookup by apply Hok.
    assert (Hdup : exists d e,
              match MessageExistsBySourceID [String_ (SourceID message)] (db m) with
              | Some cid0 => (cid0, None)
              | None => (0, Some ErrConversationNotFound)
              end = (d, e) /\ fatal e = false /\ (0 <? d)%Z = false).
    { destruct (MessageExistsBySourceID [String_ (SourceID message)] (db m)) as [d|] eqn:Hd.
      - exists d, None. repeat split. specialize (Hnodup d eq_refl).
        apply Z.ltb_ge. exact Hnodup.
      - exists 0, (Some ErrConversationNotFound). repeat split. }
    destruct Hdup as (d & e & -> & -> & ->).
    rewrite (findOrCreateConversation_attach env (set_SenderID sid (im_Message in_))
               (im_InboxID in_) sid m cid c Hok Hthread Hne Hc).
    pose proof (InsertMessage_succeeds env
                  (set_ConversationID_ConversationUUID cid (CUUID c)
                     (set_SenderID sid (im_Message in_))) m Hok) as Hins.
    destruct (InsertMessage env _ m) as [[e2 in2] m2] eqn:Hrun. cbn in Hins. subst e2.
    apply InsertMessage_cases in Hrun
      as (Hcont & Hcid & Huuid & Hsrc & _ & _ & Haut & _ & Hdb).
    destruct Hdb as [(Hx & _)|(_ & _ & Hmsgs & _ & Hconv)]; [congruence|].
    destruct Hconv as [(Hx & _)|(_ & Hconv)]; [congruence|].
    unfold uploadMessageAttachments.
    exists m2, (row_of in2). split; [reflexivity|]. split; [exact Hmsgs|].
    cbn [row_of ConversationID ConversationUUID SourceID Content].
    rewrite Hcid, Huuid, Hsrc, Hcont, Hconv, set_last_message_ids.
    repeat split. exact Haut.
  - intros Hgrow.
    destruct (processIncomingMessage env in_ m) as [err m'] eqn:Hrun.
    apply processIncomingMessage_cases in Hrun; cbn zeta in Hrun. cbn [snd] in Hgrow.
    destruct Hrun as [(_ & _ & ->)|[(_ & _ & _ & ->)|[(_ & _ & _ & _ & ->)
                     |(_ & _ & Hle & isNew & e1 & in1 & m1 & Hfoc & Hrest)]]];
      try (exfalso; apply Hgrow; reflexivity).
    split; [|exact Hle].
    apply findOrCreateConversation_cases in Hfoc as (_ & _ & Hfoc).
    assert (Hlen : length (conversations (db m')) = length (conversations (db m1))).
    { destruct Hrest as [(_ & _ & ->)|(_ & e2 & in2 & m2 & Hins & Hrest)];
        [reflexivity|].
      assert (Hdb : db m' = db m2).
      { destruct Hrest as [(_ & _ & ->)|(_ & _ & ->)]; [reflexivity|].
        destruct isNew; reflexivity. }
      rewrite Hdb.
      apply InsertMessage_cases in Hins as (_ & _ & _ & _ & _ & _ & _ & _ & Hins).
      destruct Hins as [(_ & _ & -> & _)|(_ & _ & _ & _ & [(_ & ->)|(_ & ->)])];
        rewrite ?length_map; reflexivity. }
    destruct Hfoc as [(_ & _ & Hsame)|[(_ & _ & Hzero & _)|(_ & _ & -> & _)]].
    + exfalso. apply Hgrow. rewrite Hlen, Hsame. reflexivity.
    + exact Hzero.
    + exfalso. apply Hgrow. exact Hlen.
Qed.

(** The mail <b@mail> of the scenario answers <a@mail>: it is stored in
    conversation 1, and conversation 1 stays the only one. *)
Lemma C3_reply_attaches_to_thread_witness :
  let env := Scenario.env0 in
  let in_ := Scenario.mail "<b@mail>" [] "<a@mail>" "any news?" in
  let m := Scenario.manager Scenario.db_thread 4 4 in
  exists m' row,
    processIncomingMessage env in_ m = (None, m') /\
    messages (db m') = messages (db m) ++ [row] /\
    ConversationID row = 1 /\ ConversationUUID row = "conversations-1" /\
    map CID (conversations (db m')) = [1].
Proof.
  intros env in_ m.
  destruct (C3_reply_attaches_to_thread env in_ m) as [Hattach _].
  destruct (Hattach 1 Scenario.conversation1 eq_refl (fun _ _ => eq_refl))
    as (m' & row & Hrun & Hmsgs & Hcid & Huuid & _ & _ & Hconv & _);
    try reflexivity; try discriminate.
  exists m', row. repeat split; assumption.
Defined.

End ConversationProperties.

(** ** Further properties of the automation engine *)

Section EngineProperties.
Import Automation AutomationSpec AutomationRun.

Lemma ExecToggleRule_twice (id : Z) (t : list RuleRecord) :
  ExecToggleRule id (ExecToggleRule id t) = t.
Proof.
  unfold ExecToggleRule. rewrite map_map. rewrite <- (map_id t) at 2.
  apply map_ext. intros r. unfold toggle_row.
  destruct (decide (ID r = id)) as [Heq|Hne].
  - rewrite (bool_decide_eq_true_2 _ Heq). cbn [ID].
    rewrite (bool_decide_eq_true_2 _ Heq). cbn. rewrite negb_involutive.
    destruct r; reflexivity.
  - rewrite (bool_decide_eq_false_2 _ Hne). rewrite (bool_decide_eq_false_2 _ Hne).
    reflexivity.
Qed.

(** X1. A mutator whose statement fails returns its error and leaves
    the engine exactly as it was: no reload is made, the lock is not even
    asked for.  A toggle that succeeds is undone by a second one: the
    table is the original one again, and the snapshot is the one a reload
    of the original table gives, whatever the snapshot was before. *)
Theorem X1_mutations_fail_cleanly_and_toggle_undoes_itself :
  forall (env : Env) (e : Engine) (id : Z) (rule : RuleRecord),
    (stmt_fails env "insert-rule" = true ->
     CreateRule env rule e = Some (Some (ErrNew "Error creating automation rule."), e)) /\
    (stmt_fails env "update-rule" = true ->
     UpdateRule env id rule e = Some (Some (ErrNew "Error updating automation rule."), e)) /\
    (stmt_fails env "delete-rule" = true ->
     DeleteRule env id e = Some (Some (ErrNew "Error deleting automation rule."), e)) /\
    (stmt_fails env "toggle-rule" = true ->
     ToggleRule env id e = Some (Some (ErrNew "Error toggling automation rule."), e)) /\
    (stmt_fails env "toggle-rule" = false -> rulesMu e = MuFree ->
     exists e1 e2,
       ToggleRule env id e = Some (None, e1) /\
       ToggleRule env id e1 = Some (None, e2) /\
       q e1 = ExecToggleRule id (q e) /\
       q e2 = q e /\
       rules e2 = queryRules env e /\
       rulesMu e2 = MuFree).
Proof.
  intros env e id rule.
  split; [|split; [|split; [|split]]];
    try (intros Hko; apply exec_then_reload_failed; exact Hko).
  intros Hok Hfree.
  destruct (exec_then_reload_ok env "toggle-rule" "Error toggling automation rule."
              (ExecToggleRule id) e Hfree Hok) as (e1 & Hrun1 & Hq1 & _ & Hmu1 & _).
  destruct (exec_then_reload_ok env "toggle-rule" "Error toggling automation rule."
              (ExecToggleRule id) e1 Hmu1 Hok) as (e2 & Hrun2 & Hq2 & Hrules2 & Hmu2 & _).
  exists e1, e2. split; [exact Hrun1|]. split; [exact Hrun2|]. split; [exact Hq1|].
  rewrite Hq1, ExecToggleRule_twice in Hq2, Hrules2.
  split; [exact Hq2|]. split; [|exact Hmu2].
  rewrite Hrules2. reflexivity.
Qed.

Lemma X1_mutations_fail_cleanly_and_toggle_undoes_itself_witness :
  Automation.stmt_fails Scenario.rule_env_down "toggle-rule" = true /\
  ToggleRule Scenario.rule_env_down 2 Scenario.engine2
  = Some (Some (ErrNew "Error toggling automation rule."), Scenario.engine2) /\
  exists e1 e2,
    ToggleRule Scenario.rule_env 2 Scenario.engine2 = Some (None, e1) /\
    ToggleRule Scenario.rule_env 2 e1 = Some (None, e2) /\
    map Disabled (q e1) = [false; true] /\
    q e2 = q Scenario.engine2.
Proof.
  split; [reflexivity|].
  destruct (X1_mutations_fail_cleanly_and_toggle_undoes_itself Scenario.rule_env_down
              Scenario.engine2 2 (Scenario.row 0 "" "" false)) as (_ & _ & _ & Htoggle & _).
  split; [apply Htoggle; reflexivity|].
  destruct (X1_mutations_fail_cleanly_and_toggle_undoes_itself Scenario.rule_env
              Scenario.engine2 2 (Scenario.row 0 "" "" false)) as (_ & _ & _ & _ & Hback).
  destruct (Hback eq_refl eq_refl) as (e1 & e2 & Hrun1 & Hrun2 & Hq1 & Hq2 & _).
  exists e1, e2. split; [exact Hrun1|]. split; [exact Hrun2|].
  split; [rewrite Hq1; reflexivity|exact Hq2].
Defined.

(** X2. When the select of the enabled rules fails during a reload, the
    snapshot is replaced by the empty one: after the mutation that
    triggered it, which itself succeeded, no rule of any type is left for
    the events that follow. *)
Theorem X2_failed_reload_empties_snapshot :
  forall (env : Env) (e : Engine),
    rulesMu e = MuFree ->
    stmt_fails env "get-enabled-rules" = true ->
    (exists e', ReloadRules env e = Some e' /\ rules e' = [] /\ q e' = q e /\
       forall ruleType, filterRulesByType ruleType e' = Some []) /\
    (forall id, stmt_fails env "toggle-rule" = false ->
       exists e', ToggleRule env id e = Some (None, e') /\ rules e' = [] /\
         q e' = ExecToggleRule id (q e) /\
         forall ruleType, filterRulesByType ruleType e' = Some []).
Proof.
  intros env e Hfree Hko. split.
  - rewrite ReloadRules_free by exact Hfree. eexists. split; [reflexivity|].
    unfold queryRules. rewrite Hko. repeat split.
  - intros id Hok.
    destruct (exec_then_reload_ok env "toggle-rule" "Error toggling automation rule."
                (ExecToggleRule id) e Hfree Hok) as (e' & Hrun & Hq & Hrules & Hmu & _).
    exists e'. rewrite Hko in Hrules. repeat split; try assumption.
    intros ruleType. rewrite filterRulesByType_free by exact Hmu. rewrite Hrules.
    reflexivity.
Qed.

Lemma X2_failed_reload_empties_snapshot_witness :
  rulesMu Scenario.engine2 = MuFree /\
  Automation.stmt_fails Scenario.rule_env_select_down "get-enabled-rules" = true /\
  rules Scenario.engine2 <> [] /\
  exists e', ToggleRule Scenario.rule_env_select_down 2 Scenario.engine2 = Some (None, e')
             /\ rules e' = [].
Proof.
  split; [reflexivity|]. split; [reflexivity|]. split; [discriminate|].
  destruct (X2_failed_reload_empties_snapshot Scenario.rule_env_select_down
              Scenario.engine2 eq_refl eq_refl) as [_ Htoggle].
  destruct (Htoggle 2 eq_refl) as (e' & Hrun & Hrules & _).
  exists e'. split; assumption.
Defined.

Lemma collect_rules_app (env : Env) (rows1 rows2 : list (string * string)) :
  collect_rules env (rows1 ++ rows2) = collect_rules env rows1 ++ collect_rules env rows2.
Proof.
  induction rows1 as [|[ty js] rows1 IH]; [reflexivity|].
  cbn. destruct (json_Unmarshal env js); [|exact IH].
  rewrite IH, app_assoc. reflexivity.
Qed.

Lemma filter_set_type (ruleType ty : string) (batch : list Rule) :
  filter (fun x => Type_ x = ruleType) (map (set_type ty) batch)
  = if bool_decide (ty = ruleType) then map (set_type ty) batch else [].
Proof.
  induction batch as [|r batch IH]; [destruct (bool_decide _); reflexivity|].
  cbn [map]. rewrite filter_cons. cbn [set_type Type_].
  case_bool_decide as Hty.
  - rewrite decide_True by exact Hty. f_equal. exact IH.
  - rewrite decide_False by exact Hty. exact IH.
Qed.

Lemma filter_collect_rules (env : Env) (ruleType : string) (rows : list (string * string)) :
  filter (fun x => Type_ x = ruleType) (collect_rules env rows)
  = collect_rules env (filter (fun row => row.1 = ruleType) rows).
Proof.
  induction rows as [|[ty js] rows IH]; [reflexivity|].
  rewrite filter_cons. cbn [fst]. cbn [collect_rules].
  destruct (json_Unmarshal env js) as [batch|] eqn:Hjs.
  - rewrite filter_app, filter_set_type, IH.
    destruct (decide (ty = ruleType)) as [Hty|Hty].
    + rewrite bool_decide_eq_true_2 by exact Hty. cbn [collect_rules]. rewrite Hjs.
      reflexivity.
    + rewrite bool_decide_eq_false_2 by exact Hty. reflexivity.
  - rewrite IH. destruct (decide (ty = ruleType)); [|reflexivity].
    cbn [collect_rules]. rewrite Hjs. reflexivity.
Qed.

Lemma GetEnabledRules_filter (ruleType : string) (t : list RuleRecord) :
  filter (fun row => row.1 = ruleType) (GetEnabledRules t)
  = GetEnabledRules (filter (fun r => RType r = ruleType) t).
Proof.
  unfold GetEnabledRules. induction t as [|r t IH]; [reflexivity|].
  rewrite !filter_cons.
  destruct (decide (Disabled r = false)) as [Hd|Hd],
           (decide (RType r = ruleType)) as [Hty|Hty]; cbn [map].
  - rewrite !filter_cons. cbn [fst]. rewrite decide_True by exact Hty.
    rewrite decide_True by exact Hd. cbn [map]. f_equal. exact IH.
  - rewrite filter_cons. cbn [fst]. rewrite decide_False by exact Hty. exact IH.
  - rewrite filter_cons. rewrite decide_False by exact Hd. exact IH.
  - exact IH.
Qed.

(** X3. After a reload the rules returned for a type are exactly the
    rules decoded from the enabled rows stored under that type, in storage
    order, each tagged with the type of its row whatever its JSON said; a
    row whose JSON does not decode is skipped and takes nothing else with
    it. *)
Theorem X3_rules_of_a_type_come_from_its_rows :
  forall (env : Env) (e : Engine) (ruleType : string),
    rulesMu e = MuFree ->
    stmt_fails env "get-enabled-rules" = false ->
    (exists e', ReloadRules env e = Some e' /\
       filterRulesByType ruleType e'
       = Some (collect_rules env
                 (GetEnabledRules (filter (fun r => RType r = ruleType) (q e))))) /\
    (forall rows1 rows2 ty js, json_Unmarshal env js = None ->
       collect_rules env (rows1 ++ (ty, js) :: rows2) = collect_rules env (rows1 ++ rows2)) /\
    (forall rows x, x ∈ collect_rules env rows ->
       exists ty js batch y, (ty, js) ∈ rows /\ json_Unmarshal env js = Some batch /\
         y ∈ batch /\ Type_ x = ty /\ Body x = Body y).
Proof.
  intros env e ruleType Hfree Hok. split; [|split].
  - rewrite ReloadRules_free by exact Hfree. eexists. split; [reflexivity|].
    unfold filterRulesByType. cbn. unfold queryRules. rewrite Hok.
    rewrite filter_collect_rules, GetEnabledRules_filter. reflexivity.
  - intros rows1 rows2 ty js Hjs. rewrite !collect_rules_app. cbn. rewrite Hjs.
    reflexivity.
  - intros rows. induction rows as [|[ty js] rows IH]; intros x Hx; [inversion Hx|].
    cbn in Hx. destruct (json_Unmarshal env js) as [batch|] eqn:Hjs.
    + apply elem_of_app in Hx as [Hx|Hx].
      * apply list_elem_of_fmap in Hx as (y & -> & Hy).
        exists ty, js, batch, y. repeat split; try assumption. apply list_elem_of_here.
      * destruct (IH x Hx) as (ty' & js' & b' & y & Hin & Hrest).
        exists ty', js', b', y. split; [apply list_elem_of_further; exact Hin|exact Hrest].
    + destruct (IH x Hx) as (ty' & js' & b' & y & Hin & Hrest).
      exists ty', js', b', y. split; [apply list_elem_of_further; exact Hin|exact Hrest].
Qed.

Lemma X3_rules_of_a_type_come_from_its_rows_witness :
  rulesMu Scenario.engine2 = MuFree /\
  Automation.stmt_fails Scenario.rule_env "get-enabled-rules" = false /\
  exists e', ReloadRules Scenario.rule_env Scenario.engine2 = Some e' /\
    filterRulesByType "new_conversation" e'
    = Some [ {| Type_ := "new_conversation"; Body := "assign-to-sales" |};
             {| Type_ := "new_conversation"; Body := "tag-urgent" |} ].
Proof.
  split; [reflexivity|]. split; [reflexivity|].
  destruct (X3_rules_of_a_type_come_from_its_rows Scenario.rule_env Scenario.engine2
              "new_conversation" eq_refl eq_refl) as [(e' & Hrun & Hfilter) _].
  exists e'. split; [exact Hrun|]. rewrite Hfilter. reflexivity.
Defined.

(** *** Triggers, the run loop and shutdown *)

(** X4. The two trigger entry points never wait and never grow a queue
    beyond its capacity.  Of a burst of triggers that arrives at an open
    engine while nothing is taken from the queue, the first ones are
    appended in order until the queue is full and all the later ones are
    dropped; rules, table and the other queue are never touched. *)
Theorem X4_triggers_drop_when_full :
  forall (burst : list string) (e : Engine),
    closed e = false ->
    Chan.closed (newConversationQ e) = false ->
    Chan.closed (updateConversationQ e) = false ->
    let room (c : Chan.t string) := (Chan.cap c - length (Chan.buf c))%nat in
    let e1 := fold_left (fun st uuid => EvaluateNewConversationRules uuid st) burst e in
    let e2 := fold_left (fun st uuid => EvaluateConversationUpdateRules uuid st) burst e in
    (Chan.buf (newConversationQ e1)
     = Chan.buf (newConversationQ e) ++ take (room (newConversationQ e)) burst /\
     Chan.cap (newConversationQ e1) = Chan.cap (newConversationQ e) /\
     updateConversationQ e1 = updateConversationQ e /\
     rules e1 = rules e /\ q e1 = q e /\ rulesMu e1 = rulesMu e) /\
    (Chan.buf (updateConversationQ e2)
     = Chan.buf (updateConversationQ e) ++ take (room (updateConversationQ e)) burst /\
     Chan.cap (updateConversationQ e2) = Chan.cap (updateConversationQ e) /\
     newConversationQ e2 = newConversationQ e /\
     rules e2 = rules e /\ q e2 = q e /\ rulesMu e2 = rulesMu e).
Proof.
  intros burst. induction burst as [|uuid burst IH]; intros e Hopen Hn Hu room e1 e2.
  - subst e1 e2. cbn. rewrite !take_nil, !app_nil_r. repeat split.
  - subst e1 e2. cbn [fold_left]. split.
    + destruct (Nat.leb_spec (Chan.cap (newConversationQ e))
                  (length (Chan.buf (newConversationQ e)))) as [Hfull|Hroom].
      * assert (Hstep : EvaluateNewConversationRules uuid e = e).
        { unfold EvaluateNewConversationRules, Chan.send, Chan.full. rewrite Hopen, Hn.
          apply Nat.leb_le in Hfull. rewrite Hfull. reflexivity. }
        rewrite Hstep.
        destruct (IH e Hopen Hn Hu) as [(Hbuf & Hrest) _]. cbn zeta in Hbuf, Hrest.
        split; [|exact Hrest]. rewrite Hbuf. subst room. cbn beta.
        replace (Chan.cap (newConversationQ e) - length (Chan.buf (newConversationQ e)))%nat
          with 0%nat by lia.
        rewrite !take_0. reflexivity.
      * assert (Hstep : EvaluateNewConversationRules uuid e
                        = with_newConversationQ
                            (Chan.Make (Chan.buf (newConversationQ e) ++ [uuid])
                               (Chan.cap (newConversationQ e)) false) e).
        { unfold EvaluateNewConversationRules, Chan.send, Chan.full. rewrite Hopen, Hn.
          apply Nat.leb_gt in Hroom. rewrite Hroom. reflexivity. }
        rewrite Hstep.
        match goal with |- context [fold_left _ burst ?e0] =>
          destruct (IH e0 Hopen eq_refl Hu) as [(Hbuf & Hcap & Hother & Hr & Hq & Hmu) _]
        end.
        cbn zeta in Hbuf, Hcap, Hother, Hr, Hq, Hmu. cbn in Hbuf, Hcap, Hother, Hr, Hq, Hmu.
        split; [|repeat split; assumption].
        rewrite Hbuf, length_app. cbn [length]. subst room. cbn beta.
        replace (Chan.cap (newConversationQ e) - length (Chan.buf (newConversationQ e)))%nat
          with (S (Chan.cap (newConversationQ e)
                   - (length (Chan.buf (newConversationQ e)) + 1)))%nat by lia.
        rewrite <- app_assoc. reflexivity.
    + destruct (Nat.leb_spec (Chan.cap (updateConversationQ e))
                  (length (Chan.buf (updateConversationQ e)))) as [Hfull|Hroom].
      * assert (Hstep : EvaluateConversationUpdateRules uuid e = e).
        { unfold EvaluateConversationUpdateRules, Chan.send, Chan.full. rewrite Hopen, Hu.
          apply Nat.leb_le in Hfull. rewrite Hfull. reflexivity. }
        rewrite Hstep.
        destruct (IH e Hopen Hn Hu) as [_ (Hbuf & Hrest)]. cbn zeta in Hbuf, Hrest.
        split; [|exact Hrest]. rewrite Hbuf. subst room. cbn beta.
        replace (Chan.cap (updateConversationQ e)
                 - length (Chan.buf (updateConversationQ e)))%nat
          with 0%nat by lia.
        rewrite !take_0. reflexivity.
      * assert (Hstep : EvaluateConversationUpdateRules uuid e
                        = with_updateConversationQ
                            (Chan.Make (Chan.buf (updateConversationQ e) ++ [uuid])
                               (Chan.cap (updateConversationQ e)) false) e).
        { unfold EvaluateConversationUpdateRules, Chan.send, Chan.full. rewrite Hopen, Hu.
          apply Nat.leb_gt in Hroom. rewrite Hroom. reflexivity. }
        rewrite Hstep.
        match goal with |- context [fold_left _ burst ?e0] =>
          destruct (IH e0 Hopen Hn eq_refl) as [_ (Hbuf & Hcap & Hother & Hr & Hq & Hmu)]
        end.
        cbn zeta in Hbuf, Hcap, Hother, Hr, Hq, Hmu. cbn in Hbuf, Hcap, Hother, Hr, Hq, Hmu.
        split; [|repeat split; assumption].
        rewrite Hbuf, length_app. cbn [length]. subst room. cbn beta.
        replace (Chan.cap (updateConversationQ e)
                 - length (Chan.buf (updateConversationQ e)))%nat
          with (S (Chan.cap (updateConversationQ e)
                   - (length (Chan.buf (updateConversationQ e)) + 1)))%nat by lia.
        rewrite <- app_assoc. reflexivity.
Qed.

Lemma X4_triggers_drop_when_full_witness :
  let e := with_newConversationQ (Chan.make 2) Scenario.engine2 in
  Chan.buf (newConversationQ
              (fold_left (fun st uuid => EvaluateNewConversationRules uuid st)
                 ["conversations-1"; "conversations-2"; "conversations-3"] e))
  = ["conversations-1"; "conversations-2"].
Proof.
  intros e.
  destruct (X4_triggers_drop_when_full
              ["conversations-1"; "conversations-2"; "conversations-3"] e
              eq_refl eq_refl eq_refl) as [(Hbuf & _) _].
  rewrite Hbuf. reflexivity.
Defined.

(** X5. Close of the engine can be called again: once it has returned,
    the engine is closed, a second Close returns at once with the engine
    unchanged, and the trigger entry points return without touching the
    closed queues; what the queues held at the time of Close is still in
    them. *)
Theorem X5_engine_close_is_idempotent :
  forall (e e1 : Engine),
    Close e = Some e1 ->
    closed e1 = true /\
    Close e1 = Some e1 /\
    (forall conversationUUID,
       EvaluateNewConversationRules conversationUUID e1 = e1 /\
       EvaluateConversationUpdateRules conversationUUID e1 = e1) /\
    Chan.buf (newConversationQ e1) = Chan.buf (newConversationQ e) /\
    Chan.buf (updateConversationQ e1) = Chan.buf (updateConversationQ e) /\
    rules e1 = rules e /\ q e1 = q e.
Proof.
  intros e e1. unfold Close. destruct (closed e) eqn:Hc.
  - intros [= <-]. unfold EvaluateNewConversationRules, EvaluateConversationUpdateRules.
    rewrite Hc. repeat split.
  - destruct (Chan.closed (newConversationQ e) || Chan.closed (updateConversationQ e));
      [discriminate|].
    intros [= <-]. repeat split.
Qed.

Lemma X5_engine_close_is_idempotent_witness :
  exists e1, Close Scenario.engine2 = Some e1 /\ Close e1 = Some e1 /\
    EvaluateNewConversationRules "conversations-1" e1 = e1.
Proof.
  destruct (Close Scenario.engine2) as [e1|] eqn:Hclose; [|discriminate Hclose].
  destruct (X5_engine_close_is_idempotent Scenario.engine2 e1 Hclose)
    as (_ & Hagain & Htrig & _).
  exists e1. split; [reflexivity|]. split; [exact Hagain|apply Htrig].
Defined.

Lemma Run_turns_new_conversations (l : list string) :
  forall (rest : list string) (e : Engine) (taskQueue : Chan.t ConversationTask),
    Chan.buf (newConversationQ e) = l ++ rest ->
    Chan.closed taskQueue = false ->
    (length (Chan.buf taskQueue) + length l <= Chan.cap taskQueue)%nat ->
    Run_turns (replicate (length l) FromNewConversationQ) e taskQueue
    = Looping
        (with_newConversationQ
           (Chan.Make rest (Chan.cap (newConversationQ e)) (Chan.closed (newConversationQ e))) e)
        (Chan.Make
           (Chan.buf taskQueue
            ++ map (fun u => {| taskType := NewConversation; conversationUUID := u |}) l)
           (Chan.cap taskQueue) false).
Proof.
  induction l as [|u l IH]; intros rest e taskQueue Hbuf Hopen Hroom.
  - cbn. rewrite app_nil_r. cbn in Hbuf. destruct e as [? ? ? [nb nc ncl] ? ? ?],
      taskQueue as [tb tc tcl]. cbn in *. subst. reflexivity.
  - cbn [length replicate Run_turns]. unfold Run at 1, Chan.recv. rewrite Hbuf.
    cbn [app]. unfold push_task, Chan.send, Chan.full. rewrite Hopen.
    cbn [length] in Hroom.
    destruct (Nat.leb_spec (Chan.cap taskQueue) (length (Chan.buf taskQueue))); [lia|].
    rewrite (IH rest); cbn; rewrite ?length_app; cbn; try lia; try reflexivity.
    rewrite <- app_assoc. reflexivity.
Qed.

(** X6. The run loop forwards the queued new-conversation triggers to
    the task queue in the order they came, each as a task of type
    NewConversation, as long as the task queue has room; nothing else of
    the engine changes. *)
Theorem X6_run_forwards_triggers_in_order :
  forall (l rest : list string) (e : Engine) (taskQueue : Chan.t ConversationTask),
    Chan.buf (newConversationQ e) = l ++ rest ->
    Chan.closed taskQueue = false ->
    (length (Chan.buf taskQueue) + length l <= Chan.cap taskQueue)%nat ->
    exists e' taskQueue',
      Run_turns (replicate (length l) FromNewConversationQ) e taskQueue
      = Looping e' taskQueue' /\
      Chan.buf (newConversationQ e') = rest /\
      Chan.buf taskQueue'
      = Chan.buf taskQueue
        ++ map (fun u => {| taskType := NewConversation; conversationUUID := u |}) l /\
      rules e' = rules e /\ q e' = q e /\ closed e' = closed e /\
      updateConversationQ e' = updateConversationQ e.
Proof.
  intros l rest e taskQueue Hbuf Hopen Hroom.
  rewrite (Run_turns_new_conversations l rest e taskQueue Hbuf Hopen Hroom).
  do 2 eexists. split; [reflexivity|]. repeat split.
Qed.

Lemma X6_run_forwards_triggers_in_order_witness :
  let e := EvaluateNewConversationRules "conversations-2"
             (EvaluateNewConversationRules "conversations-1" Scenario.engine2) in
  exists e' taskQueue',
    Run_turns [FromNewConversationQ; FromNewConversationQ] e (Chan.make 8)
    = Looping e' taskQueue' /\
    Chan.buf taskQueue'
    = [ {| taskType := NewConversation; conversationUUID := "conversations-1" |};
        {| taskType := NewConversation; conversationUUID := "conversations-2" |} ].
Proof.
  intros e.
  destruct (X6_run_forwards_triggers_in_order ["conversations-1"; "conversations-2"] []
              e (Chan.make 8) eq_refl eq_refl) as (e' & tq & Hrun & _ & Hbuf & _).
  { cbn. lia. }
  exists e', tq. split; [exact Hrun|exact Hbuf].
Defined.

(** X7. Whatever task a worker takes, it takes the oldest one, and each
    evaluation it makes is given all the rules of the snapshot that have
    the type of that task, and no other rule. *)
Theorem X7_worker_evaluates_rules_of_the_task_type :
  forall (C : Type) (k : Consts) (store : ConversationStore C) (e : Engine)
         (taskQueue taskQueue' : Chan.t ConversationTask) (evaluations : list (list Rule * C)),
    worker k store e taskQueue = Handled evaluations taskQueue' ->
    exists task,
      Chan.buf taskQueue = task :: Chan.buf taskQueue' /\
      forall rs c, (rs, c) ∈ evaluations ->
        rs = filter (fun x => Type_ x = rule_type_of k (taskType task)) (rules e) /\
        forall x, x ∈ rs -> Type_ x = rule_type_of k (taskType task).
Proof.
  intros C k store e taskQueue taskQueue' evaluations. unfold worker, Chan.recv.
  destruct (Chan.buf taskQueue) as [|task rest] eqn:Hbuf.
  { destruct (Chan.closed taskQueue); discriminate. }
  intros Hrun. exists task.
  assert (Hfilter : forall ty rs, filterRulesByType ty e = Some rs ->
            rs = filter (fun x => Type_ x = ty) (rules e)).
  { intros ty rs. unfold filterRulesByType. destruct (RLock (rulesMu e)); congruence. }
  assert (Hall : forall rs c, (rs, c) ∈ evaluations ->
            rs = filter (fun x => Type_ x = rule_type_of k (taskType task)) (rules e)).
  { destruct (taskType task); cbn [rule_type_of];
      unfold handleNewConversation, handleUpdateConversation, handleTimeTrigger in Hrun.
    - destruct (GetConversation store (conversationUUID task)) as [conv [err|]].
      + injection Hrun as <- <-. intros rs c Hin. inversion Hin.
      + destruct (filterRulesByType (RuleTypeNewConversation k) e) as [rs0|] eqn:Hf;
          [|discriminate]. injection Hrun as <- <-. intros rs c Hin.
        apply list_elem_of_singleton in Hin. injection Hin as -> ->.
        apply Hfilter. exact Hf.
    - destruct (GetConversation store (conversationUUID task)) as [conv [err|]].
      + injection Hrun as <- <-. intros rs c Hin. inversion Hin.
      + destruct (filterRulesByType (RuleTypeConversationUpdate k) e) as [rs0|] eqn:Hf;
          [|discriminate]. injection Hrun as <- <-. intros rs c Hin.
        apply list_elem_of_singleton in Hin. injection Hin as -> ->.
        apply Hfilter. exact Hf.
    - destruct (GetConversationsCreatedAfter store _) as [convs [err|]].
      + injection Hrun as <- <-. intros rs c Hin. inversion Hin.
      + destruct (filterRulesByType (RuleTypeTimeTrigger k) e) as [rs0|] eqn:Hf;
          [|discriminate]. injection Hrun as <- <-. intros rs c Hin.
        apply list_elem_of_fmap in Hin as (c0 & [= -> ->] & _).
        apply Hfilter. exact Hf. }
  split.
  - destruct (match taskType task with
              | NewConversation => _ | UpdateConversation => _ | TimeTrigger => _ end);
      [|discriminate]. injection Hrun as _ <-. reflexivity.
  - intros rs c Hin. split; [apply (Hall rs c Hin)|].
    intros x Hx. rewrite (Hall rs c Hin) in Hx.
    apply list_elem_of_filter in Hx as [Hx _]. exact Hx.
Qed.

Lemma X7_worker_evaluates_rules_of_the_task_type_witness :
  let taskQueue :=
    Chan.Make [ {| taskType := NewConversation; conversationUUID := "conversations-1" |} ]
      8 false in
  exists taskQueue',
    worker Scenario.consts0 Scenario.store0 Scenario.engine2 taskQueue
    = Handled [(rules Scenario.engine2, Scenario.conversation1)] taskQueue' /\
    Chan.buf taskQueue' = [].
Proof.
  intros taskQueue.
  destruct (worker Scenario.consts0 Scenario.store0 Scenario.engine2 taskQueue)
    as [| | |evs tq'] eqn:Hrun; try discriminate Hrun.
  destruct (X7_worker_evaluates_rules_of_the_task_type _ _ _ _ _ _ _ Hrun)
    as (task & Hbuf & _).
  exists tq'. vm_compute in Hrun. injection Hrun as <- <-. split; reflexivity.
Defined.

(** X8. After Close the run loop returns as soon as it receives from a
    trigger queue that is drained, and closes the task queue on its way
    out, even if the other trigger queue still holds conversations, which
    are then never forwarded; a worker handles what is left in the task
    queue and returns once it is empty. *)
Theorem X8_run_and_workers_stop_after_close :
  forall (C : Type) (k : Consts) (store : ConversationStore C) (e e1 : Engine)
         (taskQueue : Chan.t ConversationTask),
    Close e = Some e1 ->
    closed e = false ->
    (Chan.buf (updateConversationQ e) = [] ->
     Run FromUpdateConversationQ e1 taskQueue = Returned e1 (Chan.close taskQueue) /\
     Chan.buf (newConversationQ e1) = Chan.buf (newConversationQ e)) /\
    (Chan.buf (newConversationQ e) = [] ->
     Run FromNewConversationQ e1 taskQueue = Returned e1 (Chan.close taskQueue) /\
     Chan.buf (updateConversationQ e1) = Chan.buf (updateConversationQ e)) /\
    (Chan.buf taskQueue = [] ->
     worker k store e1 (Chan.close taskQueue) = WorkerReturned) /\
    (forall task rest, Chan.buf taskQueue = task :: rest ->
       worker k store e1 (Chan.close taskQueue) <> WorkerReturned /\
       worker k store e1 (Chan.close taskQueue) <> WorkerIdle).
Proof.
  intros C k store e e1 taskQueue Hclose Hopen. unfold Close in Hclose.
  rewrite Hopen in Hclose.
  destruct (Chan.closed (newConversationQ e) || Chan.closed (updateConversationQ e));
    [discriminate|]. injection Hclose as <-.
  split; [|split; [|split]].
  - intros H. split; [|reflexivity]. unfold Run, Chan.recv. cbn. rewrite H. reflexivity.
  - intros H. split; [|reflexivity]. unfold Run, Chan.recv. cbn. rewrite H. reflexivity.
  - intros H. unfold worker, Chan.recv. cbn. rewrite H. reflexivity.
  - intros task rest H. unfold worker, Chan.recv. cbn. rewrite H.
    destruct (match taskType task with
              | NewConversation => _ | UpdateConversation => _ | TimeTrigger => _ end);
      split; discriminate.
Qed.

Lemma X8_run_and_workers_stop_after_close_witness :
  let e := EvaluateNewConversationRules "conversations-1" Scenario.engine2 in
  exists e1, Close e = Some e1 /\ closed e = false /\
    Run FromUpdateConversationQ e1 (Chan.make 8) = Returned e1 (Chan.close (Chan.make 8)) /\
    Chan.buf (newConversationQ e1) = ["conversations-1"].
Proof.
  intros e. destruct (Close e) as [e1|] eqn:Hclose; [|discriminate Hclose].
  destruct (X8_run_and_workers_stop_after_close _ Scenario.consts0 Scenario.store0 e e1
              (Chan.make 8) Hclose eq_refl) as (Hupd & _).
  destruct (Hupd eq_refl) as [Hrun Hbuf].
  exists e1. split; [reflexivity|]. split; [reflexivity|]. split; [exact Hrun|].
  rewrite Hbuf. reflexivity.
Defined.

End EngineProperties.

(** ** Further properties of the message pipeline *)

Section MessageProperties.
Import Conversation ConversationSpec.

Local Arguments UpdateMessageStatus : simpl never.

Lemma InsertMessage_sender (env : Env) (message : Message) (m : Manager) :
  forall err message' m', InsertMessage env message m = (err, message', m') ->
    Private message' = Private message /\ SenderID message' = SenderID message.
Proof.
  intros err message' m'. unfold InsertMessage, AddConversationParticipant.
  destruct (Private message) eqn:Hp; destruct (bool_decide (Meta _ = "")); cbn;
    destruct (stmt_fails env "insert-message" _); cbn;
    try (intros [= <- <- <-]; split; [exact Hp|reflexivity]);
    destruct (stmt_fails env "insert-conversation-participant" _); cbn;
    intros [= <- <- <-]; split; solve [exact Hp|reflexivity].
Qed.

Lemma find_snoc_miss {A : Type} (f : A -> bool) (l : list A) (x : A) :
  f x = false -> List.find f (l ++ [x]) = List.find f l.
Proof.
  intros Hx. induction l as [|a l IH]; cbn; [rewrite Hx; reflexivity|].
  destruct (f a); [reflexivity|exact IH].
Qed.

Lemma getMessageActivityContent_error (activityType newValue actorName : string) :
  (getMessageActivityContent activityType newValue actorName).2 = None
  <-> known_activity activityType.
Proof.
  unfold getMessageActivityContent, known_activity.
  repeat (case_bool_decide;
          [subst activityType; cbn; split; [intros _|reflexivity];
           repeat (first [apply list_elem_of_here|apply list_elem_of_further])|]).
  cbn. split; [discriminate|]. intros Hin.
  repeat (apply elem_of_cons in Hin as [Hin|Hin]; [congruence|]). inversion Hin.
Qed.

(** X9. InsertConversationActivity fails for an unknown activity type
    only, and then stores nothing; for a known type it returns nil even
    when the insertion fails.  The row it stores, if any, is a private
    message of type activity with status sent and without source id: the
    scan of pending messages and the lookup by source id see what they saw
    before. *)
Theorem X9_activity_is_a_sent_private_note :
  forall (env : Env) (st : Stores) (activityType conversationUUID newValue : string)
         (actor : User) (m : Manager),
    let r := InsertConversationActivity env st activityType conversationUUID newValue
               actor m in
    (r.1 = None <-> known_activity activityType) /\
    (r.1 <> None -> r.2 = m) /\
    (messages (db r.2) = messages (db m) \/
     exists row, messages (db r.2) = messages (db m) ++ [row] /\
       Type_ row = MessageActivity /\ Status row = MessageStatusSent /\
       Private row = true /\ Valid (SourceID row) = false /\
       ConversationUUID row = conversationUUID /\ SenderID row = UserID actor) /\
    (forall excluded,
       GetPendingMessages excluded (db r.2) = GetPendingMessages excluded (db m)) /\
    (forall ids, MessageExistsBySourceID ids (db r.2) = MessageExistsBySourceID ids (db m)).
Proof.
  intros env st activityType conversationUUID newValue actor m r.
  pose proof (getMessageActivityContent_error activityType newValue (FullName st actor))
    as Hknown.
  subst r. unfold InsertConversationActivity.
  destruct (getMessageActivityContent activityType newValue (FullName st actor))
    as [content [e|]]; cbn [fst snd] in *.
  { split; [rewrite <- Hknown; split; discriminate|]. repeat split. left. reflexivity. }
  split; [rewrite <- Hknown; split; reflexivity|]. split; [congruence|].
  set (message := activity_message content conversationUUID (UserID actor)).
  destruct (InsertMessage env message m) as [[err message'] m'] eqn:Hrun. cbn [snd].
  destruct (InsertMessage_sender env message m _ _ _ Hrun) as [Hpriv Hsender].
  apply InsertMessage_cases in Hrun
    as (_ & _ & Huuid & Hsrc & Hty & Hst & _ & _ & Hdb).
  specialize (Hst eq_refl).
  assert (Hmsgs : messages (db m') = messages (db m) \/
                  messages (db m') = messages (db m) ++ [row_of message']).
  { destruct Hdb as [(_ & H & _)|(_ & _ & H & _)]; [left|right]; exact H. }
  split; [|split].
  - destruct Hmsgs as [H|H]; [left; exact H|right].
    exists (row_of message'). split; [exact H|]. cbn [row_of Type_ Status Private
      SourceID ConversationUUID SenderID].
    rewrite Hty, Hst, Hpriv, Hsrc, Huuid, Hsender. repeat split.
  - intros excluded. destruct Hmsgs as [H|H]; unfold GetPendingMessages; rewrite H;
      [reflexivity|].
    rewrite filter_app, filter_cons_False, filter_nil, app_nil_r; [reflexivity|].
    intros (Hpend & _). change (Status message' = MessageStatusPending) in Hpend.
    rewrite Hst in Hpend. discriminate.
  - intros ids. destruct Hmsgs as [H|H]; unfold MessageExistsBySourceID; rewrite H;
      [reflexivity|].
    rewrite find_snoc_miss; [reflexivity|].
    unfold source_matches. cbn [row_of SourceID]. rewrite Hsrc. reflexivity.
Qed.

Lemma X9_activity_is_a_sent_private_note_witness :
  let m := Scenario.manager Scenario.db_thread 4 4 in
  let r := InsertConversationActivity Scenario.env0 Scenario.stores0 ActivityStatusChange
             "conversations-1" "Resolved" Scenario.kim m in
  known_activity ActivityStatusChange /\ r.1 = None /\
  map (fun x => (Type_ x, Status x, Content x)) (messages (db r.2))
  = [ (MessageIncoming, MessageStatusReceived, "My printer is on fire");
      (MessageActivity, MessageStatusSent, "Kim Ng marked the conversation as Resolved") ].
Proof.
  intros m r.
  destruct (X9_activity_is_a_sent_private_note Scenario.env0 Scenario.stores0
              ActivityStatusChange "conversations-1" "Resolved" Scenario.kim m)
    as (Hknown & _).
  assert (Hk : known_activity ActivityStatusChange).
  { unfold known_activity. do 4 apply list_elem_of_further. apply list_elem_of_here. }
  split; [exact Hk|]. split; [apply Hknown; exact Hk|reflexivity].
Defined.

(** What an activity of a known type leaves in storage. *)
Lemma InsertConversationActivity_known (env : Env) (st : Stores)
    (activityType conversationUUID newValue : string) (actor : User) (m : Manager) :
  known_activity activityType ->
  let r := InsertConversationActivity env st activityType conversationUUID newValue
             actor m in
  r.1 = None /\
  (messages (db r.2) = messages (db m) \/
   exists row, messages (db r.2) = messages (db m) ++ [row] /\
     Content row
     = (getMessageActivityContent activityType newValue (FullName st actor)).1).
Proof.
  intros Hknown r.
  apply (getMessageActivityContent_error activityType newValue (FullName st actor))
    in Hknown.
  subst r. unfold InsertConversationActivity.
  destruct (getMessageActivityContent activityType newValue (FullName st actor))
    as [content err]. cbn [fst snd] in *. subst err.
  split; [reflexivity|]. cbn [snd].
  destruct (InsertMessage env _ m) as [[err message'] m'] eqn:Hrun. cbn [snd].
  apply InsertMessage_cases in Hrun as (Hc & _ & _ & _ & _ & _ & _ & _ & Hdb).
  destruct Hdb as [(_ & H & _)|(_ & _ & H & _)]; [left; exact H|right].
  exists (row_of message'). split; [exact H|exact Hc].
Qed.

(** X10. The four recorders of a change return an error only when the
    user or team they have to look up is not found, and then record
    nothing; a failure of the insertion itself is never reported.  A
    self-assignment is recorded without asking the user store.  The
    activity that is stored, if one is, reads "<actor> self-assigned this
    conversation", "Assigned to <assignee> by <actor>", "Assigned to
    <team> team by <actor>", "<actor> changed priority to <priority>" or
    "<actor> marked the conversation as <status>". *)
Theorem X10_recorders_report_lookups_only :
  forall (env : Env) (st : Stores) (conversationUUID : string) (actor : User) (m : Manager),
    let stored (r : option error * Manager) (content : string) :=
      messages (db r.2) = messages (db m) \/
      exists row, messages (db r.2) = messages (db m) ++ [row] /\ Content row = content in
    let name := FullName st actor in
    (forall assigneeID,
       let r := RecordAssigneeUserChange env st conversationUUID assigneeID actor m in
       (assigneeID = UserID actor ->
        r.1 = None /\ stored r (name ++ " self-assigned this conversation")%string) /\
       (assigneeID <> UserID actor ->
        r.1 = (userStore_Get st assigneeID).2 /\
        (r.1 <> None -> r.2 = m) /\
        (r.1 = None ->
         stored r ("Assigned to " ++ FullName st (userStore_Get st assigneeID).1
                   ++ " by " ++ name)%string))) /\
    (forall teamID,
       let r := RecordAssigneeTeamChange env st conversationUUID teamID actor m in
       r.1 = (teamStore_GetTeam st teamID).2 /\
       (r.1 <> None -> r.2 = m) /\
       (r.1 = None ->
        stored r ("Assigned to " ++ TeamName (teamStore_GetTeam st teamID).1
                  ++ " team by " ++ name)%string)) /\
    (forall priority,
       let r := RecordPriorityChange env st priority conversationUUID actor m in
       r.1 = None /\ stored r (name ++ " changed priority to " ++ priority)%string) /\
    (forall status,
       let r := RecordStatusChange env st status conversationUUID actor m in
       r.1 = None /\ stored r (name ++ " marked the conversation as " ++ status)%string).
Proof.
  intros env st conversationUUID actor m stored name.
  assert (Hact : forall activityType newValue,
            known_activity activityType ->
            let r := InsertConversationActivity env st activityType conversationUUID
                       newValue actor m in
            r.1 = None /\
            stored r (getMessageActivityContent activityType newValue name).1).
  { intros activityType newValue Hk. apply InsertConversationActivity_known. exact Hk. }
  assert (Hk : forall ty, ty ∈ [ActivityAssignedUserChange; ActivityAssignedTeamChange;
                                ActivitySelfAssign; ActivityPriorityChange;
                                ActivityStatusChange] -> known_activity ty).
  { intros ty Hin. unfold known_activity.
    repeat (apply elem_of_cons in Hin as [->|Hin];
            [repeat (first [apply list_elem_of_here|apply list_elem_of_further])|]).
    inversion Hin. }
  split; [|split; [|split]].
  - intros assigneeID r. subst r. unfold RecordAssigneeUserChange. split.
    + intros Hself. rewrite bool_decide_eq_true_2 by exact Hself.
      apply (Hact ActivitySelfAssign). apply Hk. do 2 apply list_elem_of_further.
      apply list_elem_of_here.
    + intros Hother. rewrite bool_decide_eq_false_2 by exact Hother.
      destruct (userStore_Get st assigneeID) as [assignee [e|]]; cbn [fst snd].
      * split; [reflexivity|]. split; [reflexivity|discriminate].
      * destruct (Hact ActivityAssignedUserChange (FullName st assignee)) as [Hnil Hst].
        { apply Hk, list_elem_of_here. }
        split; [exact Hnil|]. split; [congruence|]. intros _. exact Hst.
  - intros teamID r. subst r. unfold RecordAssigneeTeamChange.
    destruct (teamStore_GetTeam st teamID) as [team [e|]]; cbn [fst snd].
    + split; [reflexivity|]. split; [reflexivity|discriminate].
    + destruct (Hact ActivityAssignedTeamChange (TeamName team)) as [Hnil Hst].
      { apply Hk, list_elem_of_further, list_elem_of_here. }
      split; [exact Hnil|]. split; [congruence|]. intros _. exact Hst.
  - intros priority. apply (Hact ActivityPriorityChange). apply Hk.
    do 3 apply list_elem_of_further. apply list_elem_of_here.
  - intros status. apply (Hact ActivityStatusChange). apply Hk.
    do 4 apply list_elem_of_further. apply list_elem_of_here.
Qed.

Lemma X10_recorders_report_lookups_only_witness :
  let m := Scenario.manager Scenario.db_thread 4 4 in
  (userStore_Get Scenario.stores0 3).2 <> None /\
  (RecordAssigneeUserChange Scenario.env0 Scenario.stores0
     "conversations-1" 3 Scenario.kim m).1 = None /\
  map Content
    (messages (db (RecordAssigneeUserChange Scenario.env0 Scenario.stores0
                     "conversations-1" 3 Scenario.kim m).2))
  = ["My printer is on fire"; "Kim Ng self-assigned this conversation"].
Proof.
  intros m. split; [discriminate|].
  destruct (X10_recorders_report_lookups_only Scenario.env0 Scenario.stores0
              "conversations-1" Scenario.kim m) as (Huser & _).
  destruct (Huser 3) as [Hself _]. destruct (Hself eq_refl) as [Hnil _].
  split; [exact Hnil|reflexivity].
Defined.

(** *** Lookup by source id *)

Lemma MessageExistsBySourceID_is_Some (ids : list string) (d : DB) :
  is_Some (MessageExistsBySourceID ids d)
  <-> exists r, r ∈ messages d /\ source_matches ids r = true.
Proof.
  unfold MessageExistsBySourceID. split.
  - intros [cid Hc].
    destruct (List.find (source_matches ids) (messages d)) as [r|] eqn:Hf; [|discriminate].
    apply find_some in Hf as [Hin Hm]. exists r. split; [apply list_elem_of_In|]; assumption.
  - intros (r & Hin & Hm).
    destruct (List.find (source_matches ids) (messages d)) as [r'|] eqn:Hf; [cbn; eauto|].
    apply list_elem_of_In in Hin.
    pose proof (find_none _ _ Hf r Hin) as Hn. congruence.
Qed.

(** X11. MessageExists answers true exactly when a stored message
    carries the given source id, false without error when none does, and
    false with the error when the lookup itself fails.  A message with a
    source id that processIncomingMessage has accepted (returned nil for)
    exists from then on. *)
Theorem X11_message_exists_after_processing :
  forall (env : Env) (messageID : string) (m : Manager),
    (stmt_fails env "message-exists-by-source-id" [messageID] = false ->
     exists b : bool,
       MessageExists env messageID m = (b, None) /\
       (b = true <-> exists r, r ∈ messages (db m) /\ Valid (SourceID r) = true /\
                               String_ (SourceID r) = messageID)) /\
    (stmt_fails env "message-exists-by-source-id" [messageID] = true ->
     MessageExists env messageID m = (false, Some (ErrDep "message-exists-by-source-id"))) /\
    (forall env1 in_ m0,
       Valid (SourceID (im_Message in_)) = true ->
       String_ (SourceID (im_Message in_)) = messageID ->
       processIncomingMessage env1 in_ m0 = (None, m) ->
       stmt_fails env "message-exists-by-source-id" [messageID] = false ->
       MessageExists env messageID m = (true, None)).
Proof.
  intros env messageID m.
  assert (Hmatch : forall r, source_matches [messageID] r = true
                             <-> Valid (SourceID r) = true /\ String_ (SourceID r) = messageID).
  { intros r. unfold source_matches. rewrite andb_true_iff, bool_decide_eq_true.
    rewrite list_elem_of_singleton. reflexivity. }
  assert (Hok : stmt_fails env "message-exists-by-source-id" [messageID] = false ->
                forall b : bool,
                  (b = true <-> exists r, r ∈ messages (db m) /\
                                  source_matches [messageID] r = true) ->
                  MessageExists env messageID m = (b, None)).
  { intros Hs b Hb. unfold MessageExists. rewrite findConversationID_lookup by exact Hs.
    destruct (MessageExistsBySourceID [messageID] (db m)) as [cid|] eqn:Hf; cbn.
    - f_equal. symmetry. apply Hb. apply MessageExistsBySourceID_is_Some. eauto.
    - f_equal. destruct b; [|reflexivity].
      assert (Hs' : is_Some (MessageExistsBySourceID [messageID] (db m)))
        by (apply MessageExistsBySourceID_is_Some, Hb; reflexivity).
      rewrite Hf in Hs'. destruct Hs' as [? ?]. discriminate. }
  split; [|split].
  - intros Hs.
    exists (bool_decide (is_Some (MessageExistsBySourceID [messageID] (db m)))).
    split.
    + apply Hok; [exact Hs|]. rewrite bool_decide_eq_true.
      apply MessageExistsBySourceID_is_Some.
    + rewrite bool_decide_eq_true, MessageExistsBySourceID_is_Some.
      split; intros (r & Hin & Hr); exists r; (split; [exact Hin|]); apply Hmatch;
        exact Hr.
  - intros Hs. unfold MessageExists, findConversationID. rewrite Hs. reflexivity.
  - intros env1 in_ m0 Hvalid Hsrc Hrun Hs. apply Hok; [exact Hs|].
    split; [intros _|reflexivity].
    apply processIncomingMessage_cases in Hrun; cbn zeta in Hrun. rewrite Hsrc in Hrun.
    destruct Hrun as [(Hne & He & _)|[(_ & Hf & He & _)|[(_ & Hnf & Hpos & _ & Hm)
                     |(_ & _ & _ & isNew & e1 & in1 & m1 & Hfoc & Hrest)]]].
    + congruence.
    + rewrite <- He in Hf. discriminate Hf.
    + rewrite (findConversationID_not_fatal _ _ _ Hnf) in Hpos. rewrite Hm.
      destruct (MessageExistsBySourceID [messageID] (db m0)) as [cid|] eqn:Hfound;
        cbn in Hpos; [|lia].
      apply MessageExistsBySourceID_is_Some. eauto.
    + destruct Hrest as [(Hne & He & _)|(-> & e2 & in2 & m2 & Hins & Hrest)];
        [congruence|].
      destruct Hrest as [(Hne & He & _)|(-> & _ & Hm)]; [congruence|].
      apply findOrCreateConversation_cases in Hfoc as (_ & _ & Hfoc).
      apply InsertMessage_cases in Hins as (_ & _ & _ & Hsrc2 & _ & _ & _ & _ & Hins).
      destruct Hins as [(Hne & _)|(_ & _ & Hmsgs2 & _)]; [congruence|].
      assert (Hdb : db m = db m2) by (rewrite Hm; destruct isNew; reflexivity).
      assert (Hsrc1 : SourceID in1 = SourceID (im_Message in_)).
      { destruct Hfoc as [(Hne & _)|[(_ & _ & _ & c & _ & _ & _ & _ & _ & ->)
                                    |(_ & _ & _ & c & _ & _ & _ & _ & ->)]];
          [congruence|reflexivity|reflexivity]. }
      exists (row_of in2). split.
      * rewrite Hdb, Hmsgs2. apply elem_of_app. right. apply list_elem_of_here.
      * apply Hmatch. cbn [row_of SourceID]. rewrite Hsrc2, Hsrc1. split; assumption.
Qed.

Lemma X11_message_exists_after_processing_witness :
  let env := Scenario.env0 in
  let in_ := Scenario.mail "<b@mail>" [] "<a@mail>" "any news?" in
  let m0 := Scenario.manager Scenario.db_thread 4 4 in
  MessageExists env "<b@mail>" m0 = (false, None) /\
  exists m, processIncomingMessage env in_ m0 = (None, m) /\
            MessageExists env "<b@mail>" m = (true, None).
Proof.
  intros env in_ m0. split; [reflexivity|].
  assert (Hrun : processIncomingMessage env in_ m0
                 = (None, (processIncomingMessage env in_ m0).2))
    by (vm_compute; reflexivity).
  eexists. split; [exact Hrun|].
  destruct (X11_message_exists_after_processing env "<b@mail>"
              (processIncomingMessage env in_ m0).2) as (_ & _ & Hafter).
  apply (Hafter env in_ m0); reflexivity || exact Hrun.
Defined.

(** *** Status updates and insertions *)

(** The conversation found for a message uuid is the same before and
    after a status update. *)
Lemma find_restatus (status uuid : string) (l : list Message) :
  ConversationUUID <$> List.find (fun r => bool_decide (UUID r = uuid))
                         (map (restatus status uuid) l)
  = ConversationUUID <$> List.find (fun r => bool_decide (UUID r = uuid)) l.
Proof.
  induction l as [|r l IH]; [reflexivity|]. cbn [map List.find].
  destruct (restatus_keeps status uuid r) as (_ & Hu & _).
  rewrite Hu. destruct (bool_decide (UUID r = uuid)); [|exact IH].
  cbn. unfold restatus. destruct (bool_decide (UUID r = uuid)); reflexivity.
Qed.

(** X12. UpdateMessageStatus changes the status of the messages with
    the given uuid and nothing else in storage, and hands the hub exactly
    one status event, for the conversation of that message: the
    conversation uuid of the first stored message with that uuid, which is
    the conversation of every such message when they all lie in one.
    When the statement fails the manager is left as it was and nothing is
    broadcast.  When the lookup of the conversation fails, or no message
    has the uuid, the update still returns nil and still broadcasts, to
    the conversation with the empty uuid. *)
Theorem X12_status_update_touches_one_message :
  forall (env : Env) (uuid status : string) (m : Manager),
    (stmt_fails env "update-message-status" [uuid] = true ->
     UpdateMessageStatus env uuid status m = (Some (ErrDep "update-message-status"), m)) /\
    (stmt_fails env "update-message-status" [uuid] = false ->
     exists m' conversationUUID,
       UpdateMessageStatus env uuid status m = (None, m') /\
       messages (db m') = map (restatus status uuid) (messages (db m)) /\
       (forall i x, messages (db m) !! i = Some x -> UUID x <> uuid ->
                    messages (db m') !! i = Some x) /\
       (forall i x, messages (db m) !! i = Some x -> UUID x = uuid ->
                    messages (db m') !! i = Some (set_Status status x)) /\
       conversations (db m') = conversations (db m) /\
       participants (db m') = participants (db m) /\
       wsHub m' = wsHub m ++ [(conversationUUID, WsMessagePropUpdate uuid "status" status)] /\
       conversationUUID
       = (if stmt_fails env "get-conversation-uuid-from-message-uuid" [uuid] then ""
          else match List.find (fun r => bool_decide (UUID r = uuid)) (messages (db m)) with
               | Some r => ConversationUUID r
               | None => ""
               end) /\
       (stmt_fails env "get-conversation-uuid-from-message-uuid" [uuid] = false ->
        forall r c, r ∈ messages (db m) -> UUID r = uuid ->
          (forall r', r' ∈ messages (db m) -> UUID r' = uuid -> ConversationUUID r' = c) ->
          conversationUUID = c) /\
       ((forall x, x ∈ messages (db m) -> UUID x <> uuid) ->
        conversationUUID = "" /\ messages (db m') = messages (db m))).
Proof.
  intros env uuid status m. unfold UpdateMessageStatus. split; intros Hs; rewrite Hs.
  - reflexivity.
  - assert (Htarget :
      (getConversationUUIDFromMessageUUID env uuid
         (set_db (ExecUpdateMessageStatus status uuid (db m)) m)).1
      = (if stmt_fails env "get-conversation-uuid-from-message-uuid" [uuid] then ""
         else match List.find (fun r => bool_decide (UUID r = uuid)) (messages (db m)) with
              | Some r => ConversationUUID r
              | None => ""
              end)).
    { unfold getConversationUUIDFromMessageUUID.
      destruct (stmt_fails env "get-conversation-uuid-from-message-uuid" [uuid]);
        [reflexivity|].
      pose proof (find_restatus status uuid (messages (db m))) as Hf.
      cbn [db set_db ExecUpdateMessageStatus with_messages messages].
      change (map (fun r => if bool_decide (UUID r = uuid) then set_Status status r else r)
                (messages (db m)))
        with (map (restatus status uuid) (messages (db m))).
      destruct (List.find _ (map (restatus status uuid) (messages (db m)))) as [r1|];
        destruct (List.find _ (messages (db m))) as [r0|]; cbn in Hf |- *;
        congruence. }
    do 2 eexists. split; [reflexivity|]. cbn.
    split; [reflexivity|]. split; [|split; [|split; [|split; [|split; [|split; [|split]]]]]];
      try reflexivity.
    + intros i x Hi Hne. change (map ?f ?l) with (f <$> l). rewrite list_lookup_fmap, Hi.
      cbn. rewrite bool_decide_eq_false_2 by exact Hne. reflexivity.
    + intros i x Hi He. change (map ?f ?l) with (f <$> l). rewrite list_lookup_fmap, Hi.
      cbn. rewrite bool_decide_eq_true_2 by exact He. reflexivity.
    + exact Htarget.
    + intros Hlook r c Hin Hu Hall. rewrite Htarget, Hlook.
      destruct (List.find _ (messages (db m))) as [r0|] eqn:Hf.
      * apply find_some in Hf as [Hin0 Hu0]. apply bool_decide_eq_true_1 in Hu0.
        apply Hall; [apply list_elem_of_In; exact Hin0|exact Hu0].
      * apply list_elem_of_In in Hin. pose proof (find_none _ _ Hf r Hin) as Hn.
        cbn in Hn. apply bool_decide_eq_false_1 in Hn. contradiction.
    + intros Hnone. split.
      * rewrite Htarget.
        destruct (stmt_fails env "get-conversation-uuid-from-message-uuid" [uuid]);
          [reflexivity|].
        destruct (List.find _ _) as [r|] eqn:Hf; [|reflexivity].
        apply find_some in Hf as [Hin Hu]. apply bool_decide_eq_true_1 in Hu.
        apply list_elem_of_In in Hin. exfalso. exact (Hnone r Hin Hu).
      * rewrite <- (map_id (messages (db m))) at 2. apply map_ext_in. intros x Hin.
        apply list_elem_of_In in Hin. rewrite bool_decide_eq_false_2; [reflexivity|].
        apply Hnone. exact Hin.
Qed.

(** Reply 2 of conversation 1 is marked sent: the event goes to
    conversation 1. *)
Lemma X12_status_update_touches_one_message_witness :
  let m := Scenario.manager (Scenario.db_reply 1) 4 4 in
  stmt_fails Scenario.env0 "update-message-status" ["messages-2"] = false /\
  exists m', UpdateMessageStatus Scenario.env0 "messages-2" MessageStatusSent m = (None, m') /\
    map Status (messages (db m')) = [MessageStatusReceived; MessageStatusSent] /\
    wsHub m' = [("conversations-1", WsMessagePropUpdate "messages-2" "status" "sent")].
Proof.
  intros m. split; [reflexivity|].
  destruct (X12_status_update_touches_one_message Scenario.env0 "messages-2"
              MessageStatusSent m) as [_ Hok].
  destruct (Hok eq_refl) as (m' & conv & Hrun & Hmsgs & _ & _ & _ & _ & Hhub & Hconv & _).
  exists m'. split; [exact Hrun|]. split; [rewrite Hmsgs; reflexivity|].
  rewrite Hhub, Hconv. reflexivity.
Defined.

(** X13. InsertMessage broadcasts the new message exactly when it
    returns nil, after the row is stored and with the summary of at most 45
    characters as content.  When the insert statement fails nothing
    changes; when adding the sender as participant fails, the error is
    returned although the message row is already stored, and neither the
    summary of the conversation nor the hub hears of it. *)
Theorem X13_insert_broadcasts_after_storing :
  forall (env : Env) (message : Message) (m : Manager) err message' m',
    InsertMessage env message m = (err, message', m') ->
    (err = None ->
     row_of message' ∈ messages (db m') /\
     participants (db m')
     = participants (db m) ++ [(SenderID message, ConversationUUID message)] /\
     wsHub m'
     = wsHub m ++ [(ConversationUUID message,
                    WsNewMessage (SanitizeAndTruncate env (Content message) 45)
                      (new_uuid env "messages" (next_message_id (db m))) (db_now env)
                      (Type_ message) (Private message))]) /\
    (err <> None -> wsHub m' = wsHub m /\ conversations (db m') = conversations (db m) /\
                    participants (db m') = participants (db m)) /\
    (stmt_fails env "insert-message" [ConversationUUID message] = true ->
     err <> None /\ m' = m) /\
    (stmt_fails env "insert-message" [ConversationUUID message] = false ->
     stmt_fails env "insert-conversation-participant" [ConversationUUID message] = true ->
     err <> None /\ messages (db m') = messages (db m) ++ [row_of message']).
Proof.
  intros env message m err message' m'. unfold InsertMessage, AddConversationParticipant.
  destruct (Private message) eqn:Hp; destruct (bool_decide (Meta _ = "")); cbn;
    destruct (stmt_fails env "insert-message" _) eqn:Hins; cbn;
    try (destruct (stmt_fails env "insert-conversation-participant" _) eqn:Hpart; cbn);
    intros [= <- <- <-];
    (split; [|split; [|split]]);
    try (intros Hcontra; try discriminate Hcontra; try (exfalso; apply Hcontra; reflexivity));
    try (intros Hcontra2; try discriminate Hcontra2);
    repeat split; try discriminate; try reflexivity;
    try (apply elem_of_app; right; apply list_elem_of_here);
    cbn; rewrite ?Hp; reflexivity.
Qed.

Lemma X13_insert_broadcasts_after_storing_witness :
  let m := Scenario.manager Scenario.db_thread 4 4 in
  exists message' m',
    InsertMessage Scenario.env0 Scenario.note m = (None, message', m') /\
    wsHub m'
    = [("conversations-1",
        WsNewMessage "The customer called twice today about the pri" "messages-2" 1001
          MessageOutgoing true)].
Proof.
  intros m.
  destruct (InsertMessage Scenario.env0 Scenario.note m) as [[err message'] m'] eqn:Hrun.
  assert (Herr : err = None) by (vm_compute in Hrun; congruence). subst err.
  destruct (X13_insert_broadcasts_after_storing _ _ _ _ _ _ Hrun) as (Hok & _).
  destruct (Hok eq_refl) as (_ & _ & Hhub).
  exists message', m'. split; [reflexivity|]. rewrite Hhub. reflexivity.
Defined.

Lemma restatus_source (status uuid : string) (r : Message) :
  SourceID (restatus status uuid r) = SourceID r /\
  ConversationID (restatus status uuid r) = ConversationID r.
Proof. unfold restatus. case_bool_decide; split; reflexivity. Qed.

(** X14. Processing an incoming message and dispatching an outgoing one
    keep the store well formed: every stored message that carries a source
    id still belongs to a conversation with a positive id. *)
Theorem X14_source_ids_stay_attached :
  forall (env : Env) (m : Manager),
    wf_sources (db m) ->
    (forall in_, wf_sources (db (processIncomingMessage env in_ m).2)) /\
    (forall message, wf_sources (db (dispatch env message m))) /\
    (forall uuid, wf_sources (db (MarkMessageAsPending env uuid m).2)).
Proof.
  intros env m Hwf.
  assert (Hmap : forall status uuid,
            wf_sources (with_messages (map (restatus status uuid) (messages (db m))) (db m))).
  { intros status uuid r Hr Hv. cbn in Hr. apply list_elem_of_fmap in Hr as (r0 & -> & Hr0).
    destruct (restatus_source status uuid r0) as [Hs Hc]. rewrite Hs in Hv. rewrite Hc.
    apply Hwf; assumption. }
  split; [|split].
  - intros in_.
    destruct (processIncomingMessage env in_ m) as [err m'] eqn:Hrun. cbn [snd].
    apply processIncomingMessage_cases in Hrun; cbn zeta in Hrun.
    destruct Hrun as [(_ & _ & ->)|[(_ & _ & _ & ->)|[(_ & _ & _ & _ & ->)
                     |(_ & _ & _ & isNew & e1 & in1 & m1 & Hfoc & Hrest)]]];
      try exact Hwf.
    apply findOrCreateConversation_cases in Hfoc as (Hmsgs1 & _ & Hfoc).
    assert (Hwf1 : wf_sources (db m1)).
    { intros r Hr. rewrite Hmsgs1 in Hr. apply Hwf. exact Hr. }
    destruct Hrest as [(_ & _ & ->)|(-> & e2 & in2 & m2 & Hins & Hrest)]; [exact Hwf1|].
    assert (Hdb : db m' = db m2).
    { destruct Hrest as [(_ & _ & ->)|(_ & _ & ->)]; [reflexivity|].
      destruct isNew; reflexivity. }
    rewrite Hdb.
    assert (Hpos1 : 0 < ConversationID in1).
    { destruct Hfoc as [(Hne & _)|[(_ & _ & _ & c & _ & Hid & _ & _ & _ & ->)
                                  |(_ & _ & _ & c & Hlook & Hne & _ & _ & ->)]];
        [congruence| |]; cbn.
      - rewrite Hid. apply next_conversation_id_pos.
      - destruct (findConversationID_found env _ m (CID c) Hlook Hne)
          as (_ & _ & r & Hin & Hmt & Hc).
        unfold source_matches in Hmt. apply andb_true_iff in Hmt as [Hv _].
        specialize (Hwf r Hin Hv). lia. }
    apply InsertMessage_cases in Hins as (_ & Hcid2 & _ & _ & _ & _ & _ & _ & Hins).
    intros r Hr Hv.
    destruct Hins as [(_ & Hm2 & _)|(_ & _ & Hm2 & _)]; rewrite Hm2 in Hr.
    + apply Hwf1; assumption.
    + apply elem_of_app in Hr as [Hr|Hr]; [apply Hwf1; assumption|].
      apply list_elem_of_singleton in Hr as ->. cbn. rewrite Hcid2. exact Hpos1.
  - intros message r Hr Hv. rewrite dispatch_messages in Hr.
    destruct (stmt_fails env _ _); [apply Hwf; assumption|].
    apply (Hmap (dispatch_status env message) (UUID message)); assumption.
  - intros uuid r Hr Hv. unfold MarkMessageAsPending in Hr.
    pose proof (UpdateMessageStatus_messages env uuid MessageStatusPending m) as Hm.
    destruct (UpdateMessageStatus env uuid MessageStatusPending m) as [[e|] m1];
      cbn [snd] in *; rewrite Hm in Hr;
      (destruct (stmt_fails env _ _); [apply Hwf; assumption|]);
      apply (Hmap MessageStatusPending uuid); assumption.
Qed.

Lemma X14_source_ids_stay_attached_witness :
  let m := Scenario.manager Scenario.db_thread 4 4 in
  wf_sources (db m) /\
  wf_sources (db (processIncomingMessage Scenario.env0
                    (Scenario.mail "<b@mail>" [] "<a@mail>" "any news?") m).2).
Proof.
  intros m.
  assert (Hwf : wf_sources (db m)).
  { intros r Hr _. apply list_elem_of_singleton in Hr as ->. reflexivity. }
  split; [exact Hwf|].
  destruct (X14_source_ids_stay_attached Scenario.env0 m Hwf) as [Hproc _]. apply Hproc.
Defined.

(** X15. The automation engine hears of an incoming message only when
    the message opened a conversation, and then once, with the uuid of the
    conversation that was created for it.  A processing that returns an
    error, a duplicate and a message attached to an existing conversation
    leave the engine as it was; the latter stores one row in a
    conversation that existed before. *)
Theorem X15_trigger_only_for_created_conversation :
  forall (env : Env) (in_ : IncomingMessage) (m : Manager) err m',
    processIncomingMessage env in_ m = (err, m') ->
    (err <> None -> automation m' = automation m) /\
    (err = None ->
     m' = m \/
     (exists row,
        messages (db m') = messages (db m) ++ [row] /\
        map CID (conversations (db m')) = map CID (conversations (db m)) /\
        ConversationID row ∈ map CID (conversations (db m)) /\
        automation m' = automation m) \/
     (exists row c,
        messages (db m') = messages (db m) ++ [row] /\
        map CID (conversations (db m')) = map CID (conversations (db m)) ++ [CID c] /\
        CID c = next_conversation_id (db m) /\
        CSubject c = Subject (im_Message in_) /\
        ConversationID row = CID c /\ ConversationUUID row = CUUID c /\
        automation m'
        = Automation.EvaluateNewConversationRules (CUUID c) (automation m))).
Proof.
  intros env in_ m err m' Hrun.
  apply processIncomingMessage_cases in Hrun; cbn zeta in Hrun.
  destruct Hrun as [(Hu & -> & ->)|[(_ & Hf & -> & ->)|[(_ & _ & _ & -> & ->)
                   |(_ & _ & _ & isNew & e1 & in1 & m1 & Hfoc & Hrest)]]].
  - split; [reflexivity|]. intros He. congruence.
  - split; [reflexivity|]. intros He. rewrite He in Hf. discriminate Hf.
  - split; [reflexivity|]. intros _. left. reflexivity.
  - apply findOrCreateConversation_cases in Hfoc as (Hmsgs1 & Haut1 & Hfoc).
    destruct Hrest as [(He1 & -> & ->)|(-> & e2 & in2 & m2 & Hins & Hrest)].
    { split; [intros _; exact Haut1|]. intros He. congruence. }
    apply InsertMessage_cases in Hins
      as (_ & Hcid2 & Hcu2 & _ & _ & _ & Haut2 & _ & Hins).
    destruct Hrest as [(He2 & -> & ->)|(-> & -> & ->)].
    { split; [intros _; congruence|]. intros He. congruence. }
    split; [intros He; congruence|]. intros _. right.
    destruct Hins as [(He & _)|(_ & _ & Hm2 & _ & [(He & _)|(_ & Hc2)])];
      try congruence.
    destruct Hfoc as [(Hne & _)|[(-> & _ & _ & c & Hc1 & Hid & Hsub & _ & _ & ->)
                                |(-> & _ & -> & c & _ & _ & Hin & _ & ->)]];
      [congruence| |].
    + right. exists (row_of in2), c. cbn [db set_automation automation].
      rewrite Hm2, Hmsgs1. split; [reflexivity|].
      rewrite Hc2, set_last_message_ids, Hc1, map_app. split; [reflexivity|].
      split; [exact Hid|]. split; [exact Hsub|].
      cbn in Hcid2, Hcu2. split; [exact Hcid2|]. split; [exact Hcu2|].
      rewrite Hcu2, Haut2, Haut1. reflexivity.
    + left. exists (row_of in2). rewrite Hm2. split; [reflexivity|].
      rewrite Hc2, set_last_message_ids. split; [reflexivity|].
      cbn in Hcid2. split; [|exact Haut2].
      cbn. rewrite Hcid2. apply list_elem_of_fmap. exists c. split; [reflexivity|exact Hin].
Qed.

Lemma X15_trigger_only_for_created_conversation_witness :
  let m := Scenario.manager Scenario.db_thread 4 4 in
  exists m',
    processIncomingMessage Scenario.env0
      (Scenario.mail "<n@mail>" [] "" "a new problem") m = (None, m') /\
    map CID (conversations (db m')) = [1; 2] /\
    Chan.buf (Automation.newConversationQ (automation m')) = ["conversations-2"].
Proof.
  intros m.
  destruct (processIncomingMessage Scenario.env0
              (Scenario.mail "<n@mail>" [] "" "a new problem") m) as [err m'] eqn:Hrun.
  assert (Herr : err = None) by (vm_compute in Hrun; congruence). subst err.
  destruct (X15_trigger_only_for_created_conversation _ _ _ _ _ Hrun) as [_ Hok].
  specialize (Hok eq_refl).
  exists m'. split; [reflexivity|].
  vm_compute in Hrun. injection Hrun as <-. split; reflexivity.
Defined.

(** *** The scanner with room in the queue *)

Lemma filter_none {A} (f : A -> bool) (l : list A) :
  (forall x, x ∈ l -> f x = false) -> List.filter f l = [].
Proof.
  induction l as [|a l IH]; intros H; [reflexivity|]. cbn.
  rewrite (H a (list_elem_of_here _ _)). apply IH. intros x Hx.
  apply H, list_elem_of_further, Hx.
Qed.

(** The loop of the scanner, when the open queue has room for every
    candidate that gets as far as the send. *)
Lemma push_pending_room (env : Env) (pendingMessages : list Message) :
  forall m : Manager,
    Chan.closed (outgoingMessageQueue m) = false ->
    (length (Chan.buf (outgoingMessageQueue m))
     + length (List.filter (sendable env) pendingMessages)
     <= Chan.cap (outgoingMessageQueue m))%nat ->
    exists m',
      push_pending env pendingMessages m = ScanDone m' /\
      Chan.buf (outgoingMessageQueue m')
      = Chan.buf (outgoingMessageQueue m) ++ List.filter (sendable env) pendingMessages /\
      Chan.cap (outgoingMessageQueue m') = Chan.cap (outgoingMessageQueue m) /\
      Chan.closed (outgoingMessageQueue m') = false /\
      (forall x, x ∈ pendingMessages -> sendable env x = true ->
                 is_Some (outgoingProcessingMessages m' !! ID x)) /\
      (forall id, is_Some (outgoingProcessingMessages m !! id) ->
                  is_Some (outgoingProcessingMessages m' !! id)) /\
      (forall r, r ∈ messages (db m') -> Status r = MessageStatusPending ->
                 r ∈ messages (db m)).
Proof.
  induction pendingMessages as [|message rest IH]; intros m Hopen Hroom.
  - exists m. cbn. rewrite app_nil_r. repeat split; try assumption; try (intros; assumption).
    intros x Hx. inversion Hx.
  - cbn [push_pending]. cbn [List.filter] in Hroom |- *.
    assert (Hs : sendable env message
                 = match inboxStore_Get env (InboxID message) with
                   | (_, Some _) => false
                   | (inb, None) => renders env inb message
                   end) by reflexivity.
    destruct (inboxStore_Get env (InboxID message)) as [inb [e|]] eqn:Hinb.
    + rewrite Hs in Hroom |- *.
      destruct (IH m Hopen Hroom) as (m' & Hrun & Hbuf & Hcap & Hcl & Hin & Hmono & Hdb).
      exists m'. repeat split; try assumption.
      intros x Hx Hsx. apply elem_of_cons in Hx as [->|Hx]; [congruence|].
      apply Hin; assumption.
    + destruct (RenderContentInTemplate_cases env inb message m)
        as [[Hren Hr]|[Hren [e Hr]]]; rewrite Hr; rewrite Hs, Hren in Hroom |- *.
      * cbn [length] in Hroom. unfold Chan.send. cbn [outgoingMessageQueue
          set_outgoingProcessingMessages]. rewrite Hopen. unfold Chan.full.
        destruct (Nat.leb_spec (Chan.cap (outgoingMessageQueue m))
                    (length (Chan.buf (outgoingMessageQueue m)))) as [Hle|_]; [lia|].
        match goal with |- context [push_pending env rest ?m0] => set (m2 := m0) end.
        destruct (IH m2) as (m' & Hrun & Hbuf & Hcap & Hcl & Hin & Hmono & Hdb).
        { reflexivity. }
        { subst m2. cbn. rewrite length_app. cbn. lia. }
        exists m'. split; [exact Hrun|]. subst m2. cbn in Hbuf, Hcap, Hmono, Hdb.
        split; [rewrite Hbuf, <- app_assoc; reflexivity|].
        split; [exact Hcap|]. split; [exact Hcl|]. split; [|split].
        -- intros x Hx Hsx. apply elem_of_cons in Hx as [->|Hx]; [|apply Hin; assumption].
           apply Hmono. rewrite lookup_insert_eq. eexists. reflexivity.
        -- intros id Hid. apply Hmono.
           destruct (decide (ID message = id)) as [->|Hne].
           ++ rewrite lookup_insert_eq. eexists. reflexivity.
           ++ rewrite lookup_insert_ne by exact Hne. exact Hid.
        -- exact Hdb.
      * pose proof (UpdateMessageStatus_frame env (UUID message) MessageStatusFailed m)
          as Hf. cbn zeta in Hf. destruct Hf as (Hp1 & Hq1 & _).
        pose proof (UpdateMessageStatus_messages env (UUID message) MessageStatusFailed m)
          as Hm1.
        set (m1 := (UpdateMessageStatus env (UUID message) MessageStatusFailed m).2) in *.
        destruct (IH m1) as (m' & Hrun & Hbuf & Hcap & Hcl & Hin & Hmono & Hdb).
        { rewrite Hq1. exact Hopen. }
        { rewrite Hq1. exact Hroom. }
        exists m'. rewrite Hq1 in Hbuf, Hcap. rewrite Hp1 in Hmono.
        repeat split; try assumption.
        -- intros x Hx Hsx. apply elem_of_cons in Hx as [->|Hx]; [|apply Hin; assumption].
           unfold sendable in Hsx. rewrite Hinb in Hsx. congruence.
        -- intros r Hrin Hst. specialize (Hdb r Hrin Hst). rewrite Hm1 in Hdb.
           destruct (stmt_fails env _ _); [exact Hdb|].
           apply list_elem_of_fmap in Hdb as (r0 & -> & Hr0).
           destruct (restatus_keeps MessageStatusFailed (UUID message) r0)
             as (_ & _ & _ & _ & Hset & Hsame).
           destruct (decide (UUID r0 = UUID message)) as [He|Hne].
           ++ rewrite (Hset He) in Hst. discriminate Hst.
           ++ rewrite (Hsame Hne). exact Hr0.
Qed.

(** X16. When the open dispatch queue has room, one tick of the scanner
    runs to its end and enqueues exactly the candidates whose inbox is
    found and whose body renders, in the order of the query and behind what
    was queued; each of them is then in the in-flight set.  The next tick
    enqueues nothing: no message is queued a second time while the first
    copy waits for the dispatch worker. *)
Theorem X16_scan_enqueues_sendable_candidates_once :
  forall (env : Env) (m : Manager),
    stmt_fails env "get-pending-messages" [] = false ->
    Chan.closed (outgoingMessageQueue m) = false ->
    let pending := GetPendingMessages (getOutgoingProcessingMessageIDs m) (db m) in
    (length (Chan.buf (outgoingMessageQueue m)) + length (List.filter (sendable env) pending)
     <= Chan.cap (outgoingMessageQueue m))%nat ->
    exists m',
      ListenAndDispatchMessages_tick env m = ScanDone m' /\
      Chan.buf (outgoingMessageQueue m')
      = Chan.buf (outgoingMessageQueue m) ++ List.filter (sendable env) pending /\
      (forall x, x ∈ pending -> sendable env x = true ->
                 ID x ∈ getOutgoingProcessingMessageIDs m') /\
      exists m'',
        ListenAndDispatchMessages_tick env m' = ScanDone m'' /\
        Chan.buf (outgoingMessageQueue m'') = Chan.buf (outgoingMessageQueue m').
Proof.
  intros env m Hq Hopen pending Hroom. unfold ListenAndDispatchMessages_tick. rewrite Hq.
  destruct (push_pending_room env pending m Hopen Hroom)
    as (m' & Hrun & Hbuf & Hcap & Hcl & Hin & Hmono & Hdb).
  exists m'. split; [exact Hrun|]. split; [exact Hbuf|]. split.
  { intros x Hx Hsx. apply elem_of_processing_ids. apply Hin; assumption. }
  assert (Hnone : List.filter (sendable env)
                    (GetPendingMessages (getOutgoingProcessingMessageIDs m') (db m')) = []).
  { apply filter_none. intros r Hr.
    apply list_elem_of_filter in Hr as [(Hst & Hty & Hid) Hr].
    destruct (sendable env r) eqn:Hsr; [|reflexivity]. exfalso. apply Hid.
    apply elem_of_processing_ids. apply Hin; [|exact Hsr].
    apply list_elem_of_filter. split; [|apply Hdb; assumption].
    split; [exact Hst|]. split; [exact Hty|].
    intros Hold. apply Hid. apply elem_of_processing_ids, Hmono.
    apply elem_of_processing_ids. exact Hold. }
  destruct (push_pending_room env
              (GetPendingMessages (getOutgoingProcessingMessageIDs m') (db m')) m' Hcl)
    as (m'' & Hrun2 & Hbuf2 & _).
  { rewrite Hnone, Hbuf, Hcap, length_app. cbn. lia. }
  exists m''. split; [exact Hrun2|]. rewrite Hbuf2, Hnone, app_nil_r. reflexivity.
Qed.

Lemma X16_scan_enqueues_sendable_candidates_once_witness :
  let m := Scenario.manager Scenario.db_two_replies 4 4 in
  exists m',
    ListenAndDispatchMessages_tick Scenario.env0 m = ScanDone m' /\
    map ID (Chan.buf (outgoingMessageQueue m')) = [2; 3].
Proof.
  intros m.
  destruct (X16_scan_enqueues_sendable_candidates_once Scenario.env0 m)
    as (m' & Hrun & Hbuf & _).
  - reflexivity.
  - reflexivity.
  - vm_compute. lia.
  - exists m'. split; [exact Hrun|]. rewrite Hbuf. reflexivity.
Defined.

(** *** Shutdown *)

(** The loop of the scanner over a closed queue: it ends in a panic at
    the first candidate that gets as far as the send. *)
Lemma push_pending_closed (env : Env) (pendingMessages : list Message) :
  forall m : Manager,
    Chan.closed (outgoingMessageQueue m) = true ->
    match push_pending env pendingMessages m with
    | ScanDone m' =>
        (forall s, s ∈ pendingMessages -> sendable env s = false) /\
        outgoingMessageQueue m' = outgoingMessageQueue m
    | ScanBlocked _ _ _ => False
    | ScanPanic m' =>
        exists skipped message rest,
          pendingMessages = skipped ++ message :: rest /\
          (forall s, s ∈ skipped -> sendable env s = false) /\
          sendable env message = true /\
          outgoingMessageQueue m' = outgoingMessageQueue m
    end.
Proof.
  induction pendingMessages as [|message rest IH]; intros m Hclosed.
  - cbn. split; [|reflexivity]. intros s Hs. inversion Hs.
  - cbn [push_pending].
    assert (Hs : sendable env message
                 = match inboxStore_Get env (InboxID message) with
                   | (_, Some _) => false
                   | (inb, None) => renders env inb message
                   end) by reflexivity.
    assert (Hskip : forall m1, outgoingMessageQueue m1 = outgoingMessageQueue m ->
              sendable env message = false ->
              match push_pending env rest m1 with
              | ScanDone m' =>
                  (forall s, s ∈ message :: rest -> sendable env s = false) /\
                  outgoingMessageQueue m' = outgoingMessageQueue m
              | ScanBlocked _ _ _ => False
              | ScanPanic m' =>
                  exists skipped message0 rest0,
                    message :: rest = skipped ++ message0 :: rest0 /\
                    (forall s, s ∈ skipped -> sendable env s = false) /\
                    sendable env message0 = true /\
                    outgoingMessageQueue m' = outgoingMessageQueue m
              end).
    { intros m1 Hq1 Hno. specialize (IH m1). rewrite Hq1 in IH. specialize (IH Hclosed).
      destruct (push_pending env rest m1) as [m'|m' msg rest'|m'].
      - destruct IH as [Hall Hq]. split; [|exact Hq].
        intros s Hin. apply elem_of_cons in Hin as [->|Hin]; [exact Hno|apply Hall, Hin].
      - exact IH.
      - destruct IH as (skipped & message0 & rest0 & -> & Hall & Hyes & Hq).
        exists (message :: skipped), message0, rest0. repeat split; try assumption.
        intros s Hin. apply elem_of_cons in Hin as [->|Hin]; [exact Hno|apply Hall, Hin]. }
    destruct (inboxStore_Get env (InboxID message)) as [inb [e|]] eqn:Hinb.
    + apply Hskip; [reflexivity|exact Hs].
    + destruct (RenderContentInTemplate_cases env inb message m)
        as [[Hren Hr]|[Hren [e Hr]]]; rewrite Hr.
      * unfold Chan.send. cbn [outgoingMessageQueue set_outgoingProcessingMessages].
        rewrite Hclosed. exists [], message, rest. repeat split.
        -- intros s Hin. inversion Hin.
        -- rewrite Hs. exact Hren.
      * apply Hskip; [|rewrite Hs; exact Hren].
        apply (UpdateMessageStatus_frame env (UUID message) MessageStatusFailed m).
Qed.

(** X17. Close keeps the tables and what the two queues hold, and it
    can be called once: a second Close panics on the closed channels.  A
    tick of the scanner that runs after Close never waits: it panics as
    soon as a candidate gets as far as the send, and runs to its end only
    when no candidate does. *)
Theorem X17_shutdown_is_final :
  forall (env : Env) (m m1 : Manager),
    Close m = Returns m1 ->
    Close m1 = Panics /\
    db m1 = db m /\
    Chan.buf (outgoingMessageQueue m1) = Chan.buf (outgoingMessageQueue m) /\
    Chan.buf (incomingMessageQueue m1) = Chan.buf (incomingMessageQueue m) /\
    (stmt_fails env "get-pending-messages" [] = false ->
     let pending := GetPendingMessages (getOutgoingProcessingMessageIDs m) (db m) in
     match ListenAndDispatchMessages_tick env m1 with
     | ScanDone m' =>
         (forall s, s ∈ pending -> sendable env s = false) /\
         outgoingMessageQueue m' = outgoingMessageQueue m1
     | ScanBlocked _ _ _ => False
     | ScanPanic _ => exists s, s ∈ pending /\ sendable env s = true
     end).
Proof.
  intros env m m1 Hclose. unfold Close in Hclose.
  destruct (Chan.closed (outgoingMessageQueue m) || Chan.closed (incomingMessageQueue m));
    [discriminate|].
  injection Hclose as <-. repeat split.
  intros Hq pending. unfold ListenAndDispatchMessages_tick. rewrite Hq.
  match goal with |- context [push_pending env ?l ?m0] =>
    change l with pending; pose proof (push_pending_closed env pending m0 eq_refl) as H
  end.
  destruct (push_pending env pending _) as [m'|m' msg rest'|m'].
  - exact H.
  - exact H.
  - destruct H as (skipped & message & rest & Hp & _ & Hyes & _).
    exists message. split; [|exact Hyes]. rewrite Hp.
    apply elem_of_app. right. apply list_elem_of_here.
Qed.

Lemma X17_shutdown_is_final_witness :
  let m := Scenario.manager (Scenario.db_reply 1) 4 4 in
  exists m1 m2,
    Close m = Returns m1 /\ Close m1 = Panics /\
    ListenAndDispatchMessages_tick Scenario.env0 m1 = ScanPanic m2.
Proof.
  intros m.
  destruct (Close m) as [m1|] eqn:Hclose; [|discriminate Hclose].
  destruct (X17_shutdown_is_final Scenario.env0 m m1 Hclose) as (Hagain & _).
  injection Hclose as <-.
  eexists _, _. split; [reflexivity|]. split; [exact Hagain|].
  vm_compute. reflexivity.
Defined.

(** *** Attachments of an outgoing message *)

Lemma fetch_blobs_spec (env : Env) (medias : list MediaRow) :
  forall attachments,
    ((forall media, media ∈ medias -> (mediaStore_GetBlob env (MUUID media)).2 = None) ->
     fetch_blobs env medias attachments
     = (attachments ++ map (attachment_of env) medias, None)) /\
    ((exists media, media ∈ medias /\ (mediaStore_GetBlob env (MUUID media)).2 <> None) ->
     exists attachments' e, fetch_blobs env medias attachments = (attachments', Some e)).
Proof.
  induction medias as [|media rest IH]; intros attachments.
  - split.
    + intros _. cbn. rewrite app_nil_r. reflexivity.
    + intros (media & Hin & _). inversion Hin.
  - cbn [fetch_blobs].
    destruct (mediaStore_GetBlob env (MUUID media)) as [blob [e|]] eqn:Hblob.
    + split.
      * intros Hall. specialize (Hall media (list_elem_of_here _ _)).
        rewrite Hblob in Hall. discriminate Hall.
      * intros _. eexists _, _. reflexivity.
    + match goal with |- context [fetch_blobs env rest ?acc] =>
        destruct (IH acc) as [IHok IHfail] end.
      split.
      * intros Hall. rewrite IHok.
        -- rewrite <- app_assoc. f_equal. cbn [app map]. f_equal.
           unfold attachment_of. rewrite Hblob. reflexivity.
        -- intros x Hx. apply Hall, list_elem_of_further, Hx.
      * intros (x & Hx & Hbad). apply IHfail. exists x. split; [|exact Hbad].
        apply elem_of_cons in Hx as [->|Hx]; [|exact Hx].
        rewrite Hblob in Hbad. exfalso. apply Hbad. reflexivity.
Qed.

(** X18. The attachments of an outgoing message are all or nothing.
    When the inbox and the media rows of the message are found: if the blob
    of one media cannot be read, the channel's Send is not called and the
    message is to be marked failed; if every blob is read, Send is called
    once, with one attachment per media row, in the order of the rows, and
    with the inbox's address as sender and the stored body. *)
Theorem X18_attachments_all_or_nothing :
  forall (env : Env) (message : Message) (m : Manager) inbox medias,
    inboxStore_Get env (InboxID message) = (inbox, None) ->
    mediaStore_GetByModel env (ID message) = (medias, None) ->
    ((exists media, media ∈ medias /\ (mediaStore_GetBlob env (MUUID media)).2 <> None) ->
     outbox (dispatch env message m) = outbox m /\
     dispatch_status env message = MessageStatusFailed) /\
    ((forall media, media ∈ medias -> (mediaStore_GetBlob env (MUUID media)).2 = None) ->
     exists sent,
       outbox (dispatch env message m) = outbox m ++ [sent] /\
       Attachments sent = map (attachment_of env) medias /\
       Content sent = Content message /\
       From_ sent = FromAddress inbox).
Proof.
  intros env message m inbox medias Hinb Hmed.
  destruct (fetch_blobs_spec env medias []) as [Hok Hfail].
  pose proof (fun uuid status m0 => UpdateMessageStatus_frame env uuid status m0) as Hframe.
  cbn zeta in Hframe.
  split.
  - intros Hbad. destruct (Hfail Hbad) as (atts & e & Hfetch).
    unfold dispatch, dispatch_status, dispatch_error, attachAttachmentsToMessage.
    rewrite Hinb, Hmed, Hfetch. split; [|reflexivity].
    destruct (Hframe (UUID message) MessageStatusFailed (delete_processing (ID message) m))
      as (_ & _ & _ & Hout & _).
    rewrite Hout. reflexivity.
  - intros Hall. specialize (Hok Hall). cbn [app] in Hok.
    unfold dispatch, attachAttachmentsToMessage. rewrite Hinb, Hmed, Hok.
    exists (set_addresses env inbox (set_Attachments (map (attachment_of env) medias) message)).
    split; [|repeat split].
    destruct (Send inbox _); cbn;
      first [rewrite failed_is_not_sent | rewrite sent_is_sent]; cbn;
      match goal with
      | |- context [UpdateMessageStatus ?a ?b ?c ?d] =>
          destruct (UpdateMessageStatus_frame a b c d) as (_ & _ & _ & -> & _)
      end; reflexivity.
Qed.

Lemma X18_attachments_all_or_nothing_witness :
  let m := Scenario.manager (Scenario.db_reply 1) 4 4 in
  let message := Scenario.reply 2 1 "We are on our way" in
  outbox (dispatch (Scenario.env_media false) message m) = [] /\
  exists sent,
    outbox (dispatch (Scenario.env_media true) message m) = [sent] /\
    map AName (Attachments sent) = ["log.txt"; "photo.png"].
Proof.
  intros m message. split.
  - destruct (X18_attachments_all_or_nothing (Scenario.env_media false) message m
                _ _ eq_refl eq_refl) as [Hfail _].
    destruct Hfail as [Hout _]; [|exact Hout].
    eexists. split; [apply list_elem_of_further, list_elem_of_here|]. vm_compute. discriminate.
  - destruct (X18_attachments_all_or_nothing (Scenario.env_media true) message m
                _ _ eq_refl eq_refl) as [_ Hok].
    destruct Hok as (sent & Hout & Hatt & _).
    + intros media Hin. repeat (apply elem_of_cons in Hin as [->|Hin]; [reflexivity|]).
      inversion Hin.
    + exists sent. split; [exact Hout|]. rewrite Hatt. reflexivity.
Defined.

(** *** The incoming worker *)

(** Processing a message neither reads nor writes the incoming queue. *)
Lemma findConversationID_queue (env : Env) (ids : list string)
    (c : Chan.t IncomingMessage) (m : Manager) :
  findConversationID env ids (set_incomingMessageQueue c m) = findConversationID env ids m.
Proof. reflexivity. Qed.

Lemma findOrCreateConversation_queue (env : Env) (in_ : Message) (inboxID contactID : Z)
    (c : Chan.t IncomingMessage) (m : Manager) :
  findOrCreateConversation env in_ inboxID contactID (set_incomingMessageQueue c m)
  = let r := findOrCreateConversation env in_ inboxID contactID m in
    (r.1.1.1, r.1.1.2, r.1.2, set_incomingMessageQueue c r.2).
Proof.
  unfold findOrCreateConversation. rewrite findConversationID_queue.
  destruct (findConversationID env (thread_ids in_) m) as [cid e].
  destruct (fatal e); [reflexivity|].
  destruct (cid =? 0)%Z.
  - unfold CreateConversation. destruct (stmt_fails env "insert-conversation" []);
      [reflexivity|].
    cbn [db set_incomingMessageQueue].
    destruct (bool_decide (None <> None) || _); reflexivity.
  - unfold GetConversationUUID. cbn [db set_incomingMessageQueue].
    destruct (stmt_fails env "get-conversation-uuid" []); [reflexivity|].
    destruct (List.find _ _); reflexivity.
Qed.

Lemma InsertMessage_queue (env : Env) (message : Message)
    (c : Chan.t IncomingMessage) (m : Manager) :
  InsertMessage env message (set_incomingMessageQueue c m)
  = let r := InsertMessage env message m in
    (r.1.1, r.1.2, set_incomingMessageQueue c r.2).
Proof.
  unfold InsertMessage, AddConversationParticipant.
  destruct (stmt_fails env "insert-message" _); [reflexivity|].
  cbn [db set_incomingMessageQueue set_db].
  destruct (stmt_fails env "insert-conversation-participant" _); reflexivity.
Qed.

Lemma processIncomingMessage_queue (env : Env) (x : IncomingMessage)
    (c : Chan.t IncomingMessage) (m : Manager) :
  processIncomingMessage env x (set_incomingMessageQueue c m)
  = ((processIncomingMessage env x m).1,
     set_incomingMessageQueue c (processIncomingMessage env x m).2).
Proof.
  unfold processIncomingMessage.
  destruct (contactStore_Upsert env (im_Contact x)) as [senderID [e|]]; [reflexivity|].
  rewrite findConversationID_queue.
  destruct (findConversationID env _ m) as [cid e].
  destruct (fatal e); [reflexivity|].
  destruct (0 <? cid)%Z; [reflexivity|].
  rewrite findOrCreateConversation_queue. cbn zeta.
  destruct (findOrCreateConversation env _ (im_InboxID x) _ m) as [[[isNew e1] in1] m1].
  cbn [fst snd]. destruct e1 as [e1|]; [reflexivity|].
  rewrite InsertMessage_queue. cbn zeta.
  destruct (InsertMessage env in1 m1) as [[e2 in2] m2]. cbn [fst snd].
  destruct e2 as [e2|]; [reflexivity|].
  destruct (uploadMessageAttachments env in2); [reflexivity|].
  destruct isNew; reflexivity.
Qed.

(** X19. The incoming worker takes the queued messages one at a time,
    oldest first, and goes on to the next one whatever the outcome of
    the one before: after as many turns as messages were queued, the queue
    is empty and the manager is the one obtained by processing the
    messages in the order in which they were enqueued; the next turn finds
    nothing to do.  A message accepted by EnqueueIncoming into an empty
    queue is processed by the next turn exactly as a direct call would. *)
Theorem X19_incoming_worker_is_fifo :
  forall (env : Env) (m : Manager),
    let queued := Chan.buf (incomingMessageQueue m) in
    let drained := Chan.Make [] (Chan.cap (incomingMessageQueue m))
                     (Chan.closed (incomingMessageQueue m)) in
    let m' := IncomingMessageWorker_turns (length queued) env m in
    m' = set_incomingMessageQueue drained
           (fold_left (fun st x => (processIncomingMessage env x st).2) queued m) /\
    IncomingMessageWorker env m' = None /\
    (forall x m1,
       queued = [] -> EnqueueIncoming x m = Returns (None, m1) ->
       IncomingMessageWorker env m1
       = Some (set_incomingMessageQueue (Chan.Make [] (Chan.cap (incomingMessageQueue m)) false)
                 (processIncomingMessage env x m).2)).
Proof.
  intros env m queued drained m'.
  assert (Hturns : forall l m0 cap cl,
            incomingMessageQueue m0 = Chan.Make l cap cl ->
            IncomingMessageWorker_turns (length l) env m0
            = set_incomingMessageQueue (Chan.Make [] cap cl)
                (fold_left (fun st x => (processIncomingMessage env x st).2) l m0)).
  { induction l as [|x l IH]; intros m0 cap cl Hq.
    - cbn. destruct m0. cbn in Hq |- *. rewrite Hq. reflexivity.
    - cbn [length IncomingMessageWorker_turns fold_left].
      unfold IncomingMessageWorker, Chan.recv. rewrite Hq. cbn [Chan.buf Chan.cap Chan.closed].
      rewrite processIncomingMessage_queue. cbn [snd].
      rewrite (IH _ cap cl) by reflexivity.
      assert (Hfold : forall l0 c0 m2,
                fold_left (fun st x => (processIncomingMessage env x st).2) l0
                  (set_incomingMessageQueue c0 m2)
                = set_incomingMessageQueue c0
                    (fold_left (fun st x => (processIncomingMessage env x st).2) l0 m2)).
      { induction l0 as [|y l0 IHl]; intros c0 m2; [reflexivity|].
        cbn [fold_left]. rewrite processIncomingMessage_queue. cbn [snd]. apply IHl. }
      rewrite Hfold. reflexivity. }
  split; [|split].
  - subst m' queued drained. apply Hturns. destruct (incomingMessageQueue m); reflexivity.
  - subst m'. rewrite (Hturns queued m (Chan.cap (incomingMessageQueue m))
                         (Chan.closed (incomingMessageQueue m)))
      by (subst queued; destruct (incomingMessageQueue m); reflexivity).
    reflexivity.
  - intros x m1 Hempty. unfold EnqueueIncoming, Chan.send.
    destruct (closed m); [discriminate|].
    destruct (Chan.closed (incomingMessageQueue m)); [discriminate|].
    destruct (Chan.full (incomingMessageQueue m)); [discriminate|].
    intros [= <-]. unfold IncomingMessageWorker, Chan.recv.
    cbn [incomingMessageQueue set_incomingMessageQueue Chan.buf Chan.cap Chan.closed].
    subst queued. rewrite Hempty. cbn [app].
    rewrite !processIncomingMessage_queue. cbn [snd]. reflexivity.
Qed.

Lemma X19_incoming_worker_is_fifo_witness :
  let m := set_incomingMessageQueue
             (Chan.Make [Scenario.mail "<a@mail>" [] "" "My printer is on fire";
                         Scenario.mail "<b@mail>" [] "<a@mail>" "any news?"] 4 false)
             (Scenario.manager Scenario.db_empty 4 4) in
  let m' := IncomingMessageWorker_turns 2 Scenario.env0 m in
  map Content (messages (db m')) = ["My printer is on fire"; "any news?"] /\
  map ConversationID (messages (db m')) = [1; 1] /\
  IncomingMessageWorker Scenario.env0 m' = None.
Proof.
  intros m m'.
  pose proof (X19_incoming_worker_is_fifo Scenario.env0 m) as H. cbn zeta in H.
  destruct H as (Heq & Hnone & _).
  change (IncomingMessageWorker_turns
            (length (Chan.buf (incomingMessageQueue m))) Scenario.env0 m) with m' in Heq, Hnone.
  split; [|split; [|exact Hnone]]; rewrite Heq; vm_compute; reflexivity.
Defined.

End MessageProperties.

(** ** Properties of the SLA badge *)

Section SlaProperties.
Import Sla.

(** X20. The badge says hit whenever an actual time is given, also when
    that time is after the due time; without one it says remaining
    strictly before the due time and overdue from the due minute on.  The
    text depends on the distance to the due time only, not on its
    direction: whole minutes below an hour, whole hours (1 to 47) below two
    days, whole days (2 or more) from there on; the number is never
    negative. *)
Theorem X20_sla_badge :
  forall (diffInMinutes : Z) (actualAt : bool),
    let r := calculateSla diffInMinutes actualAt in
    let d := Z.abs diffInMinutes in
    status r = (if actualAt then "hit"
                else if decide (0 < diffInMinutes) then "remaining" else "overdue") /\
    (exists n unit_,
       value r = (pretty n ++ " " ++ unit_)%string /\
       ((unit_ = "mins" /\ d < 60 /\ n = d) \/
        (unit_ = "hrs" /\ 60 <= d < 2880 /\ n = d / 60 /\ 1 <= n <= 47) \/
        (unit_ = "days" /\ 2880 <= d /\ n = d / 1440 /\ 2 <= n))) /\
    value (calculateSla (- diffInMinutes) actualAt) = value (calculateSla diffInMinutes true).
Proof.
  intros diffInMinutes actualAt r d.
  assert (Hfmt : forall x,
            0 <= x ->
            let v := if (2880 <=? x)%Z then (pretty (x / 1440) ++ " days")%string
                     else if (x <? 60)%Z then (pretty x ++ " mins")%string
                          else (pretty (x / 60) ++ " hrs")%string in
            exists n unit_,
              v = (pretty n ++ " " ++ unit_)%string /\
              ((unit_ = "mins" /\ x < 60 /\ n = x) \/
               (unit_ = "hrs" /\ 60 <= x < 2880 /\ n = x / 60 /\ 1 <= n <= 47) \/
               (unit_ = "days" /\ 2880 <= x /\ n = x / 1440 /\ 2 <= n))).
  { intros x Hx v. subst v.
    destruct (Z.leb_spec 2880 x) as [Hd|Hd].
    - exists (x / 1440), "days". split; [reflexivity|]. right. right.
      repeat split; try lia. apply Z.div_le_lower_bound; lia.
    - destruct (Z.ltb_spec x 60) as [Hm|Hm].
      + exists x, "mins". split; [reflexivity|]. left. repeat split; lia.
      + exists (x / 60), "hrs". split; [reflexivity|]. right. left.
        repeat split; try lia.
        * apply Z.div_le_lower_bound; lia.
        * assert (x / 60 < 48) by (apply Z.div_lt_upper_bound; lia). lia. }
  assert (Hval : forall x b,
            value (calculateSla x b)
            = if (2880 <=? Z.abs x)%Z then (pretty (Z.abs x / 1440) ++ " days")%string
              else if (Z.abs x <? 60)%Z then (pretty (Z.abs x) ++ " mins")%string
                   else (pretty (Z.abs x / 60) ++ " hrs")%string).
  { intros x b. unfold calculateSla.
    destruct (negb b && (0 <? x)%Z) eqn:Hbranch.
    - apply andb_true_iff in Hbranch as [_ Hpos]. apply Z.ltb_lt in Hpos.
      rewrite (Z.abs_eq x) by lia.
      destruct (2880 <=? x)%Z; reflexivity.
    - cbn zeta. destruct (2880 <=? Z.abs x)%Z; reflexivity. }
  split; [|split].
  - subst r. unfold calculateSla. destruct actualAt; cbn [negb andb].
    + destruct (2880 <=? _)%Z; reflexivity.
    + case_decide as Hpos.
      * apply Z.ltb_lt in Hpos. rewrite Hpos. destruct (2880 <=? _)%Z; reflexivity.
      * apply Z.ltb_nlt in Hpos. rewrite Hpos. cbn zeta.
        destruct (2880 <=? _)%Z; reflexivity.
  - subst r. rewrite Hval. apply (Hfmt d). subst d. lia.
  - rewrite !Hval, Z.abs_opp. reflexivity.
Qed.

End SlaProperties.

(** ** Properties of the rule handlers *)

Section CmdProperties.
Import Automation AutomationSpec Cmd.

Lemma exec_then_reload_inv (env : Env) (stmt msg : string)
    (run : list RuleRecord -> list RuleRecord) (e e' : Engine) (err : option error) :
  exec_then_reload env stmt msg run e = Some (err, e') ->
  (err = Some (ErrNew msg) /\ e' = e) \/
  (err = None /\ reloaded env (run (q e)) e e').
Proof.
  unfold exec_then_reload, ReloadRules. destruct (stmt_fails env stmt).
  - intros [= <- <-]. left. split; reflexivity.
  - cbn. destruct (rulesMu e); cbn; [|discriminate|discriminate].
    intros [= <- <-]. right. repeat split.
Qed.

Lemma answer_true (res : option (option error * Engine)) (e' : Engine) :
  answer res = Some (SendEnvelope_true, e') -> res = Some (None, e').
Proof.
  destruct res as [[[err|] e1]|]; cbn; [discriminate| |discriminate].
  intros [= <-]. reflexivity.
Qed.

(** The value [strconv.Atoi] returns with an error. *)
Lemma ParseUint_loop_error (s : string) :
  forall n v e, Strconv.ParseUint_loop s n = (v, Some e) ->
    (e = Strconv.ErrSyntax /\ v = 0) \/
    (e = Strconv.ErrRange /\ v = Strconv.maxUint64).
Proof.
  induction s as [|c rest IH]; intros n v e; cbn [Strconv.ParseUint_loop].
  - discriminate.
  - destruct (Strconv.digit c) as [d|]; [|intros [= <- <-]; left; split; reflexivity].
    destruct (_ <=? n)%Z; [intros [= <- <-]; right; split; reflexivity|].
    cbn zeta. destruct (_ <? _)%Z; [intros [= <- <-]; right; split; reflexivity|].
    apply IH.
Qed.

Lemma Atoi_loop_error (s : string) :
  forall n v e, Strconv.Atoi_loop s n = (v, Some e) -> e = Strconv.ErrSyntax.
Proof.
  induction s as [|c rest IH]; intros n v e; cbn [Strconv.Atoi_loop].
  - discriminate.
  - destruct (Strconv.digit c) as [d|]; [apply IH|intros [= <- <-]; reflexivity].
Qed.

Lemma ParseInt_error (s : string) (v : Z) (e : Strconv.Err) :
  Strconv.ParseInt s = (v, Some e) ->
  (e = Strconv.ErrSyntax /\ v = 0) \/
  (e = Strconv.ErrRange /\ (v = 2 ^ 63 - 1 \/ v = - 2 ^ 63)).
Proof.
  unfold Strconv.ParseInt. destruct s as [|c rest]; [intros [= <- <-]; left; done|].
  destruct (if bool_decide (c = "+"%char) then _ else _) as [neg s1].
  destruct (Strconv.ParseUint s1) as [un [[|]|]].
  - intros [= <- <-]. left. done.
  - cbn zeta.
    destruct (negb neg && _); [intros [= <- <-]; right; split; [reflexivity|left; reflexivity]|].
    destruct (neg && _); [intros [= <- <-]; right; split; [reflexivity|right; reflexivity]|].
    discriminate.
  - cbn zeta.
    destruct (negb neg && _); [intros [= <- <-]; right; split; [reflexivity|left; reflexivity]|].
    destruct (neg && _); [intros [= <- <-]; right; split; [reflexivity|right; reflexivity]|].
    discriminate.
Qed.

Lemma Atoi_error (s : string) (v : Z) (e : Strconv.Err) :
  Strconv.Atoi s = (v, Some e) ->
  (e = Strconv.ErrSyntax /\ v = 0) \/
  (e = Strconv.ErrRange /\ (v = 2 ^ 63 - 1 \/ v = - 2 ^ 63)).
Proof.
  unfold Strconv.Atoi.
  destruct ((0 <? String.length s)%nat && _); [|apply ParseInt_error].
  destruct s as [|c rest]; [intros [= <- <-]; left; done|].
  cbn zeta. destruct (_ && _); [intros [= <- <-]; left; done|].
  destruct (Strconv.Atoi_loop _ 0) as [n1 [e1|]] eqn:Hl; [|discriminate].
  apply Atoi_loop_error in Hl as ->. intros [= <- <-]. left. done.
Qed.

Lemma ExecToggleRule_absent (id : Z) (t : list RuleRecord) :
  (forall row, row ∈ t -> ID row <> id) -> ExecToggleRule id t = t.
Proof.
  intros Habs. unfold ExecToggleRule. rewrite <- (map_id t) at 2.
  apply map_ext_in. intros row Hin. apply toggle_row_other, Habs, list_elem_of_In, Hin.
Qed.

(** X21. The handlers of the rule routes.  Update and delete answer 400
    to an id that is not a number or is 0, and leave the engine and the
    table as they were.  Whenever one of the four handlers answers true,
    the statement has run and the engine's snapshot has been reloaded from
    the table.  Toggle does not check the id: it asks the engine to toggle
    the value Atoi returned, error or not, which is 0 after a syntax error
    and the nearest bound of int after a range error; when no row of the
    table has that id, it answers true although no row has changed. *)
Theorem X21_rule_handlers :
  forall (env : Env) (r : Request) (e : Engine),
    let parsed := Strconv.Atoi (UserValue_id r) in
    (parsed.2 <> None \/ parsed.1 = 0 ->
     handleUpdateAutomationRule env r e
     = Some (SendErrorEnvelope 400 "Invalid rule `id`." InputError, e) /\
     handleDeleteAutomationRule env r e
     = Some (SendErrorEnvelope 400 "Invalid rule `id`." InputError, e)) /\
    (forall h e',
       h ∈ [handleToggleAutomationRule; handleUpdateAutomationRule;
            handleCreateAutomationRule; handleDeleteAutomationRule] ->
       h env r e = Some (SendEnvelope_true, e') ->
       exists t, reloaded env t e e') /\
    handleToggleAutomationRule env r e = answer (ToggleRule env parsed.1 e) /\
    (forall err, parsed.2 = Some err ->
       (err = Strconv.ErrSyntax /\ parsed.1 = 0) \/
       (err = Strconv.ErrRange /\ (parsed.1 = 2 ^ 63 - 1 \/ parsed.1 = - 2 ^ 63))) /\
    ((forall row, row ∈ q e -> ID row <> parsed.1) ->
     rulesMu e = MuFree -> stmt_fails env "toggle-rule" = false ->
     exists e', handleToggleAutomationRule env r e = Some (SendEnvelope_true, e') /\
                q e' = q e).
Proof.
  intros env r e parsed. split; [|split; [|split; [|split]]].
  - intros Hbad. unfold handleUpdateAutomationRule, handleDeleteAutomationRule.
    subst parsed.
    destruct (Strconv.Atoi (UserValue_id r)) as [id err]. cbn [fst snd] in Hbad.
    assert (Htest : bool_decide (err <> None) || (id =? 0)%Z = true).
    { destruct Hbad as [Herr| ->].
      - rewrite bool_decide_eq_true_2 by exact Herr. reflexivity.
      - apply orb_true_r. }
    rewrite Htest. split; reflexivity.
  - intros h e' Hh Hrun.
    assert (Hinv : forall stmt msg run,
              exec_then_reload env stmt msg run e = Some (None, e') ->
              exists t, reloaded env t e e').
    { intros stmt msg run Hx. apply exec_then_reload_inv in Hx as [[Hx _]|[_ Hx]];
        [discriminate Hx|]. eexists. exact Hx. }
    repeat (apply elem_of_cons in Hh as [->|Hh]); [| | | |inversion Hh].
    + unfold handleToggleAutomationRule in Hrun.
      destruct (Strconv.Atoi (UserValue_id r)) as [id err].
      apply answer_true in Hrun. exact (Hinv _ _ _ Hrun).
    + unfold handleUpdateAutomationRule in Hrun.
      destruct (Strconv.Atoi (UserValue_id r)) as [id err].
      destruct (bool_decide (err <> None) || (id =? 0)%Z); [discriminate Hrun|].
      destruct (Decode r) as [rule|]; [|discriminate Hrun].
      apply answer_true in Hrun. exact (Hinv _ _ _ Hrun).
    + unfold handleCreateAutomationRule in Hrun.
      destruct (Decode r) as [rule|]; [|discriminate Hrun].
      apply answer_true in Hrun. exact (Hinv _ _ _ Hrun).
    + unfold handleDeleteAutomationRule in Hrun.
      destruct (Strconv.Atoi (UserValue_id r)) as [id err].
      destruct (bool_decide (err <> None) || (id =? 0)%Z); [discriminate Hrun|].
      apply answer_true in Hrun. exact (Hinv _ _ _ Hrun).
  - unfold handleToggleAutomationRule. subst parsed.
    destruct (Strconv.Atoi (UserValue_id r)) as [id err]. reflexivity.
  - intros err Herr. subst parsed.
    destruct (Strconv.Atoi (UserValue_id r)) as [id err0] eqn:Hp. cbn [fst snd] in *.
    subst err0. exact (Atoi_error _ _ _ Hp).
  - intros Habs Hfree Hok. unfold handleToggleAutomationRule. subst parsed.
    destruct (Strconv.Atoi (UserValue_id r)) as [id err]. cbn [fst] in Habs.
    destruct (exec_then_reload_ok env "toggle-rule" "Error toggling automation rule."
                (ExecToggleRule id) e Hfree Hok) as (e' & Hrun & Hq & _).
    exists e'. unfold ToggleRule. rewrite Hrun. split; [reflexivity|].
    rewrite Hq. apply ExecToggleRule_absent. exact Habs.
Qed.

(** The ids "two" and "99999999999999999999x": delete answers 400;
    toggle asks for rule 0 and for the largest int, and answers true. *)
Lemma X21_rule_handlers_witness :
  let r := {| UserValue_id := "two"; Decode := None |} in
  let r' := {| UserValue_id := "99999999999999999999x"; Decode := None |} in
  handleDeleteAutomationRule Scenario.rule_env r Scenario.engine2
  = Some (SendErrorEnvelope 400 "Invalid rule `id`." InputError, Scenario.engine2) /\
  Strconv.Atoi (UserValue_id r) = (0, Some Strconv.ErrSyntax) /\
  Strconv.Atoi (UserValue_id r') = (2 ^ 63 - 1, Some Strconv.ErrRange) /\
  (exists e', handleToggleAutomationRule Scenario.rule_env r Scenario.engine2
              = Some (SendEnvelope_true, e') /\
              q e' = q Scenario.engine2) /\
  (exists e', handleToggleAutomationRule Scenario.rule_env r' Scenario.engine2
              = Some (SendEnvelope_true, e') /\
              q e' = q Scenario.engine2).
Proof.
  intros r r'.
  destruct (X21_rule_handlers Scenario.rule_env r Scenario.engine2)
    as (Hbad & _ & _ & _ & Htoggle).
  destruct (X21_rule_handlers Scenario.rule_env r' Scenario.engine2)
    as (_ & _ & _ & _ & Htoggle').
  split; [apply Hbad; left; vm_compute; discriminate|].
  split; [vm_compute; reflexivity|]. split; [vm_compute; reflexivity|]. split.
  - apply Htoggle; [|reflexivity|reflexivity].
    intros row Hin. repeat (apply elem_of_cons in Hin as [->|Hin]; [vm_compute; discriminate|]).
    inversion Hin.
  - apply Htoggle'; [|reflexivity|reflexivity].
    intros row Hin. repeat (apply elem_of_cons in Hin as [->|Hin]; [vm_compute; discriminate|]).
    inversion Hin.
Defined.

End CmdProperties.

(** ** Properties of the OIDC manager *)

Section OidcProperties.
Import Oidc.

(** X22. The client secret of a provider.  Get without the secret shows
    ten dummy characters in place of a stored secret, and nothing in place
    of an empty one; Update writes the secret it is given, and the stored
    one when it is given the empty string.  So an update that sends back
    what Get showed does not keep the secret: it stores the dummy
    characters. *)
Theorem X22_oidc_secret_round_trip :
  forall (env : Env) (id : Z) (stored : OIDC),
    (forall o, ClientSecret (SetProviderLogo env o) = ClientSecret o) ->
    GetOIDC env id = Some stored ->
    let mask := Repeat (PasswordDummy env) 10 in
    exists shown,
      Get env id false = (shown, None) /\
      ClientSecret shown = (if bool_decide (ClientSecret stored = "") then "" else mask) /\
      ClientSecret (Get env id true).1 = ClientSecret stored /\
      (forall o, exists err call,
         Update env id o = (err, Some call) /\
         u_client_secret call
         = if bool_decide (ClientSecret o = "") then ClientSecret stored
           else ClientSecret o) /\
      (ClientSecret stored <> "" -> PasswordDummy env <> "" ->
       exists err call,
         Update env id shown = (err, Some call) /\
         u_client_secret call = mask).
Proof.
  intros env id stored Hlogo Hrow mask.
  assert (Hupd : forall o, exists err call,
            Update env id o = (err, Some call) /\
            u_client_secret call
            = if bool_decide (ClientSecret o = "") then ClientSecret stored
              else ClientSecret o).
  { intros o. unfold Update, Get. rewrite Hrow. cbn [negb andb].
    rewrite andb_false_r.
    destruct (UpdateOIDC_fails env _); eexists _, _; (split; [reflexivity|]);
      cbn [u_client_secret]; case_bool_decide; cbn; rewrite ?Hlogo; reflexivity. }
  unfold Get. rewrite Hrow. cbn [negb]. rewrite andb_true_r, andb_false_r, Hlogo.
  eexists. split; [reflexivity|]. split; [|split; [|split]].
  - case_bool_decide; cbn; [rewrite Hlogo; assumption|reflexivity].
  - cbn. apply Hlogo.
  - exact Hupd.
  - intros Hsecret Hdummy.
    rewrite bool_decide_eq_false_2 by exact Hsecret. cbn [negb].
    destruct (Hupd (set_ClientSecret mask (SetProviderLogo env stored)))
      as (err & call & Hrun & Hsec).
    exists err, call. split; [exact Hrun|].
    rewrite Hsec. cbn [ClientSecret set_ClientSecret].
    rewrite bool_decide_eq_false_2; [reflexivity|].
    subst mask. cbn. destruct (PasswordDummy env); [congruence|discriminate].
Qed.

Lemma X22_oidc_secret_round_trip_witness :
  exists shown err call,
    Get Scenario.oidc_env 1 false = (shown, None) /\
    ClientSecret shown = "**********" /\
    Update Scenario.oidc_env 1 shown = (err, Some call) /\
    u_client_secret call = "**********".
Proof.
  destruct (X22_oidc_secret_round_trip Scenario.oidc_env 1 _ (fun o => eq_refl) eq_refl)
    as (shown & Hget & Hshown & _ & _ & Hback).
  destruct Hback as (err & call & Hrun & Hsec).
  - vm_compute. discriminate.
  - vm_compute. discriminate.
  - exists shown, err, call. split; [exact Hget|]. split; [exact Hshown|].
    split; [exact Hrun|exact Hsec].
Defined.

End OidcProperties.
